(** * Amigo Perto: battery gauge, buzzer engine, BLE connectivity manager

    A shallow embedding of the firmware under [etapa3/amigo_perto_v2]:
    - [hal/battery.c]   the battery gauge (ADC oversampling, mV, %, state);
    - [hal/buzzer.c]    the intermittent buzzer pattern engine;
    - [hal/ble.c]       the advertising / connection state machine;
    - [gatt/*.c]        the two GATT bridges;
    - [main.c]          the application callbacks that wire them together.

    C integers are [Z] with the wrap-around of their type written out.
    Module globals become fields of one record per C file.  What the
    Zephyr drivers and the Bluetooth host answer (return codes, ADC
    samples) is passed to each function as an explicit argument. *)

From Stdlib Require Import ZArith List Bool Lia String.
From Stdlib Require Import Strings.Byte.
Import ListNotations.
Local Open Scope Z_scope.

(* ===================================================================== *)
(** * Machine integers *)
(* ===================================================================== *)

Module CInt.

(** Conversion to an unsigned type of [w] bits. *)
Definition to_unsigned (w : Z) (z : Z) : Z := z mod 2 ^ w.

(** Conversion to a signed (two's complement) type of [w] bits. *)
Definition to_signed (w : Z) (z : Z) : Z :=
  (z + 2 ^ (w - 1)) mod 2 ^ w - 2 ^ (w - 1).

Definition u8 := to_unsigned 8.
Definition u16 := to_unsigned 16.
Definition u32 := to_unsigned 32.
Definition s16 := to_signed 16.
Definition s32 := to_signed 32.

(** [(float)z] for a 32-bit unsigned [z]: the nearest binary32 value,
    ties to even.  Integers below [2^24] are represented exactly. *)
Definition f32_of_u32 (z : Z) : Z :=
  if z <? 2 ^ 24 then z
  else
    let e := Z.log2 z - 23 in
    let q := Z.shiftr z e in
    let r := z - Z.shiftl q e in
    let half := Z.shiftl 1 (e - 1) in
    let q' := if (half <? r) || ((r =? half) && Z.odd q) then q + 1 else q in
    Z.shiftl q' e.

End CInt.

(* ===================================================================== *)
(** * hal/battery.c *)
(* ===================================================================== *)

Module Battery.
Import CInt.

(** [hal_battery_error_t] *)
Definition HAL_BATTERY_SUCCESS : Z := 0.
Definition HAL_BATTERY_ERROR_INIT : Z := -1.
Definition HAL_BATTERY_ERROR_READ : Z := -2.
Definition HAL_BATTERY_ERROR_STATE : Z := -3.

(** [hal_battery_state_t] *)
Inductive hal_battery_state_t :=
| HAL_BATTERY_STATE_CRITICAL
| HAL_BATTERY_STATE_LOW
| HAL_BATTERY_STATE_MEDIUM
| HAL_BATTERY_STATE_GOOD
| HAL_BATTERY_STATE_UNKNOWN.

(** The enumerator values, as sent in the Battery State characteristic. *)
Definition state_code (s : hal_battery_state_t) : Z :=
  match s with
  | HAL_BATTERY_STATE_CRITICAL => 0
  | HAL_BATTERY_STATE_LOW => 1
  | HAL_BATTERY_STATE_MEDIUM => 2
  | HAL_BATTERY_STATE_GOOD => 3
  | HAL_BATTERY_STATE_UNKNOWN => 4
  end.

(** [hal_battery_info_t] *)
Record hal_battery_info_t := mk_info {
  voltage_mv : Z;                   (* uint16_t *)
  percentage : Z;                   (* uint8_t *)
  state : hal_battery_state_t
}.

Definition ADC_RESOLUTION : Z := 12.
Definition ADC_VREF_MV : Z := 3600.
Definition ADC_SAMPLES : nat := 4.

Definition BATTERY_VOLTAGE_MAX_MV : Z := 3000.
Definition BATTERY_VOLTAGE_GOOD_MV : Z := 2800.
Definition BATTERY_VOLTAGE_LOW_MV : Z := 2500.
Definition BATTERY_VOLTAGE_CRIT_MV : Z := 2200.
Definition BATTERY_VOLTAGE_MIN_MV : Z := 2000.

(** [BATTERY_DIVIDER_RATIO] is the float [1.0f]; the product of a
    binary32 value with it is that value. *)
Definition BATTERY_DIVIDER_RATIO : Z := 1.

Definition EIO : Z := 5.

(** The module's globals. *)
Record t := mk {
  initialized : bool;
  last_reading : hal_battery_info_t
}.

Definition initial : t :=
  mk false (mk_info 0 0 HAL_BATTERY_STATE_UNKNOWN).

(** What one call of [adc_read] leaves behind: its return code and
    the [int16_t] found in [adc_sample_buffer[0]] afterwards. *)
Record adc_result := mk_adc { adc_ret : Z; adc_raw : Z }.

(** [adc_raw_to_mv]: every operation in [uint32_t], the product with
    the divider ratio in [float], the result cut to [uint16_t]. *)
Definition adc_raw_to_mv (adc_value : Z) : Z :=
  let adc_max := u32 (Z.shiftl 1 ADC_RESOLUTION - 1) in
  let voltage_mv := u32 (u32 (u32 adc_value * ADC_VREF_MV) ÷ adc_max) in
  let voltage_mv := u32 (f32_of_u32 voltage_mv * BATTERY_DIVIDER_RATIO) in
  u16 voltage_mv.

(** One turn of the sampling loop on the pair [(sum, valid_samples)]. *)
Definition sample_step (acc : Z * Z) (r : adc_result) : Z * Z :=
  let '(sum, valid_samples) := acc in
  if adc_ret r <? 0 then acc
  else
    let raw_value := adc_raw r in
    if (0 <=? raw_value) && (raw_value <? Z.shiftl 1 ADC_RESOLUTION)
    then (s32 (sum + raw_value), u8 (valid_samples + 1))
    else acc.

(** [adc_read_with_oversampling]: [reads] are the answers of the ADC
    driver in call order; the loop consumes [ADC_SAMPLES] of them.
    [inl e] is the negative return code, [inr v] the value stored
    through [voltage_mv] together with return code 0. *)
Definition adc_read_with_oversampling (reads : list adc_result) : Z + Z :=
  let '(sum, valid_samples) :=
    fold_left sample_step (firstn ADC_SAMPLES reads) (0, 0) in
  if valid_samples =? 0 then inl (- EIO)
  else
    let avg_raw := s16 (sum ÷ valid_samples) in
    inr (adc_raw_to_mv avg_raw).

(** [linear_interpolate], in [int32_t]. *)
Definition linear_interpolate (x x0 y0 x1 y1 : Z) : Z :=
  if x <=? x0 then y0
  else if x1 <=? x then y1
  else s32 (y0 + s32 (s32 (s32 (x - x0) * s32 (y1 - y0)) ÷ s32 (x1 - x0))).

(** [hal_battery_read_voltage]; the out-parameter is the result. *)
Definition hal_battery_read_voltage (s : t) (reads : list adc_result) : Z + Z :=
  if negb (initialized s) then inl HAL_BATTERY_ERROR_STATE
  else
    match adc_read_with_oversampling reads with
    | inl _ => inl HAL_BATTERY_ERROR_READ
    | inr v => inr v
    end.

(** [hal_battery_voltage_to_percentage] *)
Definition hal_battery_voltage_to_percentage (voltage_mv : Z) : Z :=
  let percentage :=
    if BATTERY_VOLTAGE_MAX_MV <=? voltage_mv then 100
    else if BATTERY_VOLTAGE_GOOD_MV <=? voltage_mv then
      linear_interpolate voltage_mv BATTERY_VOLTAGE_GOOD_MV 70
                         BATTERY_VOLTAGE_MAX_MV 100
    else if BATTERY_VOLTAGE_LOW_MV <=? voltage_mv then
      linear_interpolate voltage_mv BATTERY_VOLTAGE_LOW_MV 30
                         BATTERY_VOLTAGE_GOOD_MV 70
    else if BATTERY_VOLTAGE_CRIT_MV <=? voltage_mv then
      linear_interpolate voltage_mv BATTERY_VOLTAGE_CRIT_MV 10
                         BATTERY_VOLTAGE_LOW_MV 30
    else if BATTERY_VOLTAGE_MIN_MV <=? voltage_mv then
      linear_interpolate voltage_mv BATTERY_VOLTAGE_MIN_MV 0
                         BATTERY_VOLTAGE_CRIT_MV 10
    else 0 in
  let percentage := if 100 <? percentage then 100 else percentage in
  let percentage := if percentage <? 0 then 0 else percentage in
  u8 percentage.

(** [hal_battery_percentage_to_state] *)
Definition hal_battery_percentage_to_state (percentage : Z) : hal_battery_state_t :=
  if 70 <? percentage then HAL_BATTERY_STATE_GOOD
  else if 30 <? percentage then HAL_BATTERY_STATE_MEDIUM
  else if 10 <? percentage then HAL_BATTERY_STATE_LOW
  else HAL_BATTERY_STATE_CRITICAL.

(** [hal_battery_get_info]: the return code, the record written
    through [info] on success, and the module afterwards. *)
Definition hal_battery_get_info (s : t) (reads : list adc_result)
  : (Z + hal_battery_info_t) * t :=
  if negb (initialized s) then (inl HAL_BATTERY_ERROR_STATE, s)
  else
    match hal_battery_read_voltage s reads with
    | inl ret => (inl ret, s)
    | inr voltage_mv =>
        let percentage := hal_battery_voltage_to_percentage voltage_mv in
        let state := hal_battery_percentage_to_state percentage in
        let info := mk_info voltage_mv percentage state in
        (inr info, mk (initialized s) info)
    end.

(** [hal_battery_init]: [dev_ready] and [setup_ret] are the answers
    of [device_is_ready] and [adc_channel_setup]; [reads] feed the
    first reading. *)
Definition hal_battery_init (s : t) (dev_ready : bool) (setup_ret : Z)
           (reads : list adc_result) : Z * t :=
  if initialized s then (HAL_BATTERY_SUCCESS, s)
  else if negb dev_ready then (HAL_BATTERY_ERROR_INIT, s)
  else if setup_ret <? 0 then (HAL_BATTERY_ERROR_INIT, s)
  else
    let s1 := mk true (last_reading s) in
    (HAL_BATTERY_SUCCESS, snd (hal_battery_get_info s1 reads)).

(** [hal_battery_is_critical] *)
Definition hal_battery_is_critical (s : t) (reads : list adc_result) : bool * t :=
  if negb (initialized s) then (false, s)
  else
    match hal_battery_get_info s reads with
    | (inl _, s') => (false, s')
    | (inr info, s') =>
        (match state info with HAL_BATTERY_STATE_CRITICAL => true | _ => false end, s')
    end.

(** What a client can do to the gauge; each call carries what the ADC
    driver answers while it runs. *)
Inductive op :=
| op_init (dev_ready : bool) (setup_ret : Z) (reads : list adc_result)
| op_get_info (reads : list adc_result)
| op_is_critical (reads : list adc_result).

Definition exec (o : op) (s : t) : t :=
  match o with
  | op_init dev_ready setup_ret reads =>
      snd (hal_battery_init s dev_ready setup_ret reads)
  | op_get_info reads => snd (hal_battery_get_info s reads)
  | op_is_critical reads => snd (hal_battery_is_critical s reads)
  end.

Inductive reachable : t -> Prop :=
| reach_initial : reachable initial
| reach_exec o s : reachable s -> reachable (exec o s).

(** A reading whose three fields belong together. *)
Definition consistent (i : hal_battery_info_t) : Prop :=
  0 <= voltage_mv i <= ADC_VREF_MV /\
  percentage i = hal_battery_voltage_to_percentage (voltage_mv i) /\
  state i = hal_battery_percentage_to_state (percentage i).

End Battery.

(* ===================================================================== *)
(** * hal/buzzer.c *)
(* ===================================================================== *)

Module Buzzer.
Import CInt.

(** [hal_buzzer_error_t] *)
Definition HAL_BUZZER_SUCCESS : Z := 0.
Definition HAL_BUZZER_ERROR_INIT : Z := -1.
Definition HAL_BUZZER_ERROR_INVALID : Z := -2.
Definition HAL_BUZZER_ERROR_STATE : Z := -3.

(** [hal_buzzer_intensity_t] *)
Definition HAL_BUZZER_INTENSITY_OFF : Z := 0.
Definition HAL_BUZZER_INTENSITY_LOW : Z := 25.
Definition HAL_BUZZER_INTENSITY_MEDIUM : Z := 50.
Definition HAL_BUZZER_INTENSITY_HIGH : Z := 75.
Definition HAL_BUZZER_INTENSITY_MAX : Z := 100.

Definition PWM_PERIOD_NS : Z := 20000000.
Definition PWM_PULSE_OFF_NS : Z := 0.
Definition PATTERN_INTERMITTENT_PERIOD_MS : Z := 500.
Definition K_NO_WAIT : Z := 0.

(** The module's globals, the [static bool state] of the pattern
    handler, and the two collaborators the module drives: the PWM
    channel (the pulse width last handed to [pwm_set_dt]) and the
    delayable work item ([Some d] while it waits in the queue with
    delay [d] ms). *)
Record t := mk {
  initialized : bool;
  current_intensity : Z;                       (* uint8_t *)
  pattern_intermittent_active : bool;
  state : bool;
  pattern_intermittent_work : option Z;
  pwm_pulse_ns : Z                             (* uint32_t *)
}.

(** The statics as the C file initialises them; the PWM is not driven. *)
Definition initial : t :=
  mk false HAL_BUZZER_INTENSITY_MEDIUM false false None 0.

Definition set_initialized b (s : t) : t :=
  mk b (current_intensity s) (pattern_intermittent_active s) (state s)
     (pattern_intermittent_work s) (pwm_pulse_ns s).
Definition set_current_intensity i (s : t) : t :=
  mk (initialized s) i (pattern_intermittent_active s) (state s)
     (pattern_intermittent_work s) (pwm_pulse_ns s).
Definition set_active b (s : t) : t :=
  mk (initialized s) (current_intensity s) b (state s)
     (pattern_intermittent_work s) (pwm_pulse_ns s).
Definition set_state b (s : t) : t :=
  mk (initialized s) (current_intensity s) (pattern_intermittent_active s) b
     (pattern_intermittent_work s) (pwm_pulse_ns s).
Definition set_work w (s : t) : t :=
  mk (initialized s) (current_intensity s) (pattern_intermittent_active s)
     (state s) w (pwm_pulse_ns s).
Definition set_pulse p (s : t) : t :=
  mk (initialized s) (current_intensity s) (pattern_intermittent_active s)
     (state s) (pattern_intermittent_work s) p.

(** Zephyr's [k_work_schedule]: a work item that already waits in the
    queue is left as it is. *)
Definition k_work_schedule (delay : Z) (s : t) : t :=
  match pattern_intermittent_work s with
  | Some _ => s
  | None => set_work (Some delay) s
  end.

(** Zephyr's [k_work_cancel_delayable]. *)
Definition k_work_cancel_delayable (s : t) : t := set_work None s.

(** [intensity_to_pulse_ns] *)
Definition intensity_to_pulse_ns (intensity : Z) : Z :=
  let intensity := if 100 <? intensity then 100 else intensity in
  u32 (PWM_PERIOD_NS * intensity) ÷ 100.

(** [pwm_set_intensity]; the driver's return code matters to
    [hal_buzzer_init] only and is taken there. *)
Definition pwm_set_intensity (intensity : Z) (s : t) : t :=
  set_pulse (intensity_to_pulse_ns intensity) s.

(** [pattern_intermittent_handler] *)
Definition pattern_intermittent_handler (s : t) : t :=
  if negb (pattern_intermittent_active s) then pwm_set_intensity 0 s
  else
    let s := set_state (negb (state s)) s in
    let s := if state s then pwm_set_intensity (current_intensity s) s
             else pwm_set_intensity 0 s in
    k_work_schedule PATTERN_INTERMITTENT_PERIOD_MS s.

(** The work queue takes the waiting item out and runs its handler;
    with nothing queued, nothing runs. *)
Definition run_pattern_work (s : t) : t :=
  match pattern_intermittent_work s with
  | None => s
  | Some _ => pattern_intermittent_handler (set_work None s)
  end.

(** [stop_intermittent] *)
Definition stop_intermittent (s : t) : t :=
  let s := set_active false s in
  let s := k_work_cancel_delayable s in
  pwm_set_intensity 0 s.

(** [hal_buzzer_set_intermittent] *)
Definition hal_buzzer_set_intermittent (active : bool) (intensity : Z) (s : t)
  : Z * t :=
  if negb (initialized s) then (HAL_BUZZER_ERROR_STATE, s)
  else if 100 <? intensity then (HAL_BUZZER_ERROR_INVALID, s)
  else if active then
    let s := set_current_intensity intensity s in
    let s := set_active true s in
    (HAL_BUZZER_SUCCESS, k_work_schedule K_NO_WAIT s)
  else (HAL_BUZZER_SUCCESS, stop_intermittent s).

(** [hal_buzzer_init]: [dev_ready] answers [device_is_ready],
    [pwm_ret] is what [pwm_set_dt] returns for the first pulse. *)
Definition hal_buzzer_init (dev_ready : bool) (pwm_ret : Z) (s : t) : Z * t :=
  if initialized s then (HAL_BUZZER_SUCCESS, s)
  else if negb dev_ready then (HAL_BUZZER_ERROR_INIT, s)
  else
    let s := pwm_set_intensity 0 s in
    if pwm_ret <? 0 then (HAL_BUZZER_ERROR_INIT, s)
    else
      let s := set_work None s in
      let s := set_current_intensity HAL_BUZZER_INTENSITY_MEDIUM s in
      let s := set_active false s in
      (HAL_BUZZER_SUCCESS, set_initialized true s).

(** What can happen to the engine: a call of its API or a turn of the
    work queue. *)
Inductive op :=
| op_init (dev_ready : bool) (pwm_ret : Z)
| op_set_intermittent (active : bool) (intensity : Z)
| op_work.

Definition exec (o : op) (s : t) : t :=
  match o with
  | op_init dev_ready pwm_ret => snd (hal_buzzer_init dev_ready pwm_ret s)
  | op_set_intermittent active intensity =>
      snd (hal_buzzer_set_intermittent active intensity s)
  | op_work => run_pattern_work s
  end.

Definition run (ops : list op) (s : t) : t :=
  fold_left (fun s o => exec o s) ops s.

Inductive reachable : t -> Prop :=
| reach_initial : reachable initial
| reach_exec o s : reachable s -> reachable (exec o s).

(** An inactive pattern has the PWM off. *)
Definition silent_when_inactive (s : t) : Prop :=
  pattern_intermittent_active s = false -> pwm_pulse_ns s = 0.

(** The arguments of an operation fit their C types ([uint8_t]
    intensity). *)
Definition typed (o : op) : Prop :=
  match o with
  | op_set_intermittent _ intensity => 0 <= intensity < 256
  | _ => True
  end.

(** The work item waits in the queue. *)
Definition armed (s : t) : bool :=
  match pattern_intermittent_work s with Some _ => true | None => false end.

(** The pulse the handler programs for a value of its toggle flag. *)
Definition pulse_for (flag : bool) (s : t) : Z :=
  if flag then intensity_to_pulse_ns (current_intensity s) else 0.

(** What the engine keeps from power-on. *)
Definition well_formed (s : t) : Prop :=
  (initialized s = false -> pattern_intermittent_active s = false) /\
  pattern_intermittent_active s = armed s /\
  0 <= current_intensity s <= 100 /\
  0 <= pwm_pulse_ns s <= PWM_PERIOD_NS.

End Buzzer.

(* ===================================================================== *)
(** * The Bluetooth host, as the firmware sees it *)
(* ===================================================================== *)

Module Bt.

(** A connection object of the host, [struct bt_conn *]. *)
Definition bt_conn := nat.

(** The connection parameters [bt_conn_get_info] reports
    ([info.le.interval], [latency], [timeout], all [uint16_t]). *)
Record bt_conn_le_info := mk_le_info {
  interval : Z;
  latency : Z;
  timeout : Z
}.

(** Advertising options; the C bit mask is the set of its flags. *)
Inductive adv_opt := BT_LE_ADV_OPT_CONN | BT_LE_ADV_OPT_USE_IDENTITY.

(** [struct bt_le_adv_param]; [peer] is always [NULL]. *)
Record bt_le_adv_param := mk_adv_param {
  id : Z;
  sid : Z;
  secondary_max_skip : Z;
  options : list adv_opt;
  interval_min : Z;                 (* uint32_t, units of 0.625 ms *)
  interval_max : Z
}.

(** Entries of the advertising and scan-response payloads. *)
Inductive bt_data :=
| BT_DATA_FLAGS (general no_bredr : bool)
| BT_DATA_NAME_COMPLETE (data_len : Z) (name : string)
| BT_DATA_UUID128_ALL (data_len : Z).

(** Calls into the host that change what it holds for the firmware. *)
Inductive call :=
| bt_enable
| bt_conn_cb_register
| bt_conn_ref (c : bt_conn)
| bt_conn_unref (c : bt_conn)
| bt_le_adv_start (param : bt_le_adv_param) (ad sd : list bt_data)
| bt_le_adv_stop
| bt_conn_disconnect (c : bt_conn)
| bt_gatt_notify (c : bt_conn) (value : Z).

Definition is_unref (c : bt_conn) (k : call) : bool :=
  match k with bt_conn_unref c' => Nat.eqb c c' | _ => false end.

(** How often a list of calls releases connection [c]. *)
Definition unrefs (c : bt_conn) (l : list call) : nat :=
  List.length (filter (is_unref c) l).

Definition is_ref (c : bt_conn) (k : call) : bool :=
  match k with bt_conn_ref c' => Nat.eqb c c' | _ => false end.

(** How often a list of calls takes a reference to connection [c]. *)
Definition refs (c : bt_conn) (l : list call) : nat :=
  List.length (filter (is_ref c) l).

(** Whether a slot holds connection [c]. *)
Definition holds (c : bt_conn) (slot : option bt_conn) : bool :=
  match slot with Some c' => Nat.eqb c c' | None => false end.

(** ATT error codes of the Bluetooth Core Specification. *)
Definition BT_ATT_ERR_INVALID_OFFSET : Z := 7.
Definition BT_ATT_ERR_INVALID_ATTRIBUTE_LEN : Z := 13.
Definition BT_ATT_ERR_VALUE_NOT_ALLOWED : Z := 19.
Definition BT_GATT_ERR (att_err : Z) : Z := - att_err.

Definition BT_GATT_CCC_NOTIFY : Z := 1.

Definition ENOTCONN : Z := 128.
Definition EACCES : Z := 13.

End Bt.

(* ===================================================================== *)
(** * hal/ble.c *)
(* ===================================================================== *)

Module Ble.
Import CInt Bt.

(** [hal_ble_error_t] *)
Definition HAL_BLE_SUCCESS : Z := 0.
Definition HAL_BLE_ERROR_INIT : Z := -1.
Definition HAL_BLE_ERROR_INVALID : Z := -2.
Definition HAL_BLE_ERROR_STATE : Z := -3.
Definition HAL_BLE_ERROR_NOT_CONNECTED : Z := -4.
Definition HAL_BLE_ERROR_FAILED : Z := -5.

(** [hal_ble_state_t] *)
Inductive hal_ble_state_t :=
| HAL_BLE_STATE_IDLE
| HAL_BLE_STATE_READY
| HAL_BLE_STATE_ADVERTISING
| HAL_BLE_STATE_CONNECTED.

Definition state_eqb (a b : hal_ble_state_t) : bool :=
  match a, b with
  | HAL_BLE_STATE_IDLE, HAL_BLE_STATE_IDLE
  | HAL_BLE_STATE_READY, HAL_BLE_STATE_READY
  | HAL_BLE_STATE_ADVERTISING, HAL_BLE_STATE_ADVERTISING
  | HAL_BLE_STATE_CONNECTED, HAL_BLE_STATE_CONNECTED => true
  | _, _ => false
  end.

(** [hal_ble_adv_params_t] *)
Record hal_ble_adv_params_t := mk_adv_params {
  interval_min_ms : Z;              (* uint16_t *)
  interval_max_ms : Z;              (* uint16_t *)
  connectable : bool;
  use_identity : bool
}.

(** [hal_ble_conn_info_t] *)
Record hal_ble_conn_info_t := mk_conn_info {
  interval_ms : Z;
  conn_latency : Z;
  timeout_ms : Z
}.

Definition DEFAULT_ADV_INTERVAL_MIN_MS : Z := 500.
Definition DEFAULT_ADV_INTERVAL_MAX_MS : Z := 500.
Definition ADV_INTERVAL_MIN_MS : Z := 20.
Definition ADV_INTERVAL_MAX_MS : Z := 10240.
Definition MAX_DEVICE_NAME_LEN : nat := 29.
Definition MS_TO_BLE_UNITS (ms : Z) : Z := ms * 8 ÷ 5.

Section WithApplication.

(** The state of whoever registers the callbacks; a callback is a
    function on it. *)
Context {A : Type}.

(** [hal_ble_callbacks_t]; [None] is a [NULL] function pointer. *)
Record hal_ble_callbacks_t := mk_callbacks {
  connected : option (hal_ble_conn_info_t -> A -> A);
  disconnected : option (Z -> A -> A);
  adv_started : option (A -> A);
  adv_stopped : option (A -> A)
}.

Definition no_callbacks : hal_ble_callbacks_t :=
  mk_callbacks None None None None.

(** The module's globals; [adv_work] tells whether the work item
    waits in the system work queue, [calls] lists the calls made
    into the host, the latest first. *)
Record t := mk {
  initialized : bool;
  current_state : hal_ble_state_t;
  user_callbacks : hal_ble_callbacks_t;
  device_name : string;
  current_conn : option bt_conn;
  adv_work : bool;
  ad_data : list bt_data;
  sd_data : list bt_data;
  adv_param : option bt_le_adv_param;
  calls : list call
}.

Definition initial : t :=
  mk false HAL_BLE_STATE_IDLE no_callbacks EmptyString None false [] [] None [].

Definition set_initialized v (s : t) : t :=
  mk v (current_state s) (user_callbacks s) (device_name s) (current_conn s)
     (adv_work s) (ad_data s) (sd_data s) (adv_param s) (calls s).
Definition set_current_state v (s : t) : t :=
  mk (initialized s) v (user_callbacks s) (device_name s) (current_conn s)
     (adv_work s) (ad_data s) (sd_data s) (adv_param s) (calls s).
Definition set_user_callbacks v (s : t) : t :=
  mk (initialized s) (current_state s) v (device_name s) (current_conn s)
     (adv_work s) (ad_data s) (sd_data s) (adv_param s) (calls s).
Definition set_device_name v (s : t) : t :=
  mk (initialized s) (current_state s) (user_callbacks s) v (current_conn s)
     (adv_work s) (ad_data s) (sd_data s) (adv_param s) (calls s).
Definition set_current_conn v (s : t) : t :=
  mk (initialized s) (current_state s) (user_callbacks s) (device_name s) v
     (adv_work s) (ad_data s) (sd_data s) (adv_param s) (calls s).
Definition set_adv_work v (s : t) : t :=
  mk (initialized s) (current_state s) (user_callbacks s) (device_name s)
     (current_conn s) v (ad_data s) (sd_data s) (adv_param s) (calls s).
Definition set_adv_data ad sd (s : t) : t :=
  mk (initialized s) (current_state s) (user_callbacks s) (device_name s)
     (current_conn s) (adv_work s) ad sd (adv_param s) (calls s).
Definition set_adv_param v (s : t) : t :=
  mk (initialized s) (current_state s) (user_callbacks s) (device_name s)
     (current_conn s) (adv_work s) (ad_data s) (sd_data s) v (calls s).
Definition do_call k (s : t) : t :=
  mk (initialized s) (current_state s) (user_callbacks s) (device_name s)
     (current_conn s) (adv_work s) (ad_data s) (sd_data s) (adv_param s)
     (k :: calls s).

(** [k_work_submit(&adv_work)]: immediate, and idempotent while the
    item waits. *)
Definition k_work_submit (s : t) : t := set_adv_work true s.

(** Run an optional callback. *)
Definition notify (cb : option (A -> A)) (a : A) : A :=
  match cb with Some f => f a | None => a end.

(** [on_connected]; [info] is what [bt_conn_get_info] yields
    ([None] when it fails). *)
Definition on_connected (conn : bt_conn) (err : Z)
           (info : option bt_conn_le_info) (w : t * A) : t * A :=
  let '(s, a) := w in
  if negb (err =? 0) then (k_work_submit s, a)
  else
    let s := match current_conn s with
             | Some c => do_call (bt_conn_unref c) s
             | None => s
             end in
    let s := set_current_conn (Some conn) (do_call (bt_conn_ref conn) s) in
    let s := set_current_state HAL_BLE_STATE_CONNECTED s in
    match connected (user_callbacks s) with
    | Some cb =>
        let conn_info :=
          match info with
          | Some i => mk_conn_info (u16 (interval i * 1250 ÷ 1000))
                                   (latency i)
                                   (u16 (timeout i * 10))
          | None => mk_conn_info 0 0 0
          end in
        (s, cb conn_info a)
    | None => (s, a)
    end.

(** [on_disconnected] *)
Definition on_disconnected (conn : bt_conn) (reason : Z) (w : t * A) : t * A :=
  let '(s, a) := w in
  let s := match current_conn s with
           | Some c => set_current_conn None (do_call (bt_conn_unref c) s)
           | None => s
           end in
  let s := set_current_state HAL_BLE_STATE_READY s in
  match disconnected (user_callbacks s) with
  | Some cb => (s, cb reason a)
  | None => (s, a)
  end.

(** [on_recycled] *)
Definition on_recycled (w : t * A) : t * A :=
  let '(s, a) := w in (k_work_submit s, a).

(** The parameters [adv_work_handler] falls back to. *)
Definition default_adv_param : bt_le_adv_param :=
  mk_adv_param 0 0 0 [BT_LE_ADV_OPT_CONN; BT_LE_ADV_OPT_USE_IDENTITY]
               (MS_TO_BLE_UNITS DEFAULT_ADV_INTERVAL_MIN_MS)
               (MS_TO_BLE_UNITS DEFAULT_ADV_INTERVAL_MAX_MS).

(** [adv_work_handler]; [start_ret] is what [bt_le_adv_start]
    returns. *)
Definition adv_work_handler (start_ret : Z) (w : t * A) : t * A :=
  let '(s, a) := w in
  if state_eqb (current_state s) HAL_BLE_STATE_CONNECTED then (s, a)
  else
    let param := match adv_param s with
                 | Some p => p
                 | None => default_adv_param
                 end in
    let s := do_call (bt_le_adv_start param (ad_data s) (sd_data s)) s in
    if negb (start_ret =? 0) then (s, a)
    else
      let s := set_current_state HAL_BLE_STATE_ADVERTISING s in
      (s, notify (adv_started (user_callbacks s)) a).

(** The system work queue takes [adv_work] out and runs it. *)
Definition run_adv_work (start_ret : Z) (w : t * A) : t * A :=
  let '(s, a) := w in
  if adv_work s then adv_work_handler start_ret (set_adv_work false s, a)
  else w.

(** [strncpy(device_name, src, MAX_DEVICE_NAME_LEN)] followed by the
    terminating NUL at index [MAX_DEVICE_NAME_LEN]. *)
Definition strncpy_name (src : string) : string :=
  substring 0 MAX_DEVICE_NAME_LEN src.

(** [prepare_adv_data] *)
Definition prepare_adv_data (s : t) : t :=
  let name_len := Z.of_nat (String.length (device_name s)) in
  let ad := [BT_DATA_FLAGS true true] in
  let ad := if 0 <? name_len
            then ad ++ [BT_DATA_NAME_COMPLETE name_len (device_name s)]
            else ad in
  set_adv_data ad [BT_DATA_UUID128_ALL 16] s.

(** [hal_ble_init]; [device_name_param] is [None] for a [NULL]
    pointer, [enable_ret] is what [bt_enable] returns. *)
Definition hal_ble_init (device_name_param : option string)
           (callbacks : option hal_ble_callbacks_t) (enable_ret : Z)
           (s : t) : Z * t :=
  if initialized s then (HAL_BLE_SUCCESS, s)
  else
    match device_name_param with
    | None => (HAL_BLE_ERROR_INVALID, s)
    | Some name =>
        if (MAX_DEVICE_NAME_LEN <? String.length name)%nat
        then (HAL_BLE_ERROR_INVALID, s)
        else
          let s := set_device_name (strncpy_name name) s in
          let s := match callbacks with
                   | Some cbs => set_user_callbacks cbs s
                   | None => s
                   end in
          let s := do_call bt_enable s in
          if negb (enable_ret =? 0) then (HAL_BLE_ERROR_INIT, s)
          else
            let s := do_call bt_conn_cb_register s in
            let s := prepare_adv_data s in
            let s := set_adv_work false s in
            let s := set_current_state HAL_BLE_STATE_READY s in
            (HAL_BLE_SUCCESS, set_initialized true s)
    end.

(** The range check of [hal_ble_start_advertising]. *)
Definition adv_params_invalid (p : hal_ble_adv_params_t) : bool :=
  (interval_min_ms p <? ADV_INTERVAL_MIN_MS) ||
  (ADV_INTERVAL_MAX_MS <? interval_min_ms p) ||
  (interval_max_ms p <? ADV_INTERVAL_MIN_MS) ||
  (ADV_INTERVAL_MAX_MS <? interval_max_ms p) ||
  (interval_max_ms p <? interval_min_ms p).

(** [hal_ble_start_advertising]; [None] is a [NULL] parameter. *)
Definition hal_ble_start_advertising (adv_params : option hal_ble_adv_params_t)
           (s : t) : Z * t :=
  if negb (initialized s) then (HAL_BLE_ERROR_STATE, s)
  else if state_eqb (current_state s) HAL_BLE_STATE_CONNECTED
  then (HAL_BLE_ERROR_STATE, s)
  else if state_eqb (current_state s) HAL_BLE_STATE_ADVERTISING
  then (HAL_BLE_SUCCESS, s)
  else
    match adv_params with
    | Some p =>
        if adv_params_invalid p then (HAL_BLE_ERROR_INVALID, s)
        else
          let options :=
            (if connectable p then [BT_LE_ADV_OPT_CONN] else []) ++
            (if use_identity p then [BT_LE_ADV_OPT_USE_IDENTITY] else []) in
          let storage :=
            mk_adv_param 0 0 0 options
                         (u32 (MS_TO_BLE_UNITS (interval_min_ms p)))
                         (u32 (MS_TO_BLE_UNITS (interval_max_ms p))) in
          (HAL_BLE_SUCCESS, k_work_submit (set_adv_param (Some storage) s))
    | None =>
        (HAL_BLE_SUCCESS, k_work_submit (set_adv_param None s))
    end.

(** [hal_ble_stop_advertising]; [stop_ret] is what [bt_le_adv_stop]
    returns. *)
Definition hal_ble_stop_advertising (stop_ret : Z) (w : t * A) : Z * (t * A) :=
  let '(s, a) := w in
  if negb (initialized s) then (HAL_BLE_ERROR_STATE, w)
  else if negb (state_eqb (current_state s) HAL_BLE_STATE_ADVERTISING)
  then (HAL_BLE_ERROR_STATE, w)
  else
    let s := do_call bt_le_adv_stop s in
    if negb (stop_ret =? 0) then (HAL_BLE_ERROR_FAILED, (s, a))
    else
      let s := set_current_state HAL_BLE_STATE_READY s in
      (HAL_BLE_SUCCESS, (s, notify (adv_stopped (user_callbacks s)) a)).

(** [hal_ble_disconnect]; [disc_ret] is what [bt_conn_disconnect]
    returns. *)
Definition hal_ble_disconnect (disc_ret : Z) (s : t) : Z * t :=
  if negb (initialized s) then (HAL_BLE_ERROR_STATE, s)
  else
    match current_conn s with
    | None => (HAL_BLE_ERROR_NOT_CONNECTED, s)
    | Some c =>
        let s := do_call (bt_conn_disconnect c) s in
        if negb (disc_ret =? 0) then (HAL_BLE_ERROR_FAILED, s)
        else (HAL_BLE_SUCCESS, s)
    end.

(** Every registered callback keeps the property [P] of the
    application. *)
Definition callbacks_keep (P : A -> Prop) (cbs : hal_ble_callbacks_t) : Prop :=
  (forall f i a, connected cbs = Some f -> P a -> P (f i a)) /\
  (forall f r a, disconnected cbs = Some f -> P a -> P (f r a)) /\
  (forall f a, adv_started cbs = Some f -> P a -> P (f a)) /\
  (forall f a, adv_stopped cbs = Some f -> P a -> P (f a)).

(** [hal_ble_get_state] and [hal_ble_is_connected] *)
Definition hal_ble_get_state (s : t) : hal_ble_state_t := current_state s.

Definition hal_ble_is_connected (s : t) : bool :=
  state_eqb (current_state s) HAL_BLE_STATE_CONNECTED &&
  match current_conn s with Some _ => true | None => false end.

(** The [hal_ble_conn_info_t] that [on_connected] hands to the
    application. *)
Definition conn_info_of (info : option bt_conn_le_info) : hal_ble_conn_info_t :=
  match info with
  | Some i => mk_conn_info (u16 (interval i * 1250 ÷ 1000))
                           (latency i)
                           (u16 (timeout i * 10))
  | None => mk_conn_info 0 0 0
  end.

(** What can happen to the manager: a call of its API, a link event
    or a turn of the system work queue.  The host delivers link events
    to the callbacks that [hal_ble_init] registered, so none arrives
    before the module is initialised. *)
Inductive op :=
| op_init (name : option string) (callbacks : option hal_ble_callbacks_t)
          (enable_ret : Z)
| op_start_advertising (adv_params : option hal_ble_adv_params_t)
| op_stop_advertising (stop_ret : Z)
| op_disconnect (disc_ret : Z)
| op_connected (conn : bt_conn) (err : Z) (info : option bt_conn_le_info)
| op_disconnected (conn : bt_conn) (reason : Z)
| op_recycled
| op_adv_work (start_ret : Z).

Definition exec (o : op) (w : t * A) : t * A :=
  match o with
  | op_init name callbacks enable_ret =>
      (snd (hal_ble_init name callbacks enable_ret (fst w)), snd w)
  | op_start_advertising adv_params =>
      (snd (hal_ble_start_advertising adv_params (fst w)), snd w)
  | op_stop_advertising stop_ret => snd (hal_ble_stop_advertising stop_ret w)
  | op_disconnect disc_ret => (snd (hal_ble_disconnect disc_ret (fst w)), snd w)
  | op_connected conn err info =>
      if initialized (fst w) then on_connected conn err info w else w
  | op_disconnected conn reason =>
      if initialized (fst w) then on_disconnected conn reason w else w
  | op_recycled => if initialized (fst w) then on_recycled w else w
  | op_adv_work start_ret => run_adv_work start_ret w
  end.

Inductive reachable : t * A -> Prop :=
| reach_initial a : reachable (initial, a)
| reach_exec o w : reachable w -> reachable (exec o w).

(** What the manager keeps from power-on: Idle exactly while
    uninitialised, a connection held exactly while Connected, work
    queued only once initialised, and for every connection as many
    references taken as released, plus the one held. *)
Definition coherent (s : t) : Prop :=
  (initialized s = false <-> current_state s = HAL_BLE_STATE_IDLE) /\
  (current_conn s <> None <-> current_state s = HAL_BLE_STATE_CONNECTED) /\
  (adv_work s = true -> initialized s = true) /\
  (forall c, refs c (calls s)
             = (unrefs c (calls s) + if holds c (current_conn s) then 1 else 0)%nat).

End WithApplication.

Arguments hal_ble_callbacks_t : clear implicits.
Arguments t : clear implicits.

End Ble.

(* ===================================================================== *)
(** * gatt/battery_service.c *)
(* ===================================================================== *)

Module BatteryService.
Import CInt Bt.

Section WithApplication.

Context {A : Type}.

(** [struct gatt_battery_service_cb] *)
Record gatt_battery_service_cb := mk_cb {
  battery_read_cb : option (Z -> A -> A)
}.

(** The file's globals; [calls] as in [Ble.t]. *)
Record t := mk {
  app_callbacks : option gatt_battery_service_cb;
  battery_level : Z;              (* uint8_t *)
  battery_voltage : Z;            (* uint16_t *)
  battery_state : Z;              (* uint8_t *)
  current_conn : option bt_conn;
  notify_enabled : bool;
  calls : list call
}.

Definition initial : t := mk None 0 0 0 None false [].

Definition set_level v (s : t) : t :=
  mk (app_callbacks s) v (battery_voltage s) (battery_state s)
     (current_conn s) (notify_enabled s) (calls s).
Definition set_voltage v (s : t) : t :=
  mk (app_callbacks s) (battery_level s) v (battery_state s)
     (current_conn s) (notify_enabled s) (calls s).
Definition set_state v (s : t) : t :=
  mk (app_callbacks s) (battery_level s) (battery_voltage s) v
     (current_conn s) (notify_enabled s) (calls s).
Definition set_current_conn v (s : t) : t :=
  mk (app_callbacks s) (battery_level s) (battery_voltage s) (battery_state s)
     v (notify_enabled s) (calls s).
Definition set_notify_enabled v (s : t) : t :=
  mk (app_callbacks s) (battery_level s) (battery_voltage s) (battery_state s)
     (current_conn s) v (calls s).
Definition set_app_callbacks v (s : t) : t :=
  mk v (battery_level s) (battery_voltage s) (battery_state s)
     (current_conn s) (notify_enabled s) (calls s).
Definition do_call k (s : t) : t :=
  mk (app_callbacks s) (battery_level s) (battery_voltage s) (battery_state s)
     (current_conn s) (notify_enabled s) (k :: calls s).

(** The service together with the gauge it reads and the
    application its callback acts on. *)
Definition world : Type := t * Battery.t * A.

(** [read_battery_level]: the value handed to [bt_gatt_attr_read]. *)
Definition read_battery_level (reads : list Battery.adc_result) (w : world)
  : Z * world :=
  let '(s, bat, a) := w in
  match Battery.hal_battery_get_info bat reads with
  | (inr info, bat) =>
      let s := set_level (Battery.percentage info) s in
      let a := match app_callbacks s with
               | Some cbs =>
                   match battery_read_cb cbs with
                   | Some cb => cb (battery_level s) a
                   | None => a
                   end
               | None => a
               end in
      (battery_level s, (s, bat, a))
  | (inl _, bat) => (battery_level s, (s, bat, a))
  end.

(** [read_battery_voltage] *)
Definition read_battery_voltage (reads : list Battery.adc_result) (w : world)
  : Z * world :=
  let '(s, bat, a) := w in
  match Battery.hal_battery_get_info bat reads with
  | (inr info, bat) =>
      let s := set_voltage (Battery.voltage_mv info) s in
      (battery_voltage s, (s, bat, a))
  | (inl _, bat) => (battery_voltage s, (s, bat, a))
  end.

(** [read_battery_state] *)
Definition read_battery_state (reads : list Battery.adc_result) (w : world)
  : Z * world :=
  let '(s, bat, a) := w in
  match Battery.hal_battery_get_info bat reads with
  | (inr info, bat) =>
      let s := set_state (u8 (Battery.state_code (Battery.state info))) s in
      (battery_state s, (s, bat, a))
  | (inl _, bat) => (battery_state s, (s, bat, a))
  end.

(** [battery_level_ccc_changed] *)
Definition battery_level_ccc_changed (value : Z) (s : t) : t :=
  set_notify_enabled (value =? BT_GATT_CCC_NOTIFY) s.

(** [connected_cb] *)
Definition connected_cb (conn : bt_conn) (err : Z) (s : t) : t :=
  if negb (err =? 0) then s
  else
    let s := match current_conn s with
             | Some c => do_call (bt_conn_unref c) s
             | None => s
             end in
    set_current_conn (Some conn) (do_call (bt_conn_ref conn) s).

(** [disconnected_cb] *)
Definition disconnected_cb (conn : bt_conn) (reason : Z) (s : t) : t :=
  let s := match current_conn s with
           | Some c => set_current_conn None (do_call (bt_conn_unref c) s)
           | None => s
           end in
  set_notify_enabled false s.

(** [gatt_battery_service_init] *)
Definition gatt_battery_service_init
           (callbacks : option gatt_battery_service_cb)
           (reads : list Battery.adc_result) (s : t) (bat : Battery.t)
  : Z * (t * Battery.t) :=
  let s := set_app_callbacks callbacks s in
  match Battery.hal_battery_get_info bat reads with
  | (inr info, bat) =>
      let s := set_level (Battery.percentage info) s in
      let s := set_voltage (Battery.voltage_mv info) s in
      let s := set_state (u8 (Battery.state_code (Battery.state info))) s in
      (0, (s, bat))
  | (inl _, bat) => (0, (s, bat))
  end.

(** [gatt_battery_service_notify]; [notify_ret] is what
    [bt_gatt_notify] returns. *)
Definition gatt_battery_service_notify (percentage : Z) (notify_ret : Z)
           (s : t) : Z * t :=
  match current_conn s with
  | None => (- ENOTCONN, s)
  | Some c =>
      if negb (notify_enabled s) then (- EACCES, s)
      else
        let s := set_level percentage s in
        let s := do_call (bt_gatt_notify c (battery_level s)) s in
        if negb (notify_ret =? 0) then (notify_ret, s) else (0, s)
  end.

(** [gatt_battery_service_update] *)
Definition gatt_battery_service_update (percentage : Z) (s : t) : Z * t :=
  (0, set_level percentage s).

End WithApplication.

Arguments gatt_battery_service_cb : clear implicits.
Arguments t : clear implicits.
Arguments world : clear implicits.

End BatteryService.

(* ===================================================================== *)
(** * gatt/buzzer_service.c *)
(* ===================================================================== *)

Module BuzzerService.
Import CInt Bt.

Section WithApplication.

Context {A : Type}.

(** [struct gatt_buzzer_service_cb] *)
Record gatt_buzzer_service_cb := mk_cb {
  buzzer_intermittent_cb : option (bool -> A -> A)
}.

(** The file's only global. *)
Record t := mk { buzzer_cb : gatt_buzzer_service_cb }.

Definition initial : t := mk (mk_cb None).

(** [write_buzzer_intermittent]: [buf] holds the [len] bytes
    received ([len] is a [uint16_t], the host hands over no more
    than that many); the result is the [ssize_t] handed back. *)
Definition write_buzzer_intermittent (buf : list byte) (offset : Z) (w : t * A)
  : Z * A :=
  let '(s, a) := w in
  let len := Z.of_nat (List.length buf) in
  if negb (len =? 1) then (BT_GATT_ERR BT_ATT_ERR_INVALID_ATTRIBUTE_LEN, a)
  else if negb (offset =? 0) then (BT_GATT_ERR BT_ATT_ERR_INVALID_OFFSET, a)
  else
    match buzzer_intermittent_cb (buzzer_cb s) with
    | Some cb =>
        let val := Z.of_N (Byte.to_N (nth 0 buf x00)) in
        if (val =? 0) || (val =? 1)
        then (len, cb (negb (val =? 0)) a)
        else (BT_GATT_ERR BT_ATT_ERR_VALUE_NOT_ALLOWED, a)
    | None => (len, a)
    end.

(** [gatt_buzzer_service_init] *)
Definition gatt_buzzer_service_init (callbacks : option gatt_buzzer_service_cb)
           (s : t) : Z * t :=
  match callbacks with
  | Some cbs => (0, mk (mk_cb (buzzer_intermittent_cb cbs)))
  | None => (0, s)
  end.

End WithApplication.

Arguments gatt_buzzer_service_cb : clear implicits.
Arguments t : clear implicits.

End BuzzerService.

(* ===================================================================== *)
(** * main.c *)
(* ===================================================================== *)

Module Main.
Import Bt.

(** What the application callbacks act on: the buzzer engine and the
    two status LEDs. *)
Record app := mk_app {
  buzzer : Buzzer.t;
  led_verde : bool;
  led_azul : bool
}.

Definition with_buzzer b (a : app) : app := mk_app b (led_verde a) (led_azul a).
Definition with_led_verde v (a : app) : app := mk_app (buzzer a) v (led_azul a).
Definition with_led_azul v (a : app) : app := mk_app (buzzer a) (led_verde a) v.

(** [on_ble_connected] *)
Definition on_ble_connected (conn_info : Ble.hal_ble_conn_info_t) (a : app) : app :=
  with_led_verde true (with_led_azul false a).

(** [on_ble_disconnected] *)
Definition on_ble_disconnected (reason : Z) (a : app) : app :=
  let b := snd (Buzzer.hal_buzzer_set_intermittent false 0 (buzzer a)) in
  with_led_verde false (with_buzzer b a).

(** [on_ble_adv_started] and [on_ble_adv_stopped] *)
Definition on_ble_adv_started (a : app) : app := with_led_azul true a.
Definition on_ble_adv_stopped (a : app) : app := a.

(** [ble_callbacks] *)
Definition ble_callbacks : Ble.hal_ble_callbacks_t app :=
  Ble.mk_callbacks (Some on_ble_connected) (Some on_ble_disconnected)
                   (Some on_ble_adv_started) (Some on_ble_adv_stopped).

(** [on_buzzer_intermittent_write] *)
Definition on_buzzer_intermittent_write (buzzer_state : bool) (a : app) : app :=
  let b := snd (Buzzer.hal_buzzer_set_intermittent
                  buzzer_state Buzzer.HAL_BUZZER_INTENSITY_MEDIUM (buzzer a)) in
  with_buzzer b a.

(** [buzzer_callbacks] *)
Definition buzzer_callbacks : BuzzerService.gatt_buzzer_service_cb app :=
  BuzzerService.mk_cb (Some on_buzzer_intermittent_write).

(** [on_battery_read] only logs. *)
Definition on_battery_read (percentage : Z) (a : app) : app := a.

(** [battery_callbacks] *)
Definition battery_callbacks : BatteryService.gatt_battery_service_cb app :=
  BatteryService.mk_cb (Some on_battery_read).

(** The whole firmware: every module's globals. *)
Record firmware := mk {
  ble : Ble.t app;
  bas : BatteryService.t app;
  buzzer_svc : BuzzerService.t app;
  battery : Battery.t;
  application : app
}.

Definition power_on : firmware :=
  mk Ble.initial BatteryService.initial BuzzerService.initial Battery.initial
     (mk_app Buzzer.initial false false).

(** What [main] finds when it runs: the answers of the drivers and of
    the host, and the configured device name. *)
Record environment := mk_env {
  led_verde_ready : bool;
  led_azul_ready : bool;
  led_verde_configure : Z;
  led_azul_configure : Z;
  pwm_ready : bool;
  pwm_ret : Z;
  adc_ready : bool;
  adc_setup_ret : Z;
  adc_first : list Battery.adc_result;
  adc_second : list Battery.adc_result;
  adc_third : list Battery.adc_result;
  CONFIG_BT_DEVICE_NAME : string;
  bt_enable_ret : Z
}.

(** The advertising parameters [main] asks for. *)
Definition adv_params : Ble.hal_ble_adv_params_t :=
  Ble.mk_adv_params 500 500 true true.

(** [main] up to its idle loop: [inl (-1)] when it gives up, [inr fw]
    when it reaches [k_sleep(K_FOREVER)] with the globals [fw]. *)
Definition main (env : environment) : Z + firmware :=
  if negb (led_verde_ready env) then inl (-1)
  else if negb (led_azul_ready env) then inl (-1)
  else if negb (led_verde_configure env =? 0) then inl (-1)
  else if negb (led_azul_configure env =? 0) then inl (-1)
  else
    let '(err, bz) := Buzzer.hal_buzzer_init (pwm_ready env) (pwm_ret env)
                                             Buzzer.initial in
    if negb (err =? Buzzer.HAL_BUZZER_SUCCESS) then inl (-1)
    else
      let '(err, bat) := Battery.hal_battery_init Battery.initial (adc_ready env)
                           (adc_setup_ret env) (adc_first env) in
      if negb (err =? Battery.HAL_BATTERY_SUCCESS) then inl (-1)
      else
        let bat := snd (Battery.hal_battery_get_info bat (adc_second env)) in
        let '(err, bl) := Ble.hal_ble_init (Some (CONFIG_BT_DEVICE_NAME env))
                            (Some ble_callbacks) (bt_enable_ret env) Ble.initial in
        if negb (err =? Ble.HAL_BLE_SUCCESS) then inl (-1)
        else
          let '(err, bzs) := BuzzerService.gatt_buzzer_service_init
                               (Some buzzer_callbacks) BuzzerService.initial in
          if negb (err =? 0) then inl (-1)
          else
            let '(err, (bs, bat)) :=
              BatteryService.gatt_battery_service_init
                (Some battery_callbacks) (adc_third env)
                BatteryService.initial bat in
            if negb (err =? 0) then inl (-1)
            else
              let '(err, bl) := Ble.hal_ble_start_advertising (Some adv_params) bl in
              if negb (err =? Ble.HAL_BLE_SUCCESS) then inl (-1)
              else inr (mk bl bs bzs bat (mk_app bz false false)).

(** What reaches the running firmware: link events, GATT requests of
    the connected client, and turns of the work queues.  Each carries
    what the collaborators answer while it is handled. *)
Inductive event :=
| ev_connected (conn : bt_conn) (err : Z) (info : option bt_conn_le_info)
| ev_disconnected (conn : bt_conn) (reason : Z)
| ev_recycled
| ev_adv_work (start_ret : Z)
| ev_pattern_work
| ev_write_buzzer (buf : list byte) (offset : Z)
| ev_read_battery_level (reads : list Battery.adc_result)
| ev_read_battery_voltage (reads : list Battery.adc_result)
| ev_read_battery_state (reads : list Battery.adc_result)
| ev_ccc_changed (value : Z).

Definition with_ble_app (w : Ble.t app * app) (fw : firmware) : firmware :=
  mk (fst w) (bas fw) (buzzer_svc fw) (battery fw) (snd w).
Definition with_bas s (fw : firmware) : firmware :=
  mk (ble fw) s (buzzer_svc fw) (battery fw) (application fw).
Definition with_app a (fw : firmware) : firmware :=
  mk (ble fw) (bas fw) (buzzer_svc fw) (battery fw) a.
Definition with_bas_world (w : BatteryService.world app) (fw : firmware) : firmware :=
  let '(s, bat, a) := w in mk (ble fw) s (buzzer_svc fw) bat a.

(** One event, handled to completion.  A link event goes to the
    callbacks [hal_ble_init] registered and then to those of the
    battery service. *)
Definition step (e : event) (fw : firmware) : firmware :=
  match e with
  | ev_connected conn err info =>
      let fw := with_ble_app
                  (Ble.on_connected conn err info (ble fw, application fw)) fw in
      with_bas (BatteryService.connected_cb conn err (bas fw)) fw
  | ev_disconnected conn reason =>
      let fw := with_ble_app
                  (Ble.on_disconnected conn reason (ble fw, application fw)) fw in
      with_bas (BatteryService.disconnected_cb conn reason (bas fw)) fw
  | ev_recycled =>
      with_ble_app (Ble.on_recycled (ble fw, application fw)) fw
  | ev_adv_work start_ret =>
      with_ble_app (Ble.run_adv_work start_ret (ble fw, application fw)) fw
  | ev_pattern_work =>
      with_app (with_buzzer (Buzzer.run_pattern_work (buzzer (application fw)))
                            (application fw)) fw
  | ev_write_buzzer buf offset =>
      with_app (snd (BuzzerService.write_buzzer_intermittent
                       buf offset (buzzer_svc fw, application fw))) fw
  | ev_read_battery_level reads =>
      with_bas_world (snd (BatteryService.read_battery_level
                             reads (bas fw, battery fw, application fw))) fw
  | ev_read_battery_voltage reads =>
      with_bas_world (snd (BatteryService.read_battery_voltage
                             reads (bas fw, battery fw, application fw))) fw
  | ev_read_battery_state reads =>
      with_bas_world (snd (BatteryService.read_battery_state
                             reads (bas fw, battery fw, application fw))) fw
  | ev_ccc_changed value =>
      with_bas (BatteryService.battery_level_ccc_changed value (bas fw)) fw
  end.

Definition run (es : list event) (fw : firmware) : firmware :=
  fold_left (fun fw e => step e fw) es fw.

(** The states of the running firmware. *)
Inductive reachable : firmware -> Prop :=
| reach_main env fw : main env = inr fw -> reachable fw
| reach_step e fw : reachable fw -> reachable (step e fw).

(** The globals [main] leaves behind in [env] (those of power-on
    when it gives up). *)
Definition booted (env : environment) : firmware :=
  match main env with
  | inr fw => fw
  | inl _ => power_on
  end.

(** An environment in which everything answers well. *)
Definition nominal : environment :=
  mk_env true true 0 0 true 0 true 0
         (repeat (Battery.mk_adc 0 3300) 4)
         (repeat (Battery.mk_adc 0 3300) 4)
         (repeat (Battery.mk_adc 0 3300) 4)
         "Amigo Perto"%string 0.

(** The firmware as [main] leaves it in the nominal environment
    (Ready, advertising work submitted), after that work has run
    (Advertising), and after a client has connected (Connected). *)
Definition fw_ready : firmware := booted nominal.
Definition fw_advertising : firmware := run [ev_adv_work 0] fw_ready.
Definition fw_connected : firmware :=
  run [ev_connected 1%nat 0 None] fw_advertising.

(** What [main] sets up and no event undoes: the callbacks of
    [main.c] are the registered ones, the manager and the buzzer
    engine are initialised. *)
Definition wired (fw : firmware) : Prop :=
  Ble.initialized (ble fw) = true /\
  Ble.user_callbacks (ble fw) = ble_callbacks /\
  BuzzerService.buzzer_cb (buzzer_svc fw) = buzzer_callbacks /\
  BatteryService.app_callbacks (bas fw) = Some battery_callbacks /\
  Buzzer.initialized (buzzer (application fw)) = true.

(** The status LEDs follow the manager, and the battery service holds
    the connection the manager holds. *)
Definition indicators_agree (fw : firmware) : Prop :=
  (led_verde (application fw) = true
   <-> Ble.current_state (ble fw) = Ble.HAL_BLE_STATE_CONNECTED) /\
  (Ble.current_state (ble fw) = Ble.HAL_BLE_STATE_CONNECTED ->
   led_azul (application fw) = false) /\
  (Ble.current_state (ble fw) = Ble.HAL_BLE_STATE_ADVERTISING ->
   led_azul (application fw) = true) /\
  (Ble.current_conn (ble fw) <> None
   <-> Ble.current_state (ble fw) = Ble.HAL_BLE_STATE_CONNECTED) /\
  BatteryService.current_conn (bas fw) = Ble.current_conn (ble fw) /\
  Ble.current_state (ble fw) <> Ble.HAL_BLE_STATE_IDLE.

(** The conditions under which [main] reaches its idle loop. *)
Definition boots (env : environment) : Prop :=
  led_verde_ready env = true /\ led_azul_ready env = true /\
  led_verde_configure env = 0 /\ led_azul_configure env = 0 /\
  pwm_ready env = true /\ 0 <= pwm_ret env /\
  adc_ready env = true /\ 0 <= adc_setup_ret env /\
  (String.length (CONFIG_BT_DEVICE_NAME env) <= 29)%nat /\
  bt_enable_ret env = 0.

(** The manager driven on its own, from power-on, with the callbacks
    of [main.c]. *)
Definition manager_after (ops : list (@Ble.op app)) : Ble.t app * app :=
  fold_left (fun w o => Ble.exec o w) ops (Ble.initial, application power_on).

(** Init, start advertising, a first client connects and leaves, the
    connection object is recycled, advertising restarts and a second
    client connects. *)
Definition session : list (@Ble.op app) :=
  [Ble.op_init (Some "Amigo Perto"%string) (Some ble_callbacks) 0;
   Ble.op_start_advertising (Some adv_params);
   Ble.op_adv_work 0;
   Ble.op_connected 1%nat 0 (Some (mk_le_info 24 0 400));
   Ble.op_disconnected 1%nat 19;
   Ble.op_recycled;
   Ble.op_adv_work 0;
   Ble.op_connected 2%nat 0 None].

End Main.

(* ===================================================================== *)
(** * The specification's formulas *)
(* ===================================================================== *)

Module Spec.

(** The breakpoints of the discharge curve, (mV, %). *)
Definition breakpoints : list (Z * Z) :=
  [(2000, 0); (2200, 10); (2500, 30); (2800, 70); (3000, 100)].

(** Piecewise linear interpolation over a list of breakpoints:
    [y = y0 + (x - x0)(y1 - y0)/(x1 - x0)], cut to an integer, between
    two neighbours; the first value before the first breakpoint and
    the last value from the last breakpoint on. *)
Fixpoint interpolate (pts : list (Z * Z)) (x : Z) : Z :=
  match pts with
  | [] => 0
  | (x0, y0) :: rest =>
      match rest with
      | [] => y0
      | (x1, y1) :: _ =>
          if x <? x0 then y0
          else if x <? x1 then y0 + (x - x0) * (y1 - y0) ÷ (x1 - x0)
          else interpolate rest x
      end
  end.

(** ... clamped to [[0, 100]]. *)
Definition percentage (voltage_mv : Z) : Z :=
  Z.max 0 (Z.min 100 (interpolate breakpoints voltage_mv)).

(** The same curve with its five segments written out. *)
Definition segments (v : Z) : Z :=
  if v <? 2000 then 0
  else if v <? 2200 then (v - 2000) * 10 / 200
  else if v <? 2500 then 10 + (v - 2200) * 20 / 300
  else if v <? 2800 then 30 + (v - 2500) * 40 / 300
  else if v <? 3000 then 70 + (v - 2800) * 30 / 200
  else 100.

(** A sample counts when its acquisition succeeded and its value lies
    in [[0, 2^resolution - 1]]. *)
Definition sample_valid (r : Battery.adc_result) : bool :=
  (0 <=? Battery.adc_ret r) &&
  (0 <=? Battery.adc_raw r) &&
  (Battery.adc_raw r <=? 2 ^ Battery.ADC_RESOLUTION - 1).

Definition valid_samples (reads : list Battery.adc_result) : list Z :=
  map Battery.adc_raw (filter sample_valid reads).

Definition total (l : list Z) : Z := fold_right Z.add 0 l.

(** The integer average of a list of samples. *)
Definition average (l : list Z) : Z := total l / Z.of_nat (List.length l).

(** The integer nearest to [n / d], halves upwards. *)
Definition round (n d : Z) : Z := (2 * n + d) / (2 * d).

(** [round(avg_raw * V_ref / (2^resolution - 1)) * divider_ratio] *)
Definition rounded_voltage_mv (avg_raw : Z) : Z :=
  round (avg_raw * Battery.ADC_VREF_MV) (2 ^ Battery.ADC_RESOLUTION - 1)
  * Battery.BATTERY_DIVIDER_RATIO.

(** The same with the quotient cut instead of rounded. *)
Definition truncated_voltage_mv (avg_raw : Z) : Z :=
  (avg_raw * Battery.ADC_VREF_MV / (2 ^ Battery.ADC_RESOLUTION - 1))
  * Battery.BATTERY_DIVIDER_RATIO.

(** A reading as the specification words it, for either conversion. *)
Definition reading (convert : Z -> Z) (reads : list Battery.adc_result) : Z + Z :=
  match valid_samples reads with
  | [] => inl Battery.HAL_BATTERY_ERROR_READ
  | l => inr (convert (average l))
  end.

End Spec.

(* ===================================================================== *)
(** * Properties of the machine integers *)
(* ===================================================================== *)

Section CIntFacts.
Import CInt.

Lemma s32_small z : - 2 ^ 31 <= z < 2 ^ 31 -> s32 z = z.
Proof.
  unfold s32, to_signed. intros H.
  change (2 ^ (32 - 1)) with 2147483648.
  change (2 ^ 32) with 4294967296.
  change (2 ^ 31) with 2147483648 in H.
  Z.div_mod_to_equations. lia.
Qed.

Lemma s16_small z : - 2 ^ 15 <= z < 2 ^ 15 -> s16 z = z.
Proof.
  unfold s16, to_signed. intros H.
  change (2 ^ (16 - 1)) with 32768.
  change (2 ^ 16) with 65536.
  change (2 ^ 15) with 32768 in H.
  Z.div_mod_to_equations. lia.
Qed.

Lemma u8_small z : 0 <= z < 256 -> u8 z = z.
Proof. intros H. unfold u8, to_unsigned. apply Z.mod_small. exact H. Qed.

Lemma u16_small z : 0 <= z < 65536 -> u16 z = z.
Proof. intros H. unfold u16, to_unsigned. apply Z.mod_small. exact H. Qed.

Lemma u32_small z : 0 <= z < 2 ^ 32 -> u32 z = z.
Proof. intros H. unfold u32, to_unsigned. apply Z.mod_small. exact H. Qed.

Lemma f32_of_u32_small z : z < 2 ^ 24 -> f32_of_u32 z = z.
Proof.
  intros H. unfold f32_of_u32.
  destruct (Z.ltb_spec z (2 ^ 24)); [reflexivity | lia].
Qed.

End CIntFacts.

(* ===================================================================== *)
(** * The battery gauge *)
(* ===================================================================== *)

Section BatteryFacts.
Import CInt Battery.
Import Spec (segments).

(** Inside a segment no [int32_t] operation of [linear_interpolate]
    wraps. *)
Lemma linear_interpolate_exact x x0 y0 x1 y1 :
  0 <= x0 < x1 -> x1 < 65536 -> 0 <= y0 <= y1 -> y1 <= 100 ->
  x0 <= x < x1 ->
  linear_interpolate x x0 y0 x1 y1 = y0 + (x - x0) * (y1 - y0) / (x1 - x0).
Proof.
  intros Hx0 Hx1 Hy0 Hy1 Hx. unfold linear_interpolate.
  destruct (Z.leb_spec x x0) as [Hle | Hlt].
  - assert (x = x0) by lia. subst x.
    replace (x0 - x0) with 0 by lia. rewrite Z.mul_0_l, Z.div_0_l by lia. lia.
  - destruct (Z.leb_spec x1 x); [lia |].
    assert (Hp : 0 <= (x - x0) * (y1 - y0) < 6553600) by nia.
    assert (Hq : 0 <= (x - x0) * (y1 - y0) / (x1 - x0) <= (x - x0) * (y1 - y0)).
    { split.
      - apply Z.div_pos; lia.
      - apply Z.div_le_upper_bound; [lia | nia]. }
    rewrite (s32_small (x - x0)) by lia.
    rewrite (s32_small (y1 - y0)) by lia.
    rewrite (s32_small (x1 - x0)) by lia.
    rewrite (s32_small ((x - x0) * (y1 - y0))) by lia.
    rewrite Z.quot_div_nonneg by lia.
    rewrite (s32_small (_ / _)) by lia.
    apply s32_small. lia.
Qed.

Lemma segments_range v : 0 <= segments v <= 100.
Proof.
  unfold segments.
  repeat match goal with
         | |- context [?a <? ?b] => destruct (Z.ltb_spec a b)
         end; Z.div_mod_to_equations; lia.
Qed.

Lemma segments_monotone v1 v2 : v1 <= v2 -> segments v1 <= segments v2.
Proof.
  intros H. unfold segments.
  repeat match goal with
         | |- context [?a <? ?b] => destruct (Z.ltb_spec a b)
         end; try lia; Z.div_mod_to_equations; lia.
Qed.

Lemma voltage_to_percentage_segments v :
  hal_battery_voltage_to_percentage v = segments v.
Proof.
  assert (Hr := segments_range v). revert Hr.
  unfold hal_battery_voltage_to_percentage, segments,
    BATTERY_VOLTAGE_MAX_MV, BATTERY_VOLTAGE_GOOD_MV, BATTERY_VOLTAGE_LOW_MV,
    BATTERY_VOLTAGE_CRIT_MV, BATTERY_VOLTAGE_MIN_MV.
  destruct (Z.ltb_spec v 2000), (Z.ltb_spec v 2200), (Z.ltb_spec v 2500),
    (Z.ltb_spec v 2800), (Z.ltb_spec v 3000); try lia;
    destruct (Z.leb_spec 3000 v), (Z.leb_spec 2800 v), (Z.leb_spec 2500 v),
      (Z.leb_spec 2200 v), (Z.leb_spec 2000 v); try lia;
    try reflexivity; intros Hr;
    rewrite linear_interpolate_exact by lia;
    change (100 - 70) with 30; change (3000 - 2800) with 200;
    change (70 - 30) with 40; change (2800 - 2500) with 300;
    change (30 - 10) with 20; change (2500 - 2200) with 300;
    change (10 - 0) with 10; change (2200 - 2000) with 200;
    rewrite ?Z.add_0_l in *;
    match goal with
    | |- u8 (if ?c <? 0 then 0 else ?c) = ?r =>
        change c with (if 100 <? r then 100 else r);
        destruct (Z.ltb_spec 100 r); [lia |];
        destruct (Z.ltb_spec r 0); [lia |];
        apply u8_small; lia
    end.
Qed.

Lemma spec_percentage_segments v : Spec.percentage v = segments v.
Proof.
  assert (Hr := segments_range v). revert Hr.
  unfold Spec.percentage, segments. cbn [Spec.interpolate Spec.breakpoints].
  destruct (Z.ltb_spec v 2000), (Z.ltb_spec v 2200), (Z.ltb_spec v 2500),
    (Z.ltb_spec v 2800), (Z.ltb_spec v 3000); try lia; intros Hr;
    change (100 - 70) with 30; change (3000 - 2800) with 200;
    change (70 - 30) with 40; change (2800 - 2500) with 300;
    change (30 - 10) with 20; change (2500 - 2200) with 300;
    change (10 - 0) with 10; change (2200 - 2000) with 200;
    rewrite ?Z.add_0_l in *;
    try rewrite Z.quot_div_nonneg by lia; lia.
Qed.

End BatteryFacts.

Section BatteryGauge.
Import CInt Battery.

(** C1.  [hal_battery_voltage_to_percentage] is the piecewise linear
    interpolation of the specification over the breakpoints
    (2000, 0), (2200, 10), (2500, 30), (2800, 70), (3000, 100), with
    the quotient cut to an integer: it agrees with
    [Spec.percentage] on every input, gives 0 below 2000 mV and 100
    from 3000 mV on, and takes the tabulated values. *)
Theorem voltage_to_percentage_interpolates :
  (forall v, hal_battery_voltage_to_percentage v = Spec.percentage v) /\
  (forall v, v < 2000 -> hal_battery_voltage_to_percentage v = 0) /\
  (forall v, 3000 <= v -> hal_battery_voltage_to_percentage v = 100) /\
  map hal_battery_voltage_to_percentage
      [1999; 2000; 2100; 2200; 2350; 2500; 2650; 2800; 2900; 3000; 3100]
  = [0; 0; 5; 10; 20; 30; 50; 70; 85; 100; 100].
Proof.
  split; [| split; [| split]].
  - intros v. rewrite voltage_to_percentage_segments, spec_percentage_segments.
    reflexivity.
  - intros v Hv. rewrite voltage_to_percentage_segments. unfold Spec.segments.
    destruct (Z.ltb_spec v 2000); [reflexivity | lia].
  - intros v Hv. rewrite voltage_to_percentage_segments. unfold Spec.segments.
    repeat match goal with
           | |- context [?a <? ?b] => destruct (Z.ltb_spec a b); try lia
           end.
  - reflexivity.
Qed.

Lemma voltage_to_percentage_interpolates_witness :
  hal_battery_voltage_to_percentage 1500 = 0 /\
  hal_battery_voltage_to_percentage 3300 = 100.
Proof.
  split.
  - apply (proj1 (proj2 voltage_to_percentage_interpolates) 1500). lia.
  - apply (proj1 (proj2 (proj2 voltage_to_percentage_interpolates)) 3300). lia.
Defined.

(** C9.  [hal_battery_percentage_to_state] answers Good exactly for
    a percentage above 70, Medium exactly for one above 30 and at most
    70, Low exactly for one above 10 and at most 30, and Critical for
    everything else; 70, 30 and 10 belong to the lower tier. *)
Theorem percentage_to_state_tiers (p : Z) :
  (hal_battery_percentage_to_state p = HAL_BATTERY_STATE_GOOD <-> 70 < p) /\
  (hal_battery_percentage_to_state p = HAL_BATTERY_STATE_MEDIUM <-> 30 < p <= 70) /\
  (hal_battery_percentage_to_state p = HAL_BATTERY_STATE_LOW <-> 10 < p <= 30) /\
  (hal_battery_percentage_to_state p = HAL_BATTERY_STATE_CRITICAL <-> p <= 10) /\
  map hal_battery_percentage_to_state [10; 11; 30; 31; 70; 71]
  = [HAL_BATTERY_STATE_CRITICAL; HAL_BATTERY_STATE_LOW;
     HAL_BATTERY_STATE_LOW; HAL_BATTERY_STATE_MEDIUM;
     HAL_BATTERY_STATE_MEDIUM; HAL_BATTERY_STATE_GOOD].
Proof.
  unfold hal_battery_percentage_to_state.
  destruct (Z.ltb_spec 70 p), (Z.ltb_spec 30 p), (Z.ltb_spec 10 p);
    repeat split; intros; try lia; try discriminate; reflexivity.
Qed.

Lemma percentage_to_state_tiers_witness :
  hal_battery_percentage_to_state 70 = HAL_BATTERY_STATE_MEDIUM /\
  hal_battery_percentage_to_state 71 = HAL_BATTERY_STATE_GOOD.
Proof.
  split.
  - apply (proj1 (proj2 (percentage_to_state_tiers 70))). lia.
  - apply (proj1 (percentage_to_state_tiers 71)). lia.
Defined.

(** C10.  The percentage lies in [[0, 100]] for every voltage, grows
    with the voltage, and the state computed from it is never
    Unknown. *)
Theorem voltage_to_percentage_bounded_monotone :
  (forall v, 0 <= hal_battery_voltage_to_percentage v <= 100) /\
  (forall v1 v2, v1 <= v2 ->
     hal_battery_voltage_to_percentage v1 <= hal_battery_voltage_to_percentage v2) /\
  (forall v, hal_battery_percentage_to_state (hal_battery_voltage_to_percentage v)
             <> HAL_BATTERY_STATE_UNKNOWN).
Proof.
  split; [| split].
  - intros v. rewrite voltage_to_percentage_segments. apply segments_range.
  - intros v1 v2 H. rewrite !voltage_to_percentage_segments.
    apply segments_monotone. exact H.
  - intros v. unfold hal_battery_percentage_to_state.
    repeat match goal with
           | |- context [?a <? ?b] => destruct (Z.ltb_spec a b)
           end; discriminate.
Qed.

Lemma voltage_to_percentage_bounded_monotone_witness :
  hal_battery_voltage_to_percentage 2100 <= hal_battery_voltage_to_percentage 2900.
Proof.
  apply (proj1 (proj2 voltage_to_percentage_bounded_monotone) 2100 2900). lia.
Defined.

End BatteryGauge.

Section BatteryReading.
Import CInt Battery.

Lemma sample_step_valid sum n r :
  sample_step (sum, n) r =
  if Spec.sample_valid r then (s32 (sum + adc_raw r), u8 (n + 1)) else (sum, n).
Proof.
  unfold sample_step, Spec.sample_valid, ADC_RESOLUTION.
  change (Z.shiftl 1 12) with 4096. change (2 ^ 12 - 1) with 4095.
  destruct (Z.ltb_spec (adc_ret r) 0), (Z.leb_spec 0 (adc_ret r)); try lia;
    try reflexivity.
  destruct (Z.leb_spec 0 (adc_raw r)); [| reflexivity].
  destruct (Z.ltb_spec (adc_raw r) 4096), (Z.leb_spec (adc_raw r) 4095);
    try lia; reflexivity.
Qed.

Lemma valid_samples_cons r reads :
  Spec.valid_samples (r :: reads) =
  if Spec.sample_valid r then adc_raw r :: Spec.valid_samples reads
  else Spec.valid_samples reads.
Proof.
  unfold Spec.valid_samples. cbn [filter].
  destruct (Spec.sample_valid r); reflexivity.
Qed.

Lemma sample_valid_range r :
  Spec.sample_valid r = true -> 0 <= adc_raw r <= 4095.
Proof.
  unfold Spec.sample_valid, ADC_RESOLUTION. change (2 ^ 12 - 1) with 4095.
  intros H. apply andb_prop in H. destruct H as [H H2].
  apply andb_prop in H. destruct H as [_ H1]. lia.
Qed.

Lemma valid_samples_bounds reads :
  0 <= Spec.total (Spec.valid_samples reads)
    <= 4095 * Z.of_nat (List.length (Spec.valid_samples reads)) /\
  (List.length (Spec.valid_samples reads) <= List.length reads)%nat.
Proof.
  induction reads as [| r reads IH].
  - cbn. lia.
  - rewrite valid_samples_cons.
    destruct (Spec.sample_valid r) eqn:Hr.
    + apply sample_valid_range in Hr.
      cbn [Spec.total fold_right List.length] in *.
      fold (Spec.total (Spec.valid_samples reads)). lia.
    + cbn [List.length]. lia.
Qed.

(** The loop adds up the valid samples and counts them; within
    [ADC_SAMPLES] turns neither the [int32_t] sum nor the [uint8_t]
    counter wraps. *)
Lemma sampling_loop reads : forall sum n,
  0 <= sum -> 0 <= n ->
  sum + 4095 * Z.of_nat (List.length reads) < 2 ^ 31 ->
  n + Z.of_nat (List.length reads) < 256 ->
  fold_left sample_step reads (sum, n) =
  (sum + Spec.total (Spec.valid_samples reads),
   n + Z.of_nat (List.length (Spec.valid_samples reads))).
Proof.
  induction reads as [| r reads IH]; intros sum n Hs Hn Hsum Hcnt.
  - cbn. f_equal; lia.
  - cbn [fold_left]. rewrite sample_step_valid, valid_samples_cons.
    cbn [List.length] in Hsum, Hcnt.
    destruct (Spec.sample_valid r) eqn:Hr.
    + apply sample_valid_range in Hr.
      rewrite s32_small by lia. rewrite u8_small by lia.
      rewrite IH by lia.
      cbn [Spec.total fold_right List.length].
      fold (Spec.total (Spec.valid_samples reads)). f_equal; lia.
    + apply IH; lia.
Qed.

Lemma adc_raw_to_mv_truncates a :
  0 <= a <= 4095 -> adc_raw_to_mv a = Spec.truncated_voltage_mv a.
Proof.
  intros Ha. unfold adc_raw_to_mv, Spec.truncated_voltage_mv,
    ADC_RESOLUTION, ADC_VREF_MV, BATTERY_DIVIDER_RATIO.
  change (Z.shiftl 1 12 - 1) with 4095. change (2 ^ 12 - 1) with 4095.
  assert (Hq : 0 <= a * 3600 / 4095 <= 3600)
    by (Z.div_mod_to_equations; lia).
  rewrite (u32_small 4095) by lia.
  rewrite (u32_small a) by lia.
  rewrite (u32_small (a * 3600)) by lia.
  rewrite Z.quot_div_nonneg by lia.
  rewrite (u32_small (a * 3600 / 4095)) by lia.
  rewrite f32_of_u32_small by lia.
  rewrite !Z.mul_1_r.
  rewrite u32_small by lia. apply u16_small. lia.
Qed.

Lemma read_with_oversampling_truncates r1 r2 r3 r4 :
  adc_read_with_oversampling [r1; r2; r3; r4] =
  match Spec.valid_samples [r1; r2; r3; r4] with
  | [] => inl (- EIO)
  | l => inr (Spec.truncated_voltage_mv (Spec.average l))
  end.
Proof.
  unfold adc_read_with_oversampling. cbn [firstn ADC_SAMPLES].
  rewrite sampling_loop by (cbn; lia).
  destruct (valid_samples_bounds [r1; r2; r3; r4]) as [Ht Hl].
  cbn [List.length] in Hl. rewrite !Z.add_0_l.
  destruct (Spec.valid_samples [r1; r2; r3; r4]) as [| x l] eqn:E.
  - reflexivity.
  - set (n := Z.of_nat (List.length (x :: l))) in *.
    assert (Hn : 0 < n <= 4) by (unfold n; cbn [List.length] in *; lia).
    destruct (Z.eqb_spec n 0); [lia |].
    assert (Hq : 0 <= Spec.total (x :: l) / n <= 4095).
    { split.
      - apply Z.div_pos; lia.
      - apply Z.div_le_upper_bound; lia. }
    rewrite Z.quot_div_nonneg by lia.
    rewrite s16_small by lia.
    rewrite adc_raw_to_mv_truncates by lia. reflexivity.
Qed.

(** C6, as the code has it.  With the gauge initialised, a reading
    takes four samples, keeps those that were acquired and lie in
    [[0, 2^12 - 1]], fails with ReadError exactly when none is kept,
    and otherwise converts their integer average [avg_raw] to
    [avg_raw * 3600 / 4095] with the quotient cut to an integer (not
    rounded), times the divider ratio 1. *)
Theorem reading_truncates (s : t) (r1 r2 r3 r4 : adc_result)
        (Hs : initialized s = true) :
  let reads := [r1; r2; r3; r4] in
  hal_battery_read_voltage s reads = Spec.reading Spec.truncated_voltage_mv reads /\
  (hal_battery_read_voltage s reads = inl HAL_BATTERY_ERROR_READ
   <-> Spec.valid_samples reads = []) /\
  fst (hal_battery_get_info s reads) =
  match Spec.reading Spec.truncated_voltage_mv reads with
  | inl e => inl e
  | inr v =>
      let p := hal_battery_voltage_to_percentage v in
      inr (mk_info v p (hal_battery_percentage_to_state p))
  end.
Proof.
  intros reads.
  assert (E : hal_battery_read_voltage s reads
              = Spec.reading Spec.truncated_voltage_mv reads).
  { unfold hal_battery_read_voltage, Spec.reading, reads. rewrite Hs.
    cbn [negb]. rewrite read_with_oversampling_truncates.
    destruct (Spec.valid_samples [r1; r2; r3; r4]); reflexivity. }
  split; [exact E | split].
  - rewrite E. unfold Spec.reading.
    destruct (Spec.valid_samples reads); split; intros H;
      try reflexivity; discriminate.
  - unfold hal_battery_get_info. rewrite Hs. cbn [negb]. rewrite E.
    destruct (Spec.reading Spec.truncated_voltage_mv reads); reflexivity.
Qed.

Lemma reading_truncates_witness :
  hal_battery_read_voltage (mk true (last_reading initial))
                           (repeat (mk_adc 0 3004) 4) = inr 2640.
Proof.
  apply (proj1 (reading_truncates (mk true (last_reading initial))
                  (mk_adc 0 3004) (mk_adc 0 3004) (mk_adc 0 3004) (mk_adc 0 3004)
                  eq_refl)).
Defined.

(** C6, as the specification words it, fails: four samples of 3004
    average to 3004, and 3004 * 3600 / 4095 = 2640.88; the code
    returns 2640 where rounding gives 2641. *)
Lemma reading_rounds_counterexample :
  let s := mk true (last_reading initial) in
  let reads := repeat (mk_adc 0 3004) 4 in
  initialized s = true /\
  hal_battery_read_voltage s reads = inr 2640 /\
  Spec.reading Spec.rounded_voltage_mv reads = inr 2641 /\
  hal_battery_read_voltage s reads <> Spec.reading Spec.rounded_voltage_mv reads.
Proof.
  cbv zeta. repeat split; try reflexivity.
  vm_compute. discriminate.
Qed.

End BatteryReading.

(* ===================================================================== *)
(** * The buzzer pattern engine *)
(* ===================================================================== *)

Section BuzzerEngine.
Import Buzzer.

Lemma pulse_of_zero : intensity_to_pulse_ns 0 = 0.
Proof. reflexivity. Qed.

Lemma init_keeps_silent dev_ready pwm_ret s :
  silent_when_inactive s ->
  silent_when_inactive (snd (hal_buzzer_init dev_ready pwm_ret s)).
Proof.
  unfold silent_when_inactive, hal_buzzer_init. intros H.
  destruct (initialized s); [exact H |].
  destruct dev_ready; cbn [negb]; [| exact H].
  destruct (pwm_ret <? 0); cbn; intros _; reflexivity.
Qed.

Lemma set_intermittent_keeps_silent active intensity s :
  silent_when_inactive s ->
  silent_when_inactive (snd (hal_buzzer_set_intermittent active intensity s)).
Proof.
  unfold silent_when_inactive, hal_buzzer_set_intermittent. intros H.
  destruct (initialized s); cbn [negb]; [| exact H].
  destruct (100 <? intensity); [exact H |].
  destruct active; cbn [snd].
  - unfold k_work_schedule. cbn.
    destruct (pattern_intermittent_work s); cbn; discriminate.
  - intros _. reflexivity.
Qed.

Lemma handler_keeps_silent s :
  silent_when_inactive (pattern_intermittent_handler s).
Proof.
  unfold silent_when_inactive, pattern_intermittent_handler.
  destruct (pattern_intermittent_active s) eqn:Ha; cbn [negb].
  - unfold k_work_schedule. cbn.
    destruct (negb (state s)); cbn;
      destruct (pattern_intermittent_work s); cbn; congruence.
  - intros _. reflexivity.
Qed.

Lemma work_keeps_silent s :
  silent_when_inactive s -> silent_when_inactive (run_pattern_work s).
Proof.
  unfold run_pattern_work. intros H.
  destruct (pattern_intermittent_work s); [| exact H].
  apply handler_keeps_silent.
Qed.

Lemma reachable_silent s : reachable s -> silent_when_inactive s.
Proof.
  induction 1 as [| o s _ IH].
  - intros _. reflexivity.
  - destruct o; cbn [exec].
    + apply init_keeps_silent, IH.
    + apply set_intermittent_keeps_silent, IH.
    + apply work_keeps_silent, IH.
Qed.

Lemma handler_keeps_initialized s :
  initialized (pattern_intermittent_handler s) = initialized s.
Proof.
  unfold pattern_intermittent_handler, k_work_schedule.
  destruct (pattern_intermittent_active s); cbn; [| reflexivity].
  destruct (negb (state s)); cbn;
    destruct (pattern_intermittent_work s); reflexivity.
Qed.

Lemma work_keeps_initialized s :
  initialized (run_pattern_work s) = initialized s.
Proof.
  unfold run_pattern_work.
  destruct (pattern_intermittent_work s); [| reflexivity].
  rewrite handler_keeps_initialized. reflexivity.
Qed.

Lemma works_keep_initialized n s :
  initialized (Nat.iter n run_pattern_work s) = initialized s.
Proof.
  induction n as [| n IH]; [reflexivity |].
  rewrite Nat.iter_succ, work_keeps_initialized. exact IH.
Qed.

Lemma set_intermittent_keeps_initialized active intensity s :
  initialized (snd (hal_buzzer_set_intermittent active intensity s))
  = initialized s.
Proof.
  unfold hal_buzzer_set_intermittent, k_work_schedule.
  destruct (initialized s) eqn:Hi; cbn [negb]; [| exact Hi].
  destruct (100 <? intensity); [exact Hi |].
  destruct active; cbn; [| exact Hi].
  destruct (pattern_intermittent_work s); exact Hi.
Qed.

(** Deactivating an initialised engine: the work item leaves the
    queue, the PWM goes to 0, everything else stays. *)
Lemma deactivate_initialized s :
  initialized s = true ->
  hal_buzzer_set_intermittent false 0 s =
  (HAL_BUZZER_SUCCESS,
   mk true (current_intensity s) false (state s) None 0).
Proof.
  intros Hi. destruct s as [i ci a st w p]. cbn in Hi. subst i. reflexivity.
Qed.

Lemma idle_queue_runs_nothing n s :
  pattern_intermittent_work s = None -> Nat.iter n run_pattern_work s = s.
Proof.
  intros Hw. induction n as [| n IH]; [reflexivity |].
  rewrite Nat.iter_succ, IH. unfold run_pattern_work. rewrite Hw. reflexivity.
Qed.

(** C5.  In every state the engine reaches from power-on, by any
    calls of its API and any turns of the work queue, the PWM pulse
    is 0 whenever the pattern is inactive.  And on an initialised
    engine, [setIntermittent(true, 50)], any number of 500 ms turns,
    then [setIntermittent(false, 0)]: both calls succeed, the work
    item is cancelled, the pulse is 0, and no later turn of the work
    queue changes anything (the handler itself, were it run, would
    leave the pulse at 0, keep the toggle flag and not re-arm). *)
Theorem buzzer_silent_when_inactive :
  (forall s, reachable s ->
     pattern_intermittent_active s = false -> pwm_pulse_ns s = 0) /\
  (forall s n, initialized s = true ->
     let r1 := hal_buzzer_set_intermittent true 50 s in
     let s2 := Nat.iter n run_pattern_work (snd r1) in
     let r3 := hal_buzzer_set_intermittent false 0 s2 in
     fst r1 = HAL_BUZZER_SUCCESS /\
     pattern_intermittent_active (snd r1) = true /\
     fst r3 = HAL_BUZZER_SUCCESS /\
     pattern_intermittent_active (snd r3) = false /\
     pattern_intermittent_work (snd r3) = None /\
     pwm_pulse_ns (snd r3) = 0 /\
     (forall m, Nat.iter m run_pattern_work (snd r3) = snd r3) /\
     pattern_intermittent_handler (snd r3) = snd r3).
Proof.
  split.
  - intros s Hr. apply reachable_silent. exact Hr.
  - intros s n Hi r1 s2 r3.
    assert (Hi2 : initialized s2 = true).
    { unfold s2, r1.
      rewrite works_keep_initialized, set_intermittent_keeps_initialized.
      exact Hi. }
    assert (E1 : r1 = (HAL_BUZZER_SUCCESS,
                       k_work_schedule K_NO_WAIT
                         (set_active true (set_current_intensity 50 s)))).
    { unfold r1, hal_buzzer_set_intermittent. rewrite Hi. reflexivity. }
    assert (E3 := deactivate_initialized s2 Hi2). fold r3 in E3.
    rewrite E1, E3. cbn [fst snd].
    repeat split.
    + unfold k_work_schedule. cbn.
      destruct (pattern_intermittent_work s); reflexivity.
    + intros m. apply idle_queue_runs_nothing. reflexivity.
Qed.

Lemma buzzer_silent_when_inactive_witness :
  let s := exec (op_init true 0) initial in
  reachable s /\
  pwm_pulse_ns
    (snd (hal_buzzer_set_intermittent false 0
            (Nat.iter 3 run_pattern_work
               (snd (hal_buzzer_set_intermittent true 50 s))))) = 0 /\
  pwm_pulse_ns s = 0.
Proof.
  cbv zeta.
  assert (Hr : reachable (exec (op_init true 0) initial))
    by (apply reach_exec, reach_initial).
  split; [exact Hr | split].
  - apply (proj2 buzzer_silent_when_inactive
             (exec (op_init true 0) initial) 3%nat eq_refl).
  - apply (proj1 buzzer_silent_when_inactive _ Hr). reflexivity.
Defined.

(** The pattern does toggle while active: the first turn after
    activation at 50 % programs a 10 ms pulse and re-arms the work
    for 500 ms, the second programs 0. *)
Example pattern_toggles :
  let s := snd (hal_buzzer_set_intermittent true 50
                  (exec (op_init true 0) initial)) in
  map pwm_pulse_ns
      [s; run_pattern_work s; run_pattern_work (run_pattern_work s)]
  = [0; 10000000; 0] /\
  pattern_intermittent_work (run_pattern_work s) = Some 500.
Proof. split; reflexivity. Qed.

End BuzzerEngine.

(* ===================================================================== *)
(** * The connectivity manager *)
(* ===================================================================== *)

Section ConnectivityManager.
Import Bt Ble.

Context {A : Type}.
Implicit Types (s : Ble.t A) (a : A).

(** C3, as the code has it.  A connect event with a nonzero error
    code submits the advertising work at once, whatever the state and
    however many attempts failed before; it makes no call into the
    host (no reference is taken), leaves the connection slot, the
    application and the manager's state as they were: Ready stays
    Ready, and Advertising stays Advertising. *)
Theorem failed_connect_requeues_advertising s a conn err info
        (Herr : err <> 0) :
  let w := on_connected conn err info (s, a) in
  w = (set_adv_work true s, a) /\
  adv_work (fst w) = true /\
  calls (fst w) = calls s /\
  current_conn (fst w) = current_conn s /\
  current_state (fst w) = current_state s /\
  (current_state s = HAL_BLE_STATE_READY ->
   current_state (fst w) = HAL_BLE_STATE_READY).
Proof.
  intros w.
  assert (E : w = (set_adv_work true s, a)).
  { unfold w, on_connected.
    destruct (Z.eqb_spec err 0); [contradiction | reflexivity]. }
  rewrite E. cbn. repeat split. intros H. exact H.
Qed.

(** C7, as the code has it.  On an initialised manager the state is
    examined before the configuration: while Connected the call fails
    with InvalidState and while Advertising it succeeds, both without
    touching anything, whatever the configuration; in Ready a
    configuration outside 20 <= min <= max <= 10240 fails with
    InvalidArgument, and a valid one succeeds at once by storing the
    parameters and submitting the advertising work; the state is
    still Ready then and becomes Advertising when the work runs and
    the host accepts the start. *)
Theorem start_advertising_by_state s (Hinit : initialized s = true) :
  (forall p, current_state s = HAL_BLE_STATE_READY ->
     20 <= interval_min_ms p <= interval_max_ms p ->
     interval_max_ms p <= 10240 ->
     let r := hal_ble_start_advertising (Some p) s in
     fst r = HAL_BLE_SUCCESS /\
     current_state (snd r) = HAL_BLE_STATE_READY /\
     adv_work (snd r) = true /\
     calls (snd r) = calls s /\
     (forall a, current_state (fst (run_adv_work 0 (snd r, a)))
                = HAL_BLE_STATE_ADVERTISING) /\
     (forall a ret, ret <> 0 ->
        current_state (fst (run_adv_work ret (snd r, a)))
        = HAL_BLE_STATE_READY)) /\
  (forall cfg, current_state s = HAL_BLE_STATE_CONNECTED ->
     hal_ble_start_advertising cfg s = (HAL_BLE_ERROR_STATE, s)) /\
  (forall p, current_state s = HAL_BLE_STATE_READY ->
     (interval_min_ms p < 20 \/ 10240 < interval_min_ms p \/
      interval_max_ms p < 20 \/ 10240 < interval_max_ms p \/
      interval_max_ms p < interval_min_ms p) ->
     hal_ble_start_advertising (Some p) s = (HAL_BLE_ERROR_INVALID, s)) /\
  (forall cfg, current_state s = HAL_BLE_STATE_ADVERTISING ->
     hal_ble_start_advertising cfg s = (HAL_BLE_SUCCESS, s)).
Proof.
  split; [| split; [| split]].
  - intros p Hst Hmin Hmax r.
    assert (Hv : adv_params_invalid p = false).
    { unfold adv_params_invalid, ADV_INTERVAL_MIN_MS, ADV_INTERVAL_MAX_MS.
      repeat match goal with
             | |- context [?x <? ?y] => destruct (Z.ltb_spec x y); try lia
             end;
      try reflexivity. }
    unfold r, hal_ble_start_advertising.
    rewrite Hinit, Hst, Hv. cbn.
    repeat split; try assumption.
    + intros a. rewrite Hst. reflexivity.
    + intros a ret Hret. rewrite Hst. cbn.
      destruct (Z.eqb_spec ret 0); [contradiction | cbn; exact Hst].
  - intros cfg Hst. unfold hal_ble_start_advertising.
    rewrite Hinit, Hst. reflexivity.
  - intros p Hst Hp.
    assert (Hv : adv_params_invalid p = true).
    { unfold adv_params_invalid, ADV_INTERVAL_MIN_MS, ADV_INTERVAL_MAX_MS.
      repeat match goal with
             | |- context [?x <? ?y] => destruct (Z.ltb_spec x y); try lia
             end;
      try reflexivity. }
    unfold hal_ble_start_advertising.
    rewrite Hinit, Hst, Hv. reflexivity.
  - intros cfg Hst. unfold hal_ble_start_advertising.
    rewrite Hinit, Hst. reflexivity.
Qed.

(** A name that fits is copied whole. *)
Lemma strncpy_name_short (name : string) :
  (String.length name <= 29)%nat -> strncpy_name name = name.
Proof.
  unfold strncpy_name, MAX_DEVICE_NAME_LEN. generalize 29%nat as n.
  induction name as [| c name IH]; intros n Hlen.
  - destruct n; reflexivity.
  - destruct n as [| n]; cbn in Hlen; [lia |].
    cbn [substring]. rewrite IH by lia. reflexivity.
Qed.

(** C8, as the code has it.  On an initialised manager [init] changes
    nothing and succeeds.  Otherwise an absent name ([NULL]) and a
    name longer than 29 bytes fail with InvalidArgument and change
    nothing; any other name, the empty one included, goes on to
    enable the link layer: if that fails the call fails with
    InitError, the module stays uninitialised and in its state; if it
    succeeds the call succeeds and the module is initialised and
    Ready. *)
Theorem init_by_name s (callbacks : option (hal_ble_callbacks_t A))
        (enable_ret : Z) :
  (initialized s = true ->
   forall name, hal_ble_init name callbacks enable_ret s = (HAL_BLE_SUCCESS, s)) /\
  (initialized s = false ->
   hal_ble_init None callbacks enable_ret s = (HAL_BLE_ERROR_INVALID, s) /\
   (forall name, (29 < String.length name)%nat ->
      hal_ble_init (Some name) callbacks enable_ret s
      = (HAL_BLE_ERROR_INVALID, s)) /\
   (forall name, (String.length name <= 29)%nat ->
      let r := hal_ble_init (Some name) callbacks enable_ret s in
      (enable_ret <> 0 ->
       fst r = HAL_BLE_ERROR_INIT /\
       initialized (snd r) = false /\
       current_state (snd r) = current_state s) /\
      (enable_ret = 0 ->
       fst r = HAL_BLE_SUCCESS /\
       initialized (snd r) = true /\
       current_state (snd r) = HAL_BLE_STATE_READY /\
       device_name (snd r) = name))).
Proof.
  split.
  - intros Hi name. unfold hal_ble_init. rewrite Hi. reflexivity.
  - intros Hi. unfold hal_ble_init. rewrite Hi.
    split; [reflexivity | split].
    + intros name Hlen. unfold MAX_DEVICE_NAME_LEN.
      destruct (Nat.ltb_spec 29 (String.length name)); [reflexivity | lia].
    + intros name Hlen. unfold MAX_DEVICE_NAME_LEN. cbv zeta.
      destruct (Nat.ltb_spec 29 (String.length name)); [lia |].
      split; intros He.
      * destruct (Z.eqb_spec enable_ret 0); [contradiction |].
        destruct callbacks; cbn; auto.
      * subst enable_ret.
        destruct callbacks; cbn; repeat split;
          apply strncpy_name_short; exact Hlen.
Qed.

(** The link events and the advertising work leave the registration
    alone, and do to the application what its callbacks do. *)
Lemma on_connected_frame conn err info s a :
  initialized (fst (on_connected conn err info (s, a))) = initialized s /\
  user_callbacks (fst (on_connected conn err info (s, a))) = user_callbacks s.
Proof.
  unfold on_connected. destruct (negb (err =? 0)); [split; reflexivity |].
  destruct (current_conn s); cbn;
    destruct (connected (user_callbacks s)); split; reflexivity.
Qed.

Lemma on_disconnected_frame conn reason s a :
  initialized (fst (on_disconnected conn reason (s, a))) = initialized s /\
  user_callbacks (fst (on_disconnected conn reason (s, a))) = user_callbacks s.
Proof.
  unfold on_disconnected.
  destruct (current_conn s); cbn;
    destruct (disconnected (user_callbacks s)); split; reflexivity.
Qed.

Lemma run_adv_work_frame ret s a :
  initialized (fst (run_adv_work ret (s, a))) = initialized s /\
  user_callbacks (fst (run_adv_work ret (s, a))) = user_callbacks s.
Proof.
  unfold run_adv_work, adv_work_handler.
  destruct (adv_work s); [| split; reflexivity]. cbn.
  destruct (state_eqb (current_state s) HAL_BLE_STATE_CONNECTED);
    [split; reflexivity |].
  destruct (negb (ret =? 0)); split; reflexivity.
Qed.

Section Keeping.
Variable P : A -> Prop.

Lemma on_connected_keeps conn err info s a :
  callbacks_keep P (user_callbacks s) -> P a ->
  P (snd (on_connected conn err info (s, a))).
Proof.
  intros (Hc & _) Ha. unfold on_connected.
  destruct (negb (err =? 0)); [exact Ha |].
  destruct (current_conn s); cbn;
    destruct (connected (user_callbacks s)) eqn:E; cbn;
    try exact Ha; eapply Hc; eauto.
Qed.

Lemma on_disconnected_keeps conn reason s a :
  callbacks_keep P (user_callbacks s) -> P a ->
  P (snd (on_disconnected conn reason (s, a))).
Proof.
  intros (_ & Hd & _) Ha. unfold on_disconnected.
  destruct (current_conn s); cbn;
    destruct (disconnected (user_callbacks s)) eqn:E; cbn;
    try exact Ha; eapply Hd; eauto.
Qed.

Lemma run_adv_work_keeps ret s a :
  callbacks_keep P (user_callbacks s) -> P a ->
  P (snd (run_adv_work ret (s, a))).
Proof.
  intros (_ & _ & Hs & _) Ha. unfold run_adv_work, adv_work_handler.
  destruct (adv_work s); [| exact Ha]. cbn.
  destruct (state_eqb (current_state s) HAL_BLE_STATE_CONNECTED);
    [exact Ha |].
  destruct (negb (ret =? 0)); [exact Ha |]. cbn. unfold notify.
  destruct (adv_started (user_callbacks s)) eqn:E;
    [eapply Hs; eauto | exact Ha].
Qed.

End Keeping.

End ConnectivityManager.

Section ConnectivityManagerRuns.
Import Bt Ble.

Import Main (fw_ready, fw_advertising, fw_connected).

Example nominal_boot : Main.main Main.nominal = inr fw_ready.
Proof. reflexivity. Qed.

Example nominal_states :
  map (fun fw => current_state (Main.ble fw))
      [fw_ready; fw_advertising; fw_connected]
  = [HAL_BLE_STATE_READY; HAL_BLE_STATE_ADVERTISING; HAL_BLE_STATE_CONNECTED].
Proof. reflexivity. Qed.

Lemma failed_connect_requeues_advertising_witness :
  adv_work (fst (on_connected 1%nat 62 None
                   (Main.ble fw_advertising, Main.application fw_advertising)))
  = true.
Proof.
  apply (failed_connect_requeues_advertising
           (Main.ble fw_advertising) (Main.application fw_advertising)
           1%nat 62 None).
  lia.
Defined.

(** C3, as the specification words it, fails: a connection attempt
    that fails while the manager is Advertising leaves it
    Advertising, not Ready. *)
Lemma failed_connect_state_counterexample :
  Main.reachable fw_advertising /\
  current_state (Main.ble fw_advertising) = HAL_BLE_STATE_ADVERTISING /\
  62 <> 0 /\
  current_state (Main.ble (Main.step (Main.ev_connected 1%nat 62 None)
                                     fw_advertising))
  = HAL_BLE_STATE_ADVERTISING /\
  current_state (Main.ble (Main.step (Main.ev_connected 1%nat 62 None)
                                     fw_advertising))
  <> HAL_BLE_STATE_READY.
Proof.
  split; [| repeat split; try lia; discriminate].
  apply (Main.reach_step (Main.ev_adv_work 0)).
  apply (Main.reach_main Main.nominal). reflexivity.
Qed.

Lemma start_advertising_by_state_witness :
  fst (hal_ble_start_advertising (Some Main.adv_params) (Main.ble fw_ready))
  = HAL_BLE_SUCCESS /\
  hal_ble_start_advertising (Some (mk_adv_params 10 500 true true))
                            (Main.ble fw_ready)
  = (HAL_BLE_ERROR_INVALID, Main.ble fw_ready) /\
  hal_ble_start_advertising (Some Main.adv_params) (Main.ble fw_connected)
  = (HAL_BLE_ERROR_STATE, Main.ble fw_connected) /\
  hal_ble_start_advertising (Some Main.adv_params) (Main.ble fw_advertising)
  = (HAL_BLE_SUCCESS, Main.ble fw_advertising).
Proof.
  split; [| split; [| split]].
  - apply (proj1 (start_advertising_by_state (Main.ble fw_ready) eq_refl)
             Main.adv_params eq_refl); cbn; lia.
  - apply (proj1 (proj2 (proj2 (start_advertising_by_state
                                  (Main.ble fw_ready) eq_refl)))
             (mk_adv_params 10 500 true true) eq_refl).
    cbn. lia.
  - apply (proj1 (proj2 (start_advertising_by_state
                           (Main.ble fw_connected) eq_refl))
             (Some Main.adv_params) eq_refl).
  - apply (proj2 (proj2 (proj2 (start_advertising_by_state
                                  (Main.ble fw_advertising) eq_refl)))
             (Some Main.adv_params) eq_refl).
Defined.

(** C7, as the specification words it, fails: with an interval of
    10 ms, below the range, the call is a success without effect
    while Advertising and fails with InvalidState while Connected;
    it is InvalidArgument in neither. *)
Lemma start_advertising_invalid_config_counterexample :
  let p := mk_adv_params 10 500 true true in
  interval_min_ms p < 20 /\
  Main.reachable fw_advertising /\
  current_state (Main.ble fw_advertising) = HAL_BLE_STATE_ADVERTISING /\
  hal_ble_start_advertising (Some p) (Main.ble fw_advertising)
  = (HAL_BLE_SUCCESS, Main.ble fw_advertising) /\
  fst (hal_ble_start_advertising (Some p) (Main.ble fw_advertising))
  <> HAL_BLE_ERROR_INVALID /\
  current_state (Main.ble fw_connected) = HAL_BLE_STATE_CONNECTED /\
  fst (hal_ble_start_advertising (Some p) (Main.ble fw_connected))
  = HAL_BLE_ERROR_STATE /\
  fst (hal_ble_start_advertising (Some p) (Main.ble fw_connected))
  <> HAL_BLE_ERROR_INVALID.
Proof.
  cbv zeta. split; [cbn; lia |]. split.
  - apply (Main.reach_step (Main.ev_adv_work 0)).
    apply (Main.reach_main Main.nominal). reflexivity.
  - repeat split; discriminate.
Qed.

Lemma init_by_name_witness :
  fst (hal_ble_init (Some "Amigo Perto"%string) (Some Main.ble_callbacks) 0
                    Ble.initial) = HAL_BLE_SUCCESS /\
  fst (hal_ble_init (Some "Amigo Perto"%string) (Some Main.ble_callbacks) (-5)
                    Ble.initial) = HAL_BLE_ERROR_INIT /\
  hal_ble_init (Some "um nome de dispositivo muito longo"%string)
               (Some Main.ble_callbacks) 0 Ble.initial
  = (HAL_BLE_ERROR_INVALID, Ble.initial) /\
  hal_ble_init None None 0 (Main.ble fw_ready)
  = (HAL_BLE_SUCCESS, Main.ble fw_ready).
Proof.
  split; [| split; [| split]].
  - apply (proj2 (proj2 (proj2 (proj2 (init_by_name Ble.initial
             (Some Main.ble_callbacks) 0) eq_refl))
             "Amigo Perto"%string ltac:(cbn; lia))).
    reflexivity.
  - apply (proj1 (proj2 (proj2 (proj2 (init_by_name Ble.initial
             (Some Main.ble_callbacks) (-5)) eq_refl))
             "Amigo Perto"%string ltac:(cbn; lia))).
    lia.
  - apply (proj1 (proj2 (proj2 (init_by_name Ble.initial
             (Some Main.ble_callbacks) 0) eq_refl))
             "um nome de dispositivo muito longo"%string).
    cbn. lia.
  - apply (proj1 (init_by_name (Main.ble fw_ready) None 0) eq_refl None).
Defined.

(** C8, as the specification words it, fails: the empty name is
    accepted; the manager becomes Ready and advertises without a name
    entry. *)
Lemma init_empty_name_counterexample :
  let r := hal_ble_init (Some EmptyString) (Some Main.ble_callbacks) 0
                        Ble.initial in
  String.length EmptyString = 0%nat /\
  fst r = HAL_BLE_SUCCESS /\
  fst r <> HAL_BLE_ERROR_INVALID /\
  initialized (snd r) = true /\
  current_state (snd r) = HAL_BLE_STATE_READY /\
  ad_data (snd r) = [BT_DATA_FLAGS true true].
Proof. cbv zeta. repeat split. discriminate. Qed.

End ConnectivityManagerRuns.

(* ===================================================================== *)
(** * The assembled firmware *)
(* ===================================================================== *)

Section Firmware.
Import Bt Main.

Lemma buzzer_init_success dev_ready ret s e s' :
  Buzzer.hal_buzzer_init dev_ready ret s = (e, s') ->
  e = Buzzer.HAL_BUZZER_SUCCESS -> Buzzer.initialized s' = true.
Proof.
  unfold Buzzer.hal_buzzer_init. intros H He.
  destruct (Buzzer.initialized s) eqn:Hi.
  - injection H as _ <-. exact Hi.
  - destruct dev_ready; cbn [negb] in H.
    + destruct (ret <? 0); injection H as <- <-;
        [discriminate He | reflexivity].
    + injection H as <- _. discriminate He.
Qed.

Lemma ble_init_success name ret e (bl : Ble.t app) :
  Ble.hal_ble_init (Some name) (Some ble_callbacks) ret Ble.initial = (e, bl) ->
  e = Ble.HAL_BLE_SUCCESS ->
  Ble.initialized bl = true /\ Ble.user_callbacks bl = ble_callbacks.
Proof.
  unfold Ble.hal_ble_init. cbn [Ble.initialized Ble.initial]. intros H He.
  destruct (Nat.ltb _ _).
  - injection H as <- _. discriminate He.
  - cbv zeta in H. destruct (negb (ret =? 0)).
    + injection H as <- _. discriminate He.
    + injection H as _ <-. split; reflexivity.
Qed.

Lemma start_advertising_keeps cfg (s : Ble.t app) :
  Ble.initialized (snd (Ble.hal_ble_start_advertising cfg s)) = Ble.initialized s /\
  Ble.user_callbacks (snd (Ble.hal_ble_start_advertising cfg s))
  = Ble.user_callbacks s.
Proof.
  unfold Ble.hal_ble_start_advertising.
  destruct (negb (Ble.initialized s)); [split; reflexivity |].
  destruct (Ble.state_eqb _ _); [split; reflexivity |].
  destruct (Ble.state_eqb _ _); [split; reflexivity |].
  destruct cfg as [p |]; [| split; reflexivity].
  destruct (Ble.adv_params_invalid p); split; reflexivity.
Qed.

Lemma battery_service_init_callbacks cbs reads s bat :
  BatteryService.app_callbacks
    (fst (snd (BatteryService.gatt_battery_service_init (A := app)
                 cbs reads s bat))) = cbs.
Proof.
  unfold BatteryService.gatt_battery_service_init.
  destruct (Battery.hal_battery_get_info bat reads) as [[e | info] bat'];
    reflexivity.
Qed.

Lemma main_wired env fw : main env = inr fw -> wired fw.
Proof.
  unfold main. intros H.
  repeat match type of H with
         | (if ?c then _ else _) = _ => destruct c eqn:?; [discriminate |]
         | (let '(_, _) := ?e in _) = _ => destruct e eqn:?
         end.
  injection H as <-.
  apply negb_false_iff, Z.eqb_eq in Heqb3, Heqb5.
  destruct (ble_init_success _ _ _ _ Heqp1 Heqb5) as [Hi Hcb].
  destruct (start_advertising_keeps (Some adv_params) t1) as [Hi' Hcb'].
  rewrite Heqp5 in Hi', Hcb'. cbn [snd] in Hi', Hcb'.
  pose proof (battery_service_init_callbacks
                (Some battery_callbacks) (adc_third env) BatteryService.initial
                (snd (Battery.hal_battery_get_info t0 (adc_second env)))) as Hbs.
  rewrite Heqp3 in Hbs. cbn [fst snd] in Hbs.
  injection Heqp2 as _ <-.
  unfold wired. cbn.
  repeat split; try congruence.
  eapply buzzer_init_success; eassumption.
Qed.

(** The callbacks of [main.c] never un-initialise the buzzer. *)
Lemma ble_callbacks_keep_buzzer :
  Ble.callbacks_keep (fun a => Buzzer.initialized (buzzer a) = true)
                     ble_callbacks.
Proof.
  repeat split; cbn; intros f; intros; 
    match goal with H : Some _ = Some f |- _ => injection H as <- end;
    cbn; try assumption.
  rewrite set_intermittent_keeps_initialized. assumption.
Qed.

Lemma bas_connected_callbacks conn err (s : BatteryService.t app) :
  BatteryService.app_callbacks (BatteryService.connected_cb conn err s)
  = BatteryService.app_callbacks s.
Proof.
  unfold BatteryService.connected_cb.
  destruct (negb (err =? 0)); [reflexivity |].
  destruct (BatteryService.current_conn s); reflexivity.
Qed.

Lemma bas_disconnected_callbacks conn reason (s : BatteryService.t app) :
  BatteryService.app_callbacks (BatteryService.disconnected_cb conn reason s)
  = BatteryService.app_callbacks s.
Proof.
  unfold BatteryService.disconnected_cb.
  destruct (BatteryService.current_conn s); reflexivity.
Qed.

(** A write to the buzzer characteristic does to the application what
    [on_buzzer_intermittent_write] does, or nothing. *)
Lemma write_buzzer_application buf offset (s : BuzzerService.t app) a :
  BuzzerService.buzzer_cb s = buzzer_callbacks ->
  snd (BuzzerService.write_buzzer_intermittent buf offset (s, a)) = a \/
  exists b, snd (BuzzerService.write_buzzer_intermittent buf offset (s, a))
            = on_buzzer_intermittent_write b a.
Proof.
  intros Hcb. unfold BuzzerService.write_buzzer_intermittent. rewrite Hcb.
  destruct (negb (_ =? 1)); [left; reflexivity |].
  destruct (negb (offset =? 0)); [left; reflexivity |].
  cbn [BuzzerService.buzzer_intermittent_cb buzzer_callbacks]. cbv zeta.
  destruct (_ || _); [right; eexists; reflexivity | left; reflexivity].
Qed.

(** Reading a battery characteristic leaves everything but the
    service's copies and the gauge's last reading alone. *)
Lemma read_battery_level_frame reads fw :
  BatteryService.app_callbacks (bas fw) = Some battery_callbacks ->
  let fw' := with_bas_world
               (snd (BatteryService.read_battery_level
                       reads (bas fw, battery fw, application fw))) fw in
  ble fw' = ble fw /\ buzzer_svc fw' = buzzer_svc fw /\
  application fw' = application fw /\
  BatteryService.app_callbacks (bas fw') = BatteryService.app_callbacks (bas fw) /\
  BatteryService.notify_enabled (bas fw') = BatteryService.notify_enabled (bas fw).
Proof.
  intros Hcb. unfold BatteryService.read_battery_level.
  destruct (Battery.hal_battery_get_info (battery fw) reads)
    as [[e | info] bat']; cbn; [repeat split |].
  rewrite Hcb. cbn. repeat split.
Qed.

Lemma read_battery_voltage_frame reads fw :
  let fw' := with_bas_world
               (snd (BatteryService.read_battery_voltage
                       reads (bas fw, battery fw, application fw))) fw in
  ble fw' = ble fw /\ buzzer_svc fw' = buzzer_svc fw /\
  application fw' = application fw /\
  BatteryService.app_callbacks (bas fw') = BatteryService.app_callbacks (bas fw) /\
  BatteryService.notify_enabled (bas fw') = BatteryService.notify_enabled (bas fw).
Proof.
  unfold BatteryService.read_battery_voltage.
  destruct (Battery.hal_battery_get_info (battery fw) reads)
    as [[e | info] bat']; cbn; repeat split.
Qed.

Lemma read_battery_state_frame reads fw :
  let fw' := with_bas_world
               (snd (BatteryService.read_battery_state
                       reads (bas fw, battery fw, application fw))) fw in
  ble fw' = ble fw /\ buzzer_svc fw' = buzzer_svc fw /\
  application fw' = application fw /\
  BatteryService.app_callbacks (bas fw') = BatteryService.app_callbacks (bas fw) /\
  BatteryService.notify_enabled (bas fw') = BatteryService.notify_enabled (bas fw).
Proof.
  unfold BatteryService.read_battery_state.
  destruct (Battery.hal_battery_get_info (battery fw) reads)
    as [[e | info] bat']; cbn; repeat split.
Qed.

Lemma step_wired e fw : wired fw -> wired (step e fw).
Proof.
  intros (Hi & Hcb & Hbz & Hbs & Hb).
  pose proof ble_callbacks_keep_buzzer as Hk. rewrite <- Hcb in Hk.
  unfold wired.
  destruct e; cbn [step].
  - cbn [with_ble_app with_bas ble bas buzzer_svc battery application fst snd].
    destruct (on_connected_frame conn err info (ble fw) (application fw))
      as [-> ->].
    rewrite bas_connected_callbacks.
    repeat split; try assumption.
    apply (on_connected_keeps _ conn err info _ _ Hk Hb).
  - cbn [with_ble_app with_bas ble bas buzzer_svc battery application fst snd].
    destruct (on_disconnected_frame conn reason (ble fw) (application fw))
      as [-> ->].
    rewrite bas_disconnected_callbacks.
    repeat split; try assumption.
    apply (on_disconnected_keeps _ conn reason _ _ Hk Hb).
  - cbn. repeat split; assumption.
  - cbn [with_ble_app with_bas ble bas buzzer_svc battery application fst snd].
    destruct (run_adv_work_frame start_ret (ble fw) (application fw))
      as [-> ->].
    repeat split; try assumption.
    apply (run_adv_work_keeps _ start_ret _ _ Hk Hb).
  - cbn. rewrite work_keeps_initialized. repeat split; assumption.
  - cbn [with_app ble bas buzzer_svc battery application].
    repeat split; try assumption.
    destruct (write_buzzer_application buf offset _ (application fw) Hbz)
      as [-> | [b ->]]; [assumption |].
    cbn. rewrite set_intermittent_keeps_initialized. assumption.
  - destruct (read_battery_level_frame reads fw Hbs)
      as (-> & -> & -> & -> & _).
    repeat split; assumption.
  - destruct (read_battery_voltage_frame reads fw)
      as (-> & -> & -> & -> & _).
    repeat split; assumption.
  - destruct (read_battery_state_frame reads fw)
      as (-> & -> & -> & -> & _).
    repeat split; assumption.
  - cbn. repeat split; assumption.
Qed.

Lemma reachable_wired fw : reachable fw -> wired fw.
Proof.
  induction 1 as [env fw H | e fw _ IH].
  - apply (main_wired env). exact H.
  - apply step_wired. exact IH.
Qed.

Lemma byte_value_injective (b c : byte) :
  Z.of_N (Byte.to_N b) = Z.of_N (Byte.to_N c) -> b = c.
Proof.
  intros H. apply N2Z.inj in H.
  assert (E : Some b = Some c)
    by (rewrite <- (Byte.of_to_N b), <- (Byte.of_to_N c), H; reflexivity).
  injection E as ->. reflexivity.
Qed.

(** C2.  In the running firmware a write to the buzzer
    characteristic is answered in this order: a length other than 1
    gives the ATT error InvalidAttributeLength, else an offset other
    than 0 gives InvalidOffset, else a byte other than 0x00 and 0x01
    gives ValueNotAllowed (none of them touches the application);
    else the write returns the length 1 and runs the registered
    callback, [on_buzzer_intermittent_write], with [true] exactly for
    0x01, which calls [hal_buzzer_set_intermittent] with that flag
    and the medium intensity 50 and keeps its result. *)
Theorem buzzer_write_validated fw (Hr : reachable fw)
        (buf : list byte) (offset : Z) :
  let a := application fw in
  let r := BuzzerService.write_buzzer_intermittent
             buf offset (buzzer_svc fw, a) in
  (List.length buf <> 1%nat ->
   r = (BT_GATT_ERR BT_ATT_ERR_INVALID_ATTRIBUTE_LEN, a)) /\
  (List.length buf = 1%nat -> offset <> 0 ->
   r = (BT_GATT_ERR BT_ATT_ERR_INVALID_OFFSET, a)) /\
  (forall b, buf = [b] -> offset = 0 -> b <> x00 -> b <> x01 ->
     r = (BT_GATT_ERR BT_ATT_ERR_VALUE_NOT_ALLOWED, a)) /\
  (forall b, buf = [b] -> offset = 0 -> b = x00 \/ b = x01 ->
     let active := Byte.eqb b x01 in
     let set := Buzzer.hal_buzzer_set_intermittent
                  active Buzzer.HAL_BUZZER_INTENSITY_MEDIUM (buzzer a) in
     r = (1, on_buzzer_intermittent_write active a) /\
     on_buzzer_intermittent_write active a = with_buzzer (snd set) a /\
     Buzzer.HAL_BUZZER_INTENSITY_MEDIUM = 50 /\
     fst set = Buzzer.HAL_BUZZER_SUCCESS /\
     Buzzer.pattern_intermittent_active (snd set) = active).
Proof.
  intros a r.
  destruct (reachable_wired fw Hr) as (_ & _ & Hbz & _ & Hb).
  unfold r, BuzzerService.write_buzzer_intermittent. rewrite Hbz.
  cbn [BuzzerService.buzzer_intermittent_cb buzzer_callbacks]. cbv zeta.
  split; [| split; [| split]].
  - intros Hlen.
    destruct (Z.eqb_spec (Z.of_nat (List.length buf)) 1); [lia | reflexivity].
  - intros Hlen Hoff. rewrite Hlen. cbn.
    destruct (Z.eqb_spec offset 0); [contradiction | reflexivity].
  - intros b -> -> H0 H1. cbn [List.length Z.of_nat nth].
    change (Z.of_nat 1 =? 1) with true. cbn [negb Z.eqb].
    destruct (Z.eqb_spec (Z.of_N (Byte.to_N b)) 0) as [E | _].
    { apply (byte_value_injective b x00) in E. contradiction. }
    destruct (Z.eqb_spec (Z.of_N (Byte.to_N b)) 1) as [E | _].
    { apply (byte_value_injective b x01) in E. contradiction. }
    reflexivity.
  - intros b -> -> Hb01.
    split; [| split; [reflexivity | split; [reflexivity |]]].
    + destruct Hb01 as [-> | ->]; reflexivity.
    + unfold Buzzer.hal_buzzer_set_intermittent, Buzzer.k_work_schedule.
      fold a in Hb. rewrite Hb.
      destruct Hb01 as [-> | ->]; cbn;
        [| destruct (Buzzer.pattern_intermittent_work (buzzer a))];
        split; reflexivity.
Qed.

Lemma buzzer_write_validated_witness :
  BuzzerService.write_buzzer_intermittent
    [x01] 0 (buzzer_svc fw_connected, application fw_connected)
  = (1, on_buzzer_intermittent_write true (application fw_connected)) /\
  fst (BuzzerService.write_buzzer_intermittent
         [x02] 0 (buzzer_svc fw_connected, application fw_connected))
  = -19 /\
  fst (BuzzerService.write_buzzer_intermittent
         [x01] 1 (buzzer_svc fw_connected, application fw_connected))
  = -7 /\
  fst (BuzzerService.write_buzzer_intermittent
         [x01; x00] 0 (buzzer_svc fw_connected, application fw_connected))
  = -13.
Proof.
  assert (Hr : reachable fw_connected).
  { apply (reach_step (ev_connected 1%nat 0 None)).
    apply (reach_step (ev_adv_work 0)).
    apply (reach_main nominal). reflexivity. }
  split; [| split; [| split]].
  - apply (proj2 (proj2 (proj2 (buzzer_write_validated fw_connected Hr
                                  [x01] 0))) x01 eq_refl eq_refl).
    right. reflexivity.
  - rewrite (proj1 (proj2 (proj2 (buzzer_write_validated fw_connected Hr
                                    [x02] 0))) x02 eq_refl eq_refl);
      [reflexivity | discriminate | discriminate].
  - rewrite (proj1 (proj2 (buzzer_write_validated fw_connected Hr [x01] 1))
               eq_refl); [reflexivity | lia].
  - rewrite (proj1 (buzzer_write_validated fw_connected Hr [x01; x00] 0));
      [reflexivity | discriminate].
Defined.

(** Without a registered callback the byte is not examined: the
    guard around the value check lets every one-byte write at offset
    0 succeed. *)
Remark buzzer_write_unregistered (b : byte) (a : app) :
  BuzzerService.write_buzzer_intermittent [b] 0 (BuzzerService.initial, a)
  = (1, a).
Proof. reflexivity. Qed.

Lemma unrefs_cons_same c l :
  unrefs c (bt_conn_unref c :: l) = S (unrefs c l).
Proof. unfold unrefs. cbn. rewrite Nat.eqb_refl. reflexivity. Qed.

(** C4.  In the running firmware a disconnect event, whatever the
    state it arrives in, leaves the manager Ready with its connection
    slot empty, having released the held reference by exactly one
    [bt_conn_unref] (none when the slot was empty already); the
    battery service drops its own reference the same way and its
    notification flag is false; the application callback has called
    [hal_buzzer_set_intermittent(false, 0)], which succeeded, so the
    pattern is inactive, its work cancelled and the PWM at 0. *)
Theorem disconnect_resets fw (Hr : reachable fw) (conn : bt_conn) (reason : Z) :
  let fw' := step (ev_disconnected conn reason) fw in
  let released (held : option bt_conn) :=
    match held with Some c => [bt_conn_unref c] | None => [] end in
  Ble.current_state (ble fw') = Ble.HAL_BLE_STATE_READY /\
  Ble.current_conn (ble fw') = None /\
  Ble.calls (ble fw')
  = released (Ble.current_conn (ble fw)) ++ Ble.calls (ble fw) /\
  (forall c, Ble.current_conn (ble fw) = Some c ->
     unrefs c (Ble.calls (ble fw')) = S (unrefs c (Ble.calls (ble fw)))) /\
  BatteryService.current_conn (bas fw') = None /\
  BatteryService.calls (bas fw')
  = released (BatteryService.current_conn (bas fw))
    ++ BatteryService.calls (bas fw) /\
  BatteryService.notify_enabled (bas fw') = false /\
  application fw' = on_ble_disconnected reason (application fw) /\
  buzzer (application fw')
  = snd (Buzzer.hal_buzzer_set_intermittent false 0 (buzzer (application fw))) /\
  fst (Buzzer.hal_buzzer_set_intermittent false 0 (buzzer (application fw)))
  = Buzzer.HAL_BUZZER_SUCCESS /\
  Buzzer.pattern_intermittent_active (buzzer (application fw')) = false /\
  Buzzer.pattern_intermittent_work (buzzer (application fw')) = None /\
  Buzzer.pwm_pulse_ns (buzzer (application fw')) = 0.
Proof.
  intros fw' released.
  destruct (reachable_wired fw Hr) as (_ & Hcb & _ & _ & Hb).
  assert (Ea : application fw' = on_ble_disconnected reason (application fw)).
  { unfold fw'. cbn [step with_ble_app with_bas application snd].
    unfold Ble.on_disconnected.
    destruct (Ble.current_conn (ble fw)); cbn; rewrite Hcb; reflexivity. }
  assert (Eb : Ble.current_state (ble fw') = Ble.HAL_BLE_STATE_READY /\
               Ble.current_conn (ble fw') = None /\
               Ble.calls (ble fw')
               = released (Ble.current_conn (ble fw)) ++ Ble.calls (ble fw)).
  { unfold fw'. cbn [step with_ble_app with_bas ble fst].
    unfold Ble.on_disconnected.
    destruct (Ble.current_conn (ble fw)) eqn:Ec; cbn; rewrite Hcb; cbn;
      rewrite ?Ec; repeat split. }
  destruct Eb as (Est & Ecc & Ecalls).
  assert (Es : BatteryService.current_conn (bas fw') = None /\
               BatteryService.calls (bas fw')
               = released (BatteryService.current_conn (bas fw))
                 ++ BatteryService.calls (bas fw) /\
               BatteryService.notify_enabled (bas fw') = false).
  { unfold fw'. cbn [step with_bas with_ble_app bas].
    unfold BatteryService.disconnected_cb.
    destruct (BatteryService.current_conn (bas fw)) eqn:Ec; cbn;
      rewrite ?Ec; repeat split. }
  destruct Es as (Escc & Escalls & Esn).
  pose proof (deactivate_initialized _ Hb) as Ed.
  rewrite Ea. unfold on_ble_disconnected. rewrite Ed. cbn [fst snd].
  repeat split; try assumption.
  intros c Hc. rewrite Ecalls, Hc. unfold released. cbn [List.app].
  apply unrefs_cons_same.
Qed.

Lemma disconnect_resets_witness :
  let fw := run [ev_ccc_changed 1; ev_write_buzzer [x01] 0; ev_pattern_work]
                fw_connected in
  (BatteryService.notify_enabled (bas fw) = true /\
   Buzzer.pattern_intermittent_active (buzzer (application fw)) = true /\
   Buzzer.pwm_pulse_ns (buzzer (application fw)) = 10000000 /\
   Ble.current_conn (ble fw) = Some 1%nat) /\
  (BatteryService.notify_enabled (bas (step (ev_disconnected 1%nat 19) fw))
   = false /\
   Buzzer.pwm_pulse_ns
     (buzzer (application (step (ev_disconnected 1%nat 19) fw))) = 0 /\
   Ble.current_state (ble (step (ev_disconnected 1%nat 19) fw))
   = Ble.HAL_BLE_STATE_READY).
Proof.
  cbv zeta. split; [repeat split |].
  assert (Hr : reachable
                 (run [ev_ccc_changed 1; ev_write_buzzer [x01] 0; ev_pattern_work]
                      fw_connected)).
  { repeat apply reach_step. apply (reach_main nominal). reflexivity. }
  pose proof (disconnect_resets _ Hr 1%nat 19) as H. cbv zeta in H.
  repeat split; apply H.
Defined.

End Firmware.

(* ===================================================================== *)
(** * More on the battery gauge *)
(* ===================================================================== *)

Section BatteryGaugeMore.
Import CInt Battery.

Lemma valid_samples_in_range reads x :
  In x (Spec.valid_samples reads) -> 0 <= x <= 4095.
Proof.
  unfold Spec.valid_samples. intros H.
  apply in_map_iff in H. destruct H as (r & <- & Hr).
  apply filter_In in Hr. apply sample_valid_range, Hr.
Qed.

Lemma total_between l lo hi :
  (forall x, In x l -> lo <= x <= hi) ->
  lo * Z.of_nat (List.length l) <= Spec.total l <= hi * Z.of_nat (List.length l).
Proof.
  induction l as [| y l IH]; intros H.
  - cbn. lia.
  - assert (Hy := H y (or_introl eq_refl)).
    assert (Hl := IH (fun x Hx => H x (or_intror Hx))).
    cbn [Spec.total fold_right List.length] in *.
    fold (Spec.total l). lia.
Qed.

Lemma average_between l lo hi :
  l <> [] -> (forall x, In x l -> lo <= x <= hi) -> lo <= Spec.average l <= hi.
Proof.
  intros Hne H. pose proof (total_between l lo hi H) as Ht.
  assert (Hn : 0 < Z.of_nat (List.length l))
    by (destruct l; [contradiction | cbn [List.length]; lia]).
  unfold Spec.average. split.
  - apply Z.div_le_lower_bound; lia.
  - apply Z.div_le_upper_bound; lia.
Qed.

Lemma truncated_voltage_monotone a b :
  a <= b -> Spec.truncated_voltage_mv a <= Spec.truncated_voltage_mv b.
Proof.
  intros H. unfold Spec.truncated_voltage_mv, ADC_RESOLUTION, ADC_VREF_MV,
    BATTERY_DIVIDER_RATIO.
  change (2 ^ 12 - 1) with 4095. rewrite !Z.mul_1_r.
  apply Z.div_le_mono; lia.
Qed.

(** The sampling loop on any list of driver answers: it looks at the
    first four only. *)
Lemma read_with_oversampling_general reads :
  adc_read_with_oversampling reads =
  match Spec.valid_samples (firstn ADC_SAMPLES reads) with
  | [] => inl (- EIO)
  | l => inr (Spec.truncated_voltage_mv (Spec.average l))
  end.
Proof.
  unfold adc_read_with_oversampling.
  assert (Hlen : (List.length (firstn ADC_SAMPLES reads) <= 4)%nat)
    by (rewrite length_firstn; unfold ADC_SAMPLES; lia).
  rewrite sampling_loop by (change (2 ^ 31) with 2147483648; lia).
  destruct (valid_samples_bounds (firstn ADC_SAMPLES reads)) as [Ht Hl].
  rewrite !Z.add_0_l.
  destruct (Spec.valid_samples (firstn ADC_SAMPLES reads)) as [| x l] eqn:E.
  - reflexivity.
  - set (n := Z.of_nat (List.length (x :: l))) in *.
    assert (Hn : 0 < n <= 4) by (unfold n; cbn [List.length] in *; lia).
    destruct (Z.eqb_spec n 0); [lia |].
    assert (Hq : 0 <= Spec.total (x :: l) / n <= 4095).
    { split.
      - apply Z.div_pos; lia.
      - apply Z.div_le_upper_bound; lia. }
    rewrite Z.quot_div_nonneg by lia.
    rewrite s16_small by (change (2 ^ 15) with 32768; lia).
    rewrite adc_raw_to_mv_truncates by lia. reflexivity.
Qed.

(** X1.  Samples that fail or fall outside the range do not bias a
    reading: when every sample kept among the first four lies in
    [[lo, hi]], the voltage read lies between the conversions of [lo]
    and [hi]; so equal kept samples give exactly the conversion of
    that sample, however many were dropped. *)
Theorem reading_between_kept_samples (s : t) (reads : list adc_result)
        (lo hi : Z)
        (Hs : initialized s = true)
        (Hkept : Spec.valid_samples (firstn ADC_SAMPLES reads) <> [])
        (Hrange : forall x, In x (Spec.valid_samples (firstn ADC_SAMPLES reads))
                            -> lo <= x <= hi) :
  exists v, hal_battery_read_voltage s reads = inr v /\
            Spec.truncated_voltage_mv lo <= v <= Spec.truncated_voltage_mv hi.
Proof.
  unfold hal_battery_read_voltage. rewrite Hs. cbn [negb].
  rewrite read_with_oversampling_general.
  pose proof (average_between _ lo hi Hkept Hrange) as Ha.
  destruct (Spec.valid_samples (firstn ADC_SAMPLES reads)) as [| x l];
    [contradiction |].
  eexists. split; [reflexivity |].
  split; apply truncated_voltage_monotone; lia.
Qed.

Lemma reading_between_kept_samples_witness :
  exists v,
    hal_battery_read_voltage
      (mk true (last_reading initial))
      [mk_adc (-5) 0; mk_adc 0 3004; mk_adc 0 5000; mk_adc 0 3004] = inr v /\
    2640 <= v <= 2640.
Proof.
  apply (reading_between_kept_samples
           (mk true (last_reading initial))
           [mk_adc (-5) 0; mk_adc 0 3004; mk_adc 0 5000; mk_adc 0 3004]
           3004 3004 eq_refl).
  - discriminate.
  - intros x Hx. cbn in Hx. destruct Hx as [<- | [<- | []]]; lia.
Defined.

(** What [hal_battery_get_info] answers, in full. *)
Lemma get_info_cases (s : t) (reads : list adc_result) :
  match hal_battery_get_info s reads with
  | (inr i, s') =>
      initialized s = true /\ consistent i /\ s' = mk true i
  | (inl e, s') =>
      s' = s /\
      ((e = HAL_BATTERY_ERROR_STATE /\ initialized s = false) \/
       (e = HAL_BATTERY_ERROR_READ /\ initialized s = true /\
        Spec.valid_samples (firstn ADC_SAMPLES reads) = []))
  end.
Proof.
  unfold hal_battery_get_info, hal_battery_read_voltage.
  destruct (initialized s) eqn:Hi; cbn [negb].
  - rewrite read_with_oversampling_general.
    destruct (Spec.valid_samples (firstn ADC_SAMPLES reads)) as [| x l] eqn:E.
    + split; [reflexivity | right; auto].
    + split; [reflexivity | split; [| reflexivity]].
      assert (Ha : 0 <= Spec.average (x :: l) <= 4095).
      { apply average_between; [discriminate |].
        intros y Hy. rewrite <- E in Hy.
        apply (valid_samples_in_range _ _ Hy). }
      pose proof (truncated_voltage_monotone _ _ (proj1 Ha)) as H0.
      pose proof (truncated_voltage_monotone _ _ (proj2 Ha)) as H1.
      change (Spec.truncated_voltage_mv 0) with 0 in H0.
      change (Spec.truncated_voltage_mv 4095) with 3600 in H1.
      unfold consistent, ADC_VREF_MV. cbn. repeat split; assumption.
  - split; [reflexivity | left; auto].
Qed.

(** X2.  A successful [hal_battery_get_info] returns a voltage of at
    most 3600 mV with the percentage and state computed from it, and
    records exactly that as the last reading; a failed one changes
    nothing, and it fails with NotInitialized before init and with
    ReadError exactly when none of the first four samples is kept. *)
Theorem get_info_consistent (s : t) (reads : list adc_result) :
  (forall i s', hal_battery_get_info s reads = (inr i, s') ->
     initialized s = true /\ consistent i /\ 0 <= percentage i <= 100 /\
     state i <> HAL_BATTERY_STATE_UNKNOWN /\
     last_reading s' = i /\ initialized s' = true) /\
  (forall e s', hal_battery_get_info s reads = (inl e, s') ->
     s' = s /\
     (e = HAL_BATTERY_ERROR_STATE <-> initialized s = false) /\
     (e = HAL_BATTERY_ERROR_READ <->
      initialized s = true /\
      Spec.valid_samples (firstn ADC_SAMPLES reads) = [])).
Proof.
  pose proof (get_info_cases s reads) as H.
  split.
  - intros i s' E. rewrite E in H. destruct H as (Hi & Hc & ->).
    split; [exact Hi | split; [exact Hc |]].
    destruct Hc as (Hv & Hp & Hst).
    split; [| split; [| split; reflexivity]].
    + rewrite Hp, voltage_to_percentage_segments. apply segments_range.
    + rewrite Hst. unfold hal_battery_percentage_to_state.
      repeat match goal with
             | |- context [?a <? ?b] => destruct (Z.ltb_spec a b)
             end; discriminate.
  - intros e s' E. rewrite E in H. destruct H as (-> & H).
    split; [reflexivity |].
    destruct H as [[-> Hi] | (-> & Hi & Hv)]; rewrite Hi;
      split; split; intros H; try discriminate; try tauto;
      destruct H; discriminate.
Qed.

Lemma get_info_consistent_witness :
  consistent (mk_info 2640 48 HAL_BATTERY_STATE_MEDIUM).
Proof.
  apply (proj1 (get_info_consistent (mk true (last_reading initial))
                  (repeat (mk_adc 0 3004) 4))
           (mk_info 2640 48 HAL_BATTERY_STATE_MEDIUM)
           (mk true (mk_info 2640 48 HAL_BATTERY_STATE_MEDIUM))
           eq_refl).
Defined.

(** The state as a function of the voltage. *)
Lemma state_of_voltage (v : Z) :
  let st := hal_battery_percentage_to_state (hal_battery_voltage_to_percentage v) in
  (st = HAL_BATTERY_STATE_GOOD <-> 2807 <= v) /\
  (st = HAL_BATTERY_STATE_MEDIUM <-> 2508 <= v <= 2806) /\
  (st = HAL_BATTERY_STATE_LOW <-> 2215 <= v <= 2507) /\
  (st = HAL_BATTERY_STATE_CRITICAL <-> v <= 2214).
Proof.
  cbv zeta. rewrite voltage_to_percentage_segments.
  unfold hal_battery_percentage_to_state, Spec.segments.
  destruct (Z.ltb_spec v 2000), (Z.ltb_spec v 2200), (Z.ltb_spec v 2500),
    (Z.ltb_spec v 2800), (Z.ltb_spec v 3000); try lia;
    repeat match goal with
           | |- context [?a <? ?b] => destruct (Z.ltb_spec a b)
           end;
    repeat split; intros; try discriminate; try reflexivity;
    Z.div_mod_to_equations; lia.
Qed.

(** X3.  Read through the two conversions, the four states are bands
    of voltage: Critical up to 2214 mV, Low from 2215 to 2507, Medium
    from 2508 to 2806, Good from 2807 mV on. *)
Theorem state_bands_in_millivolts (v : Z) :
  (hal_battery_percentage_to_state (hal_battery_voltage_to_percentage v)
   = HAL_BATTERY_STATE_GOOD <-> 2807 <= v) /\
  (hal_battery_percentage_to_state (hal_battery_voltage_to_percentage v)
   = HAL_BATTERY_STATE_MEDIUM <-> 2508 <= v <= 2806) /\
  (hal_battery_percentage_to_state (hal_battery_voltage_to_percentage v)
   = HAL_BATTERY_STATE_LOW <-> 2215 <= v <= 2507) /\
  (hal_battery_percentage_to_state (hal_battery_voltage_to_percentage v)
   = HAL_BATTERY_STATE_CRITICAL <-> v <= 2214).
Proof. exact (state_of_voltage v). Qed.

Lemma state_bands_in_millivolts_witness :
  hal_battery_percentage_to_state (hal_battery_voltage_to_percentage 2806)
  = HAL_BATTERY_STATE_MEDIUM /\
  hal_battery_percentage_to_state (hal_battery_voltage_to_percentage 2807)
  = HAL_BATTERY_STATE_GOOD.
Proof.
  split.
  - apply (proj1 (proj2 (state_bands_in_millivolts 2806))). lia.
  - apply (proj1 (state_bands_in_millivolts 2807)). lia.
Defined.

(** X4.  [hal_battery_is_critical] answers [true] exactly when the
    gauge is initialised, the reading succeeds and the voltage read is
    at most 2214 mV (a percentage of at most 10); before init and on a
    failed reading it answers [false]. *)
Theorem is_critical_iff (s : t) (reads : list adc_result) :
  fst (hal_battery_is_critical s reads) = true <->
  exists v, hal_battery_read_voltage s reads = inr v /\ v <= 2214.
Proof.
  unfold hal_battery_is_critical, hal_battery_get_info.
  destruct (initialized s) eqn:Hi; cbn [negb].
  - destruct (hal_battery_read_voltage s reads) as [e | v] eqn:E; cbn.
    + split; [discriminate | intros (v & Hv & _); discriminate].
    + pose proof (proj2 (proj2 (proj2 (state_of_voltage v)))) as Hc.
      cbv zeta in Hc.
      destruct (hal_battery_percentage_to_state
                  (hal_battery_voltage_to_percentage v)) eqn:Est; split;
        try discriminate;
        try (intros _; exists v; split; [reflexivity | apply Hc; reflexivity]);
        try (intros (v' & Hv & Hle); injection Hv as <-;
             apply Hc in Hle; discriminate Hle).
      intros _. reflexivity.
  - cbn. unfold hal_battery_read_voltage. rewrite Hi. cbn.
    split; [discriminate | intros (v & Hv & _); discriminate].
Qed.

Lemma is_critical_iff_witness :
  fst (hal_battery_is_critical (mk true (last_reading initial))
                               (repeat (mk_adc 0 2500) 4)) = true.
Proof.
  apply (proj2 (is_critical_iff (mk true (last_reading initial))
                                (repeat (mk_adc 0 2500) 4))).
  exists 2197. split; [reflexivity | lia].
Defined.

(** X5.  [hal_battery_init] on an initialised gauge changes nothing;
    otherwise it fails with InitError, leaving the gauge
    uninitialised, exactly when the ADC is not ready or the channel
    setup is refused, and else succeeds and initialises the gauge even
    when the first reading fails (the last reading then stays as it
    was). *)
Theorem battery_init_cases (s : t) (dev_ready : bool) (setup_ret : Z)
        (reads : list adc_result) :
  let r := hal_battery_init s dev_ready setup_ret reads in
  (initialized s = true -> r = (HAL_BATTERY_SUCCESS, s)) /\
  (initialized s = false ->
   (dev_ready = false \/ setup_ret < 0 -> r = (HAL_BATTERY_ERROR_INIT, s)) /\
   (dev_ready = true -> 0 <= setup_ret ->
    fst r = HAL_BATTERY_SUCCESS /\ initialized (snd r) = true /\
    (Spec.valid_samples (firstn ADC_SAMPLES reads) = [] ->
     last_reading (snd r) = last_reading s) /\
    (Spec.valid_samples (firstn ADC_SAMPLES reads) <> [] ->
     consistent (last_reading (snd r))))).
Proof.
  cbv zeta. unfold hal_battery_init. split.
  - intros ->. reflexivity.
  - intros ->. split.
    + intros [-> | H]; [reflexivity |].
      destruct dev_ready; cbn [negb]; [| reflexivity].
      destruct (Z.ltb_spec setup_ret 0); [reflexivity | lia].
    + intros -> Hret. cbn [negb].
      destruct (Z.ltb_spec setup_ret 0); [lia |]. cbn [fst snd].
      pose proof (get_info_cases (mk true (last_reading s)) reads) as Hg.
      destruct (hal_battery_get_info (mk true (last_reading s)) reads)
        as [[e | i] s'] eqn:E.
      * destruct Hg as (-> & [[_ Hi] | (_ & _ & Hv)]); [discriminate Hi |].
        split; [reflexivity | split; [reflexivity | split]].
        -- intros _. reflexivity.
        -- intros Hne. contradiction.
      * destruct Hg as (_ & Hc & ->).
        split; [reflexivity | split; [reflexivity | split]].
        -- intros Hv. exfalso.
           unfold hal_battery_get_info, hal_battery_read_voltage in E.
           cbn [initialized negb] in E.
           rewrite read_with_oversampling_general, Hv in E.
           discriminate E.
        -- intros _. exact Hc.
Qed.

Lemma battery_init_cases_witness :
  hal_battery_init initial false 0 [] = (HAL_BATTERY_ERROR_INIT, initial) /\
  initialized (snd (hal_battery_init initial true 0 [])) = true.
Proof.
  split.
  - apply (proj1 (proj2 (battery_init_cases initial false 0 []) eq_refl)).
    left. reflexivity.
  - apply (proj2 (proj2 (battery_init_cases initial true 0 []) eq_refl)
             eq_refl).
    lia.
Defined.

Lemma gauge_exec_keeps o s :
  (initialized s = false -> last_reading s = last_reading initial) /\
  (last_reading s = last_reading initial \/ consistent (last_reading s)) ->
  (initialized (exec o s) = false ->
   last_reading (exec o s) = last_reading initial) /\
  (last_reading (exec o s) = last_reading initial \/
   consistent (last_reading (exec o s))).
Proof.
  intros [Hu Hl].
  assert (Hget : forall s0 rd,
             (initialized s0 = false -> last_reading s0 = last_reading initial) ->
             (last_reading s0 = last_reading initial \/
              consistent (last_reading s0)) ->
             let s1 := snd (hal_battery_get_info s0 rd) in
             (initialized s1 = false -> last_reading s1 = last_reading initial) /\
             (last_reading s1 = last_reading initial \/
              consistent (last_reading s1))).
  { intros s0 rd Hu0 Hl0. cbv zeta.
    pose proof (get_info_cases s0 rd) as H.
    destruct (hal_battery_get_info s0 rd) as [[e | i] s1]; cbn [snd].
    - destruct H as (-> & _). split; assumption.
    - destruct H as (_ & Hc & ->). cbn. split; [discriminate | right; exact Hc]. }
  pose proof (Hget s) as Hs. specialize (fun rd => Hs rd Hu Hl).
  destruct o as [dev_ready setup_ret reads | reads | reads]; cbn [exec].
  - unfold hal_battery_init.
    destruct (initialized s) eqn:Hi; cbn [snd];
      [split; [intros E0; congruence | exact Hl] |].
    destruct dev_ready; cbn [negb snd];
      [| split; [intros _; apply Hu; reflexivity | exact Hl]].
    destruct (setup_ret <? 0); cbn [snd];
      [split; [intros _; apply Hu; reflexivity | exact Hl] |].
    apply Hget; cbn; [discriminate | exact Hl].
  - apply Hs.
  - unfold hal_battery_is_critical. specialize (Hs reads). cbv zeta in Hs.
    destruct (negb (initialized s)); cbn [snd].
    + split; assumption.
    + destruct (hal_battery_get_info s reads) as [[e | i] s1]; exact Hs.
Qed.

(** X6.  From power-on, whatever is called and whatever the ADC
    answers, the last reading the gauge keeps is either the initial
    (0 mV, 0 %, Unknown) or a reading whose voltage is at most 3600 mV
    and whose percentage and state are the ones computed from that
    voltage; before init it is the initial one. *)
Theorem last_reading_invariant (s : t) (Hr : reachable s) :
  (initialized s = false -> last_reading s = last_reading initial) /\
  (last_reading s = last_reading initial \/ consistent (last_reading s)).
Proof.
  induction Hr as [| o s _ IH].
  - split; [reflexivity | left; reflexivity].
  - apply gauge_exec_keeps, IH.
Qed.

Lemma last_reading_invariant_witness :
  last_reading (exec (op_get_info (repeat (mk_adc 0 3004) 4))
                     (exec (op_init true 0 []) initial))
  = last_reading initial \/
  consistent (last_reading (exec (op_get_info (repeat (mk_adc 0 3004) 4))
                                 (exec (op_init true 0 []) initial))).
Proof.
  apply (last_reading_invariant
           (exec (op_get_info (repeat (mk_adc 0 3004) 4))
                 (exec (op_init true 0 []) initial))).
  apply reach_exec, reach_exec, reach_initial.
Defined.

End BatteryGaugeMore.

(* ===================================================================== *)
(** * More on the buzzer pattern engine *)
(* ===================================================================== *)

Section BuzzerEngineMore.
Import CInt Buzzer.

Lemma pulse_of_intensity (i : Z) :
  0 <= i < 256 -> intensity_to_pulse_ns i = 200000 * Z.min i 100.
Proof.
  intros Hi. unfold intensity_to_pulse_ns, PWM_PERIOD_NS.
  destruct (Z.ltb_spec 100 i).
  - rewrite Z.min_r by lia. reflexivity.
  - rewrite Z.min_l by lia.
    rewrite u32_small by (change (2 ^ 32) with 4294967296; lia).
    rewrite Z.quot_div_nonneg by lia.
    Z.div_mod_to_equations. lia.
Qed.

(** X7.  The pulse width is proportional to the intensity, 200000 ns
    per percent, and saturates at the 20 ms period from 100 on: for
    every [uint8_t] intensity it is [200000 * min(intensity, 100)], so
    it never exceeds the PWM period and grows with the intensity. *)
Theorem pulse_width_proportional (i j : Z) (Hi : 0 <= i < 256)
        (Hj : 0 <= j < 256) :
  intensity_to_pulse_ns i = 200000 * Z.min i 100 /\
  0 <= intensity_to_pulse_ns i <= PWM_PERIOD_NS /\
  (i <= j -> intensity_to_pulse_ns i <= intensity_to_pulse_ns j) /\
  (intensity_to_pulse_ns i = 0 <-> i = 0).
Proof.
  rewrite !pulse_of_intensity by assumption. unfold PWM_PERIOD_NS. lia.
Qed.

Lemma pulse_width_proportional_witness :
  intensity_to_pulse_ns 25 = 200000 * Z.min 25 100 /\
  intensity_to_pulse_ns 25 <= intensity_to_pulse_ns 255.
Proof.
  split.
  - apply (proj1 (pulse_width_proportional 25 255 ltac:(lia) ltac:(lia))).
  - apply (proj1 (proj2 (proj2 (pulse_width_proportional 25 255
                                   ltac:(lia) ltac:(lia))))).
    lia.
Defined.

Lemma exec_keeps_well_formed o s :
  typed o -> well_formed s -> well_formed (exec o s).
Proof.
  intros Ht (Hu & Ha & Hi & Hp).
  destruct s as [ini ci act st w p].
  unfold well_formed, armed, PWM_PERIOD_NS in *. cbn in Hu, Ha, Hi, Hp.
  destruct o as [dev_ready pwm_ret | active intensity |]; cbn [exec typed] in *.
  - unfold hal_buzzer_init. cbn.
    destruct ini; cbn; [auto |].
    destruct dev_ready; cbn; [| auto].
    destruct (pwm_ret <? 0); cbn; unfold HAL_BUZZER_INTENSITY_MEDIUM;
      repeat split; auto; lia.
  - unfold hal_buzzer_set_intermittent. cbn.
    destruct ini; cbn; [| auto].
    destruct (Z.ltb_spec 100 intensity); cbn; [auto |].
    destruct active; cbn.
    + unfold k_work_schedule. cbn.
      destruct w; cbn; repeat split; auto; try lia; discriminate.
    + repeat split; auto; lia.
  - unfold run_pattern_work. cbn.
    destruct w as [d |]; [| auto].
    unfold pattern_intermittent_handler. cbn. subst act. cbn.
    assert (Hpulse : 0 <= intensity_to_pulse_ns ci <= 20000000)
      by (rewrite pulse_of_intensity; lia).
    destruct st; cbn; repeat split; auto; try lia; discriminate.
Qed.

Lemma run_keeps_well_formed ops : forall s,
  Forall typed ops -> well_formed s -> well_formed (run ops s).
Proof.
  induction ops as [| o ops IH]; intros s Ht Hs; [exact Hs |].
  inversion Ht as [| ? ? Ho Hops]; subst.
  cbn [run fold_left]. apply IH; [exact Hops |].
  apply exec_keeps_well_formed; assumption.
Qed.

Lemma initial_well_formed : well_formed initial.
Proof.
  unfold well_formed, armed, PWM_PERIOD_NS. cbn.
  unfold HAL_BUZZER_INTENSITY_MEDIUM. repeat split; auto; lia.
Qed.

(** X8.  From power-on, through any calls with [uint8_t] intensities
    and any turns of the work queue: the pattern is active exactly
    while its work item waits in the queue (the timer is never armed
    while inactive and never lost while active), an uninitialised
    engine is inactive, the stored intensity stays within 0..100 and
    the pulse within the PWM period. *)
Theorem engine_well_formed (ops : list op) (Ht : Forall typed ops) :
  let s := run ops initial in
  (initialized s = false -> pattern_intermittent_active s = false) /\
  (pattern_intermittent_active s = true <-> pattern_intermittent_work s <> None) /\
  0 <= current_intensity s <= 100 /\
  0 <= pwm_pulse_ns s <= PWM_PERIOD_NS.
Proof.
  cbv zeta.
  destruct (run_keeps_well_formed ops initial Ht initial_well_formed)
    as (Hu & Ha & Hi & Hp).
  repeat split; try assumption; try apply Hi; try apply Hp.
  - intros H. rewrite Ha in H. unfold armed in H.
    destruct (pattern_intermittent_work (run ops initial)); [discriminate |
      discriminate].
  - intros H. rewrite Ha. unfold armed.
    destruct (pattern_intermittent_work (run ops initial));
      [reflexivity | contradiction].
Qed.

Lemma engine_well_formed_witness :
  0 <= pwm_pulse_ns
         (run [op_init true 0; op_set_intermittent true 80; op_work] initial)
    <= PWM_PERIOD_NS.
Proof.
  apply (engine_well_formed
           [op_init true 0; op_set_intermittent true 80; op_work]).
  repeat constructor; cbn; lia.
Defined.

(** One turn of the queue on an active, armed pattern. *)
Lemma active_turn s :
  pattern_intermittent_active s = true ->
  pattern_intermittent_work s <> None ->
  run_pattern_work s =
  mk (initialized s) (current_intensity s) true (negb (state s))
     (Some PATTERN_INTERMITTENT_PERIOD_MS) (pulse_for (negb (state s)) s).
Proof.
  intros Ha Hw. destruct s as [ini ci act st w p]. cbn in Ha, Hw. subst act.
  destruct w as [d |]; [| contradiction].
  unfold run_pattern_work, pattern_intermittent_handler, pulse_for. cbn.
  destruct st; reflexivity.
Qed.

(** X9.  While the pattern is active the output alternates: after [n]
    turns of the work queue the toggle flag has flipped [n] times, the
    pulse is that of the stored intensity when the flag is set and 0
    when it is clear, the work is armed again for 500 ms, and the
    pattern and its intensity are as they were. *)
Theorem pattern_alternates (s : t) (n : nat)
        (Ha : pattern_intermittent_active s = true)
        (Hw : pattern_intermittent_work s <> None) :
  let sn := Nat.iter n run_pattern_work s in
  pattern_intermittent_active sn = true /\
  current_intensity sn = current_intensity s /\
  initialized sn = initialized s /\
  state sn = xorb (state s) (Nat.odd n) /\
  pattern_intermittent_work sn <> None /\
  ((0 < n)%nat ->
   pattern_intermittent_work sn = Some PATTERN_INTERMITTENT_PERIOD_MS /\
   pwm_pulse_ns sn = pulse_for (state sn) s).
Proof.
  cbv zeta. induction n as [| n IH].
  - cbn. rewrite xorb_false_r. repeat split; auto; lia.
  - destruct IH as (IHa & IHi & IHini & IHst & IHw & _).
    rewrite Nat.iter_succ, (active_turn _ IHa IHw). cbn.
    rewrite IHst, Nat.odd_succ, <- Nat.negb_odd, IHi, IHini.
    repeat split; auto.
    + destruct (state s), (Nat.odd n); reflexivity.
    + discriminate.
    + unfold pulse_for. rewrite IHi.
      destruct (state s), (Nat.odd n); reflexivity.
Qed.

Lemma pattern_alternates_witness :
  let s := snd (hal_buzzer_set_intermittent true 80
                  (exec (op_init true 0) initial)) in
  pwm_pulse_ns (Nat.iter 3 run_pattern_work s) = 16000000.
Proof.
  cbv zeta.
  apply (proj2 (proj2 (proj2 (proj2 (proj2
           (pattern_alternates
              (snd (hal_buzzer_set_intermittent true 80
                      (exec (op_init true 0) initial)))
              3%nat eq_refl ltac:(discriminate))))))).
  lia.
Defined.

(** X10.  Stopping does not reset the toggle flag: after a stop and a
    new activation at intensity [i] the first turn of the work queue
    flips the flag the earlier pattern left behind, so it sounds at
    [i] when the pattern was stopped in its silent half and programs
    0 when it was stopped while sounding. *)
Theorem toggle_flag_survives_stop (s : t) (i : Z)
        (Hinit : initialized s = true) (Hi : 0 <= i <= 100) :
  let s1 := snd (hal_buzzer_set_intermittent false 0 s) in
  let s2 := snd (hal_buzzer_set_intermittent true i s1) in
  let s3 := run_pattern_work s2 in
  state s2 = state s /\
  pattern_intermittent_work s2 = Some K_NO_WAIT /\
  state s3 = negb (state s) /\
  pwm_pulse_ns s3 = (if state s then 0 else intensity_to_pulse_ns i).
Proof.
  cbv zeta. rewrite (deactivate_initialized s Hinit). cbn [snd].
  unfold hal_buzzer_set_intermittent. cbn.
  destruct (Z.ltb_spec 100 i); [lia |]. cbn.
  unfold run_pattern_work, pattern_intermittent_handler. cbn.
  destruct (state s); repeat split.
Qed.

Lemma toggle_flag_survives_stop_witness :
  let s := Nat.iter 1 run_pattern_work
             (snd (hal_buzzer_set_intermittent true 50
                     (exec (op_init true 0) initial))) in
  pwm_pulse_ns s = 10000000 /\
  pwm_pulse_ns
    (run_pattern_work
       (snd (hal_buzzer_set_intermittent true 50
               (snd (hal_buzzer_set_intermittent false 0 s))))) = 0.
Proof.
  cbv zeta. split; [reflexivity |].
  apply (proj2 (proj2 (proj2
           (toggle_flag_survives_stop
              (Nat.iter 1 run_pattern_work
                 (snd (hal_buzzer_set_intermittent true 50
                         (exec (op_init true 0) initial))))
              50 eq_refl ltac:(lia))))).
Defined.

(** X11.  [hal_buzzer_set_intermittent] checks the module first and
    the intensity second and changes nothing when it refuses: before
    init it answers InvalidState, and with an intensity above 100 it
    answers InvalidArgument even when asked to stop, so an active
    pattern keeps running. *)
Theorem set_intermittent_refusals (s : t) (active : bool) (intensity : Z) :
  (initialized s = false ->
   hal_buzzer_set_intermittent active intensity s = (HAL_BUZZER_ERROR_STATE, s)) /\
  (initialized s = true -> 100 < intensity ->
   hal_buzzer_set_intermittent active intensity s
   = (HAL_BUZZER_ERROR_INVALID, s)) /\
  (initialized s = true -> 100 < intensity ->
   pattern_intermittent_active s = true ->
   pattern_intermittent_work s <> None ->
   let s' := snd (hal_buzzer_set_intermittent false intensity s) in
   pattern_intermittent_active (run_pattern_work s') = true /\
   state (run_pattern_work s') = negb (state s)) /\
  (initialized s = true -> intensity <= 100 ->
   fst (hal_buzzer_set_intermittent active intensity s) = HAL_BUZZER_SUCCESS).
Proof.
  unfold hal_buzzer_set_intermittent.
  split; [| split; [| split]].
  - intros ->. reflexivity.
  - intros -> H. cbn. destruct (Z.ltb_spec 100 intensity); [reflexivity | lia].
  - intros -> H Ha Hw. cbn.
    destruct (Z.ltb_spec 100 intensity); [| lia]. cbn [snd].
    rewrite (active_turn s Ha Hw). split; reflexivity.
  - intros -> H. cbn. destruct (Z.ltb_spec 100 intensity); [lia |].
    destruct active; reflexivity.
Qed.

Lemma set_intermittent_refusals_witness :
  hal_buzzer_set_intermittent true 50 initial
  = (HAL_BUZZER_ERROR_STATE, initial) /\
  fst (hal_buzzer_set_intermittent false 101 (exec (op_init true 0) initial))
  = HAL_BUZZER_ERROR_INVALID.
Proof.
  split.
  - apply (proj1 (set_intermittent_refusals initial true 50) eq_refl).
  - rewrite (proj1 (proj2 (set_intermittent_refusals
                             (exec (op_init true 0) initial) false 101))
               eq_refl ltac:(lia)).
    reflexivity.
Defined.

(** X12.  [hal_buzzer_init] on an initialised engine changes nothing,
    a running pattern included; otherwise it fails with InitError and
    stays uninitialised exactly when the PWM device is not ready or
    refuses the first pulse, and else leaves the engine initialised,
    inactive, at medium intensity, with no work queued and the PWM at
    0. *)
Theorem buzzer_init_cases (s : t) (dev_ready : bool) (pwm_ret : Z) :
  let r := hal_buzzer_init dev_ready pwm_ret s in
  (initialized s = true -> r = (HAL_BUZZER_SUCCESS, s)) /\
  (initialized s = false ->
   (dev_ready = false \/ pwm_ret < 0 ->
    fst r = HAL_BUZZER_ERROR_INIT /\ initialized (snd r) = false /\
    pattern_intermittent_active (snd r) = pattern_intermittent_active s) /\
   (dev_ready = true -> 0 <= pwm_ret ->
    r = (HAL_BUZZER_SUCCESS,
         mk true HAL_BUZZER_INTENSITY_MEDIUM false (state s) None 0))).
Proof.
  cbv zeta. unfold hal_buzzer_init. split.
  - intros ->. reflexivity.
  - intros Hi. rewrite Hi. split.
    + intros [-> | H]; cbn [negb]; [repeat split; assumption |].
      destruct dev_ready; cbn [negb]; [| repeat split; assumption].
      destruct (Z.ltb_spec pwm_ret 0); [| lia].
      cbn. repeat split. exact Hi.
    + intros -> H. cbn [negb].
      destruct (Z.ltb_spec pwm_ret 0); [lia |]. reflexivity.
Qed.

Lemma buzzer_init_cases_witness :
  fst (hal_buzzer_init true (-5) initial) = HAL_BUZZER_ERROR_INIT /\
  hal_buzzer_init true 0 initial
  = (HAL_BUZZER_SUCCESS, mk true 50 false false None 0).
Proof.
  split.
  - apply (proj1 (proj2 (buzzer_init_cases initial true (-5)) eq_refl)).
    right. lia.
  - apply (proj2 (proj2 (buzzer_init_cases initial true 0) eq_refl) eq_refl).
    lia.
Defined.

End BuzzerEngineMore.

(* ===================================================================== *)
(** * More on the connectivity manager *)
(* ===================================================================== *)

Section ConnectivityManagerMore.
Import CInt Bt Ble.

Context {A : Type}.
Implicit Types (s : Ble.t A) (a : A) (w : Ble.t A * A).

Lemma refs_cons c k l :
  refs c (k :: l) = ((if is_ref c k then 1 else 0) + refs c l)%nat.
Proof. unfold refs. cbn [filter]. destruct (is_ref c k); reflexivity. Qed.

Lemma unrefs_cons c k l :
  unrefs c (k :: l) = ((if is_unref c k then 1 else 0) + unrefs c l)%nat.
Proof. unfold unrefs. cbn [filter]. destruct (is_unref c k); reflexivity. Qed.

Ltac balance H :=
  let c := fresh "c" in
  intros c; specialize (H c);
  rewrite ?refs_cons, ?unrefs_cons; cbn [is_ref is_unref holds] in *;
  repeat match goal with
         | |- context [Nat.eqb ?x ?y] => destruct (Nat.eqb x y)
         end; lia.

Ltac facts :=
  repeat split; intros;
  try discriminate; try congruence; try reflexivity;
  try (exfalso; intuition congruence); try (intuition congruence).

Lemma exec_keeps_coherent o w : coherent (fst w) -> coherent (fst (exec o w)).
Proof.
  destruct w as [s a]. destruct s as [ini st cbs nm cc aw ad sd ap cs].
  unfold coherent. cbn [fst]. cbn -[refs unrefs holds].
  intros (H1 & H2 & H3 & H4).
  destruct o as [name callbacks enable_ret | adv_params | stop_ret | disc_ret
                 | conn err info | conn reason | | start_ret];
    cbn [exec fst snd].
  - unfold hal_ble_init. cbn -[refs unrefs holds Nat.ltb].
    destruct ini; cbn -[refs unrefs holds Nat.ltb]; [facts; apply H4 |].
    destruct name as [name |]; cbn -[refs unrefs holds Nat.ltb];
      [| facts; apply H4].
    match goal with
    | |- context [Nat.ltb ?x ?y] => destruct (Nat.ltb x y)
    end; cbn -[refs unrefs holds]; [facts; apply H4 |].
    destruct callbacks, (negb (enable_ret =? 0)); cbn -[refs unrefs holds];
      (split; [| split; [| split]]); try balance H4; facts.
  - unfold hal_ble_start_advertising. cbn -[refs unrefs holds].
    destruct ini; cbn -[refs unrefs holds]; [| facts; apply H4].
    destruct st; cbn -[refs unrefs holds]; try (facts; apply H4);
      destruct adv_params as [p |]; cbn -[refs unrefs holds];
      try destruct (adv_params_invalid p); cbn -[refs unrefs holds];
      (split; [| split; [| split]]); try balance H4; facts.
  - unfold hal_ble_stop_advertising. cbn -[refs unrefs holds].
    destruct ini; cbn -[refs unrefs holds]; [| facts; apply H4].
    destruct st; cbn -[refs unrefs holds]; try (facts; apply H4).
    destruct (negb (stop_ret =? 0)); cbn -[refs unrefs holds];
      (split; [| split; [| split]]); try balance H4; facts.
  - unfold hal_ble_disconnect. cbn -[refs unrefs holds].
    destruct ini; cbn -[refs unrefs holds]; [| facts; apply H4].
    destruct cc as [c0 |]; cbn -[refs unrefs holds]; [| facts; apply H4].
    destruct (negb (disc_ret =? 0)); cbn -[refs unrefs holds];
      (split; [| split; [| split]]); try balance H4; facts.
  - destruct ini; cbn -[refs unrefs holds on_connected]; [| facts; apply H4].
    unfold on_connected. cbn -[refs unrefs holds].
    destruct (negb (err =? 0)); cbn -[refs unrefs holds];
      [facts; apply H4 |].
    destruct cc as [c0 |]; cbn -[refs unrefs holds];
      destruct (connected cbs); cbn -[refs unrefs holds];
      (split; [| split; [| split]]); try balance H4; facts.
  - destruct ini; cbn -[refs unrefs holds on_disconnected]; [| facts; apply H4].
    unfold on_disconnected. cbn -[refs unrefs holds].
    destruct cc as [c0 |]; cbn -[refs unrefs holds];
      destruct (disconnected cbs); cbn -[refs unrefs holds];
      (split; [| split; [| split]]); try balance H4; facts.
  - destruct ini; cbn -[refs unrefs holds]; facts; apply H4.
  - unfold run_adv_work, adv_work_handler. cbn -[refs unrefs holds].
    destruct aw; cbn -[refs unrefs holds]; [| facts; apply H4].
    destruct st; cbn -[refs unrefs holds];
      try destruct (negb (start_ret =? 0)); cbn -[refs unrefs holds];
      (split; [| split; [| split]]); try balance H4; facts.
Qed.

Lemma initial_coherent : coherent (@Ble.initial A).
Proof. unfold coherent. cbn. facts. Qed.

Lemma reachable_coherent w : reachable w -> coherent (fst w).
Proof.
  induction 1 as [a | o w _ IH].
  - apply initial_coherent.
  - apply exec_keeps_coherent, IH.
Qed.

(** X13.  From power-on, through any API calls, link events and turns
    of the work queue: the manager is Idle exactly while it is
    uninitialised, it holds a connection exactly while it is
    Connected (so [hal_ble_is_connected] is the test for that state),
    and advertising work is queued only once it is initialised. *)
Theorem manager_state_coherent w (Hr : reachable w) :
  (initialized (fst w) = false <-> current_state (fst w) = HAL_BLE_STATE_IDLE) /\
  (current_conn (fst w) <> None
   <-> current_state (fst w) = HAL_BLE_STATE_CONNECTED) /\
  (hal_ble_is_connected (fst w) = true
   <-> hal_ble_get_state (fst w) = HAL_BLE_STATE_CONNECTED) /\
  (adv_work (fst w) = true -> initialized (fst w) = true).
Proof.
  destruct (reachable_coherent w Hr) as (H1 & H2 & H3 & _).
  repeat split; try apply H1; try apply H2; try exact H3.
  - unfold hal_ble_is_connected, hal_ble_get_state. intros H.
    apply andb_prop in H. destruct H as [H _].
    destruct (current_state (fst w)); try discriminate. reflexivity.
  - unfold hal_ble_is_connected, hal_ble_get_state. intros H.
    rewrite H. cbn. apply H2 in H.
    destruct (current_conn (fst w)); [reflexivity | contradiction].
Qed.

(** X14.  From power-on the manager never leaks and never
    double-releases a connection: for every connection the
    [bt_conn_ref] calls made so far are the [bt_conn_unref] calls plus
    one if that connection is the one held. *)
Theorem references_balanced w (Hr : reachable w) (c : bt_conn) :
  refs c (calls (fst w))
  = (unrefs c (calls (fst w))
     + if holds c (current_conn (fst w)) then 1 else 0)%nat.
Proof. apply (reachable_coherent w Hr). Qed.

(** X15.  [hal_ble_stop_advertising] acts only on an initialised
    manager that is Advertising: it asks the host to stop and, when
    the host agrees, becomes Ready and runs the [adv_stopped]
    callback; when the host refuses it fails with Failed and stays
    Advertising; in every other state it fails with InvalidState
    without calling the host. *)
Theorem stop_advertising_cases s a (stop_ret : Z) :
  let r := hal_ble_stop_advertising stop_ret (s, a) in
  (initialized s = false \/ current_state s <> HAL_BLE_STATE_ADVERTISING ->
   r = (HAL_BLE_ERROR_STATE, (s, a))) /\
  (initialized s = true -> current_state s = HAL_BLE_STATE_ADVERTISING ->
   calls (fst (snd r)) = bt_le_adv_stop :: calls s /\
   (stop_ret <> 0 ->
    fst r = HAL_BLE_ERROR_FAILED /\
    current_state (fst (snd r)) = HAL_BLE_STATE_ADVERTISING /\
    snd (snd r) = a) /\
   (stop_ret = 0 ->
    fst r = HAL_BLE_SUCCESS /\
    current_state (fst (snd r)) = HAL_BLE_STATE_READY /\
    snd (snd r) = notify (adv_stopped (user_callbacks s)) a)).
Proof.
  cbv zeta. unfold hal_ble_stop_advertising. split.
  - intros [-> | H]; [reflexivity |].
    destruct (initialized s); cbn [negb]; [| reflexivity].
    destruct (current_state s); try reflexivity. contradiction.
  - intros Hi Hst. rewrite Hi, Hst. cbn.
    destruct (Z.eqb_spec stop_ret 0) as [-> | Hne]; cbn.
    + split; [reflexivity | split; [intros H; contradiction |]].
      intros _. repeat split.
    + split; [reflexivity | split; [| intros H; contradiction]].
      intros _. repeat split. exact Hst.
Qed.

(** X16.  [hal_ble_disconnect] only asks: whatever it answers, the
    state and the connection slot stay as they were.  It answers
    InvalidState before init, NotConnected when no connection is held
    (without calling the host), Failed when the host refuses, and
    success otherwise. *)
Theorem disconnect_only_requests s (disc_ret : Z) :
  let r := hal_ble_disconnect disc_ret s in
  current_state (snd r) = current_state s /\
  current_conn (snd r) = current_conn s /\
  (initialized s = false -> r = (HAL_BLE_ERROR_STATE, s)) /\
  (initialized s = true -> current_conn s = None ->
   r = (HAL_BLE_ERROR_NOT_CONNECTED, s)) /\
  (forall c, initialized s = true -> current_conn s = Some c ->
     calls (snd r) = bt_conn_disconnect c :: calls s /\
     fst r = if disc_ret =? 0 then HAL_BLE_SUCCESS else HAL_BLE_ERROR_FAILED).
Proof.
  cbv zeta. unfold hal_ble_disconnect.
  destruct s as [ini st cbs nm cc aw ad sd ap cs]. cbn.
  destruct ini; cbn.
  - destruct cc as [c0 |]; cbn.
    + destruct (Z.eqb_spec disc_ret 0); cbn;
        repeat split; intros; try discriminate;
        match goal with H : Some _ = Some _ |- _ => injection H as <- end;
        reflexivity.
    + repeat split; intros; try discriminate; reflexivity.
  - repeat split; intros; try discriminate; reflexivity.
Qed.

(** X17.  A turn of the system work queue: with no advertising work
    queued nothing happens; queued work is consumed, and while
    Connected it does nothing else (no call into the host); otherwise
    it calls [bt_le_adv_start] with the stored parameters, or the
    defaults when none are stored, and the payloads, and the manager
    becomes Advertising and runs [adv_started] exactly when the host
    accepts. *)
Theorem adv_work_outcomes s a (start_ret : Z) :
  let r := run_adv_work start_ret (s, a) in
  (adv_work s = false -> r = (s, a)) /\
  (adv_work s = true ->
   adv_work (fst r) = false /\
   (current_state s = HAL_BLE_STATE_CONNECTED ->
    r = (set_adv_work false s, a)) /\
   (current_state s <> HAL_BLE_STATE_CONNECTED ->
    calls (fst r)
    = bt_le_adv_start
        (match adv_param s with Some p => p | None => default_adv_param end)
        (ad_data s) (sd_data s) :: calls s /\
    (start_ret <> 0 ->
     current_state (fst r) = current_state s /\ snd r = a) /\
    (start_ret = 0 ->
     current_state (fst r) = HAL_BLE_STATE_ADVERTISING /\
     snd r = notify (adv_started (user_callbacks s)) a))).
Proof.
  cbv zeta. unfold run_adv_work, adv_work_handler.
  destruct s as [ini st cbs nm cc aw ad sd ap cs]. cbn.
  split.
  - intros ->. reflexivity.
  - intros ->. cbn.
    destruct st; cbn;
      destruct (Z.eqb_spec start_ret 0); cbn;
      repeat split; intros; try contradiction; try discriminate;
      try reflexivity; try congruence.
Qed.

(** X18.  A successful connect event makes the manager Connected and
    holding the new connection; a reference still held from before is
    released by exactly one [bt_conn_unref] before the new one is
    taken, the queued advertising work is left alone, and the
    [connected] callback, if any, receives the converted connection
    parameters. *)
Theorem connect_replaces_reference s a (conn : bt_conn)
        (info : option bt_conn_le_info) :
  let r := on_connected conn 0 info (s, a) in
  current_state (fst r) = HAL_BLE_STATE_CONNECTED /\
  current_conn (fst r) = Some conn /\
  calls (fst r)
  = bt_conn_ref conn
    :: match current_conn s with Some c => [bt_conn_unref c] | None => [] end
    ++ calls s /\
  (forall c, current_conn s = Some c -> c <> conn ->
     unrefs c (calls (fst r)) = S (unrefs c (calls s)) /\
     refs c (calls (fst r)) = refs c (calls s)) /\
  adv_work (fst r) = adv_work s /\
  initialized (fst r) = initialized s /\
  snd r = match connected (user_callbacks s) with
          | Some cb => cb (conn_info_of info) a
          | None => a
          end.
Proof.
  cbv zeta. unfold on_connected, conn_info_of.
  destruct s as [ini st cbs nm cc aw ad sd ap cs]. cbn -[refs unrefs].
  destruct cc as [c0 |]; cbn -[refs unrefs];
    destruct (connected cbs); cbn -[refs unrefs];
    repeat split; intros; try discriminate;
    match goal with H : Some _ = Some _ |- _ => injection H as <- end;
    rewrite ?refs_cons, ?unrefs_cons; cbn [is_ref is_unref];
    rewrite ?Nat.eqb_refl;
    match goal with
    | Hne : ?c <> ?conn |- _ =>
        destruct (Nat.eqb_spec c conn); [contradiction | reflexivity]
    end.
Qed.

(** X19.  The connection parameters handed to the application: the
    interval in ms is 5/4 of the host's value, cut to an integer, as
    long as that value is at most 52428, and the timeout in ms is ten
    times the host's value as long as that is at most 6553; a larger
    timeout wraps around in [uint16_t] and comes out smaller than it
    is.  The latency is passed on unchanged. *)
Theorem conn_info_units (i : bt_conn_le_info)
        (Hi : 0 <= interval i < 65536) (Ht : 0 <= timeout i < 65536) :
  let ci := conn_info_of (Some i) in
  (interval i <= 52428 -> interval_ms ci = interval i * 5 / 4) /\
  (timeout i <= 6553 -> timeout_ms ci = 10 * timeout i) /\
  (6553 < timeout i ->
   timeout_ms ci = 10 * timeout i - 65536 * (10 * timeout i / 65536) /\
   timeout_ms ci < 10 * timeout i - 65535) /\
  conn_latency ci = latency i.
Proof.
  cbv zeta. unfold conn_info_of. cbn [interval_ms timeout_ms conn_latency].
  unfold u16, to_unsigned. change (2 ^ 16) with 65536.
  rewrite Z.quot_div_nonneg by lia.
  repeat split; intros; Z.div_mod_to_equations; lia.
Qed.

(** X20.  A valid configuration accepted in Ready is stored in units
    of 0.625 ms, [ms * 8 / 5]: both limits lie within 32..16384 units
    with the minimum not above the maximum, the options are those
    asked for, and the advertising work then starts the host with
    exactly these parameters and the prepared payloads. *)
Theorem advertising_parameters s a (p : hal_ble_adv_params_t) (start_ret : Z)
        (Hinit : initialized s = true)
        (Hst : current_state s = HAL_BLE_STATE_READY)
        (Hmin : 20 <= interval_min_ms p <= interval_max_ms p)
        (Hmax : interval_max_ms p <= 10240) :
  let s1 := snd (hal_ble_start_advertising (Some p) s) in
  exists q,
    adv_param s1 = Some q /\
    Bt.interval_min q = interval_min_ms p * 8 / 5 /\
    Bt.interval_max q = interval_max_ms p * 8 / 5 /\
    32 <= Bt.interval_min q <= Bt.interval_max q /\
    Bt.interval_max q <= 16384 /\
    (In BT_LE_ADV_OPT_CONN (options q) <-> connectable p = true) /\
    (In BT_LE_ADV_OPT_USE_IDENTITY (options q) <-> use_identity p = true) /\
    calls (fst (run_adv_work start_ret (s1, a)))
    = bt_le_adv_start q (ad_data s) (sd_data s) :: calls s.
Proof.
  cbv zeta.
  assert (Hv : adv_params_invalid p = false).
  { unfold adv_params_invalid, ADV_INTERVAL_MIN_MS, ADV_INTERVAL_MAX_MS.
    repeat match goal with
           | |- context [?x <? ?y] => destruct (Z.ltb_spec x y); try lia
           end;
    try reflexivity. }
  unfold hal_ble_start_advertising. rewrite Hinit, Hst, Hv. cbn.
  eexists. split; [reflexivity |].
  cbn [Bt.interval_min Bt.interval_max options].
  unfold MS_TO_BLE_UNITS.
  assert (Hq1 : 32 <= interval_min_ms p * 8 / 5 <= 16384)
    by (Z.div_mod_to_equations; lia).
  assert (Hq2 : 32 <= interval_max_ms p * 8 / 5 <= 16384)
    by (Z.div_mod_to_equations; lia).
  assert (Hq3 : interval_min_ms p * 8 / 5 <= interval_max_ms p * 8 / 5)
    by (apply Z.div_le_mono; lia).
  rewrite !Z.quot_div_nonneg by lia.
  rewrite !u32_small by (change (2 ^ 32) with 4294967296; lia).
  repeat split; try lia.
  - destruct (connectable p), (use_identity p); cbn; intros H;
      try reflexivity; intuition discriminate.
  - destruct (connectable p), (use_identity p); cbn; intros H;
      try discriminate; auto.
  - destruct (connectable p), (use_identity p); cbn; intros H;
      try reflexivity; intuition discriminate.
  - destruct (connectable p), (use_identity p); cbn; intros H;
      try discriminate; auto.
  - unfold run_adv_work, adv_work_handler. cbn. rewrite Hst. cbn.
    destruct (negb (start_ret =? 0)); reflexivity.
Qed.

(** X21.  A successful init stores the name whole and prepares the
    payloads: the advertising data are the flags (general
    discoverable, no BR/EDR) followed by the complete name when it is
    not empty, with its length as data length, so at most the two
    entries the array has room for; the scan response is the one
    16-byte service UUID; the host has been enabled and the callbacks
    registered, in that order. *)
Theorem init_payload s (name : string)
        (callbacks : option (hal_ble_callbacks_t A))
        (Hi : initialized s = false)
        (Hlen : (String.length name <= 29)%nat) :
  let s' := snd (hal_ble_init (Some name) callbacks 0 s) in
  device_name s' = name /\
  ad_data s'
  = BT_DATA_FLAGS true true
    :: (if (0 <? String.length name)%nat
        then [BT_DATA_NAME_COMPLETE (Z.of_nat (String.length name)) name]
        else []) /\
  (List.length (ad_data s') <= 2)%nat /\
  sd_data s' = [BT_DATA_UUID128_ALL 16] /\
  adv_work s' = false /\
  calls s' = bt_conn_cb_register :: bt_enable :: calls s.
Proof.
  cbv zeta. unfold hal_ble_init. rewrite Hi. unfold MAX_DEVICE_NAME_LEN.
  destruct (Nat.ltb_spec 29 (String.length name)); [lia |].
  rewrite strncpy_name_short by exact Hlen.
  unfold prepare_adv_data.
  destruct callbacks; cbn -[Nat.ltb];
    destruct name as [| ch name]; cbn; repeat split; lia.
Qed.

(** X22.  A failed attempt to enable the link layer has already
    stored the name and the callbacks, and the module can be
    initialised again: a later init that succeeds takes its own name,
    but when it brings no callbacks those of the failed attempt stay
    registered. *)
Theorem init_retry_keeps_callbacks s (name1 name2 : string)
        (cbs : hal_ble_callbacks_t A) (enable_ret : Z)
        (Hi : initialized s = false)
        (Hlen1 : (String.length name1 <= 29)%nat)
        (Hlen2 : (String.length name2 <= 29)%nat)
        (Hret : enable_ret <> 0) :
  let r1 := hal_ble_init (Some name1) (Some cbs) enable_ret s in
  let r2 := hal_ble_init (Some name2) None 0 (snd r1) in
  fst r1 = HAL_BLE_ERROR_INIT /\
  device_name (snd r1) = name1 /\
  user_callbacks (snd r1) = cbs /\
  fst r2 = HAL_BLE_SUCCESS /\
  current_state (snd r2) = HAL_BLE_STATE_READY /\
  device_name (snd r2) = name2 /\
  user_callbacks (snd r2) = cbs.
Proof.
  cbv zeta. unfold hal_ble_init. rewrite Hi. unfold MAX_DEVICE_NAME_LEN.
  destruct (Nat.ltb_spec 29 (String.length name1)); [lia |].
  destruct (Nat.ltb_spec 29 (String.length name2)); [lia |].
  destruct (Z.eqb_spec enable_ret 0); [contradiction |].
  cbn. rewrite Hi. cbn.
  rewrite !strncpy_name_short by assumption.
  repeat split.
Qed.

End ConnectivityManagerMore.

(* ===================================================================== *)
(** * The battery bridge *)
(* ===================================================================== *)

Section BatteryBridge.
Import CInt Bt BatteryService.

Context {A : Type}.
Implicit Types (s : BatteryService.t A).

(** X23.  [gatt_battery_service_notify] looks for the connection
    first and the subscription second: without a connection it
    answers [-ENOTCONN], with one but without subscription [-EACCES],
    both without touching anything; otherwise it stores the
    percentage as the battery level, hands it to the host and answers
    what the host answers, the level staying stored even when the
    host fails. *)
Theorem notify_cases s (percentage notify_ret : Z) :
  let r := gatt_battery_service_notify percentage notify_ret s in
  (current_conn s = None -> r = (- ENOTCONN, s)) /\
  (current_conn s <> None -> notify_enabled s = false -> r = (- EACCES, s)) /\
  (forall c, current_conn s = Some c -> notify_enabled s = true ->
     fst r = notify_ret /\
     battery_level (snd r) = percentage /\
     calls (snd r) = bt_gatt_notify c percentage :: calls s).
Proof.
  cbv zeta. unfold gatt_battery_service_notify.
  destruct s as [cb lv vo st cc ne cs]. cbn.
  destruct cc as [c0 |]; cbn.
  - destruct ne; cbn.
    + repeat split; intros; try discriminate; try contradiction;
        try match goal with H : Some _ = Some _ |- _ => injection H as <- end;
        destruct (Z.eqb_spec notify_ret 0); cbn; congruence.
    + repeat split; intros; try discriminate; contradiction.
  - repeat split; intros; try discriminate; contradiction.
Qed.

(** X24.  The subscription is set by writing exactly the value 1 to
    the CCC descriptor, and cleared by every other value; it does not
    survive the connection: after a disconnect and a new connect a
    notification is refused with [-EACCES] until the client
    subscribes again. *)
Theorem subscription_lifetime s (value : Z) (conn conn' : bt_conn)
        (reason percentage notify_ret : Z) :
  (notify_enabled (battery_level_ccc_changed value s) = true <-> value = 1) /\
  (let s1 := connected_cb conn' 0 (disconnected_cb conn reason s) in
   notify_enabled s1 = false /\
   current_conn s1 = Some conn' /\
   gatt_battery_service_notify percentage notify_ret s1 = (- EACCES, s1) /\
   fst (gatt_battery_service_notify
          percentage notify_ret (battery_level_ccc_changed 1 s1)) = notify_ret).
Proof.
  split.
  - unfold battery_level_ccc_changed, BT_GATT_CCC_NOTIFY. cbn.
    destruct (Z.eqb_spec value 1); split; intros; congruence.
  - cbv zeta. unfold connected_cb, disconnected_cb, gatt_battery_service_notify.
    destruct s as [cb lv vo st cc ne cs]. cbn.
    destruct cc as [c0 |]; cbn; repeat split;
      destruct (Z.eqb_spec notify_ret 0); cbn; congruence.
Qed.

(** X25.  Reading a battery characteristic takes a fresh reading:
    when it succeeds the value returned and cached is the fresh
    percentage (within 0..100), voltage (at most 3600 mV) or state
    code (within 0..3), and only the level read runs the
    application's callback; when it fails the value cached before is
    returned and the service, the gauge and the application stay as
    they were. *)
Theorem reads_fresh_or_cached s (bat : Battery.t) (a : A)
        (reads : list Battery.adc_result) :
  match Battery.hal_battery_get_info bat reads with
  | (inr i, bat') =>
      fst (read_battery_level reads (s, bat, a)) = Battery.percentage i /\
      0 <= Battery.percentage i <= 100 /\
      fst (read_battery_voltage reads (s, bat, a)) = Battery.voltage_mv i /\
      0 <= Battery.voltage_mv i <= 3600 /\
      fst (read_battery_state reads (s, bat, a))
      = Battery.state_code (Battery.state i) /\
      0 <= Battery.state_code (Battery.state i) <= 3 /\
      snd (read_battery_level reads (s, bat, a))
      = (set_level (Battery.percentage i) s, bat',
         match app_callbacks s with
         | Some cbs => match battery_read_cb cbs with
                       | Some cb => cb (Battery.percentage i) a
                       | None => a
                       end
         | None => a
         end) /\
      snd (read_battery_voltage reads (s, bat, a))
      = (set_voltage (Battery.voltage_mv i) s, bat', a) /\
      snd (read_battery_state reads (s, bat, a))
      = (set_state (Battery.state_code (Battery.state i)) s, bat', a)
  | (inl _, _) =>
      read_battery_level reads (s, bat, a) = (battery_level s, (s, bat, a)) /\
      read_battery_voltage reads (s, bat, a) = (battery_voltage s, (s, bat, a)) /\
      read_battery_state reads (s, bat, a) = (battery_state s, (s, bat, a))
  end.
Proof.
  pose proof (get_info_cases bat reads) as H.
  unfold read_battery_level, read_battery_voltage, read_battery_state.
  destruct (Battery.hal_battery_get_info bat reads) as [[e | i] bat'].
  - destruct H as (-> & _). repeat split.
  - destruct H as (_ & (Hv & Hp & Hst) & _).
    assert (Hpr : 0 <= Battery.percentage i <= 100).
    { rewrite Hp, voltage_to_percentage_segments. apply segments_range. }
    assert (Hsc : 0 <= Battery.state_code (Battery.state i) <= 3).
    { rewrite Hst. unfold Battery.hal_battery_percentage_to_state.
      repeat match goal with
             | |- context [?x <? ?y] => destruct (Z.ltb_spec x y)
             end; cbn; lia. }
    unfold Battery.ADC_VREF_MV in Hv.
    rewrite (u8_small (Battery.state_code (Battery.state i))) by lia.
    cbn. repeat split; try lia.
Qed.

End BatteryBridge.

(* ===================================================================== *)
(** * More on the assembled firmware *)
(* ===================================================================== *)

Section FirmwareMore.
Import Bt Main.

Ltac settle :=
  repeat split; intros;
  try discriminate; try congruence; try reflexivity;
  try (exfalso; intuition congruence); try (intuition congruence).

Lemma main_indicators env fw : main env = inr fw -> indicators_agree fw.
Proof.
  unfold main. intros H.
  repeat match type of H with
         | (if ?c then _ else _) = _ => destruct c eqn:?; [discriminate |]
         | (let '(_, _) := ?e in _) = _ => destruct e eqn:?
         end.
  injection H as <-.
  apply negb_false_iff, Z.eqb_eq in Heqb5.
  unfold Ble.hal_ble_init in Heqp1. cbn -[Nat.ltb] in Heqp1.
  destruct (Nat.ltb _ _) in Heqp1; [injection Heqp1 as <- _; discriminate |].
  destruct (negb (bt_enable_ret env =? 0));
    [injection Heqp1 as <- _; discriminate |].
  injection Heqp1 as _ <-.
  unfold Ble.hal_ble_start_advertising in Heqp5. cbn in Heqp5.
  injection Heqp5 as _ <-.
  unfold BatteryService.gatt_battery_service_init in Heqp3.
  destruct (Battery.hal_battery_get_info _ _) as [[e | info] bat'] in Heqp3;
    injection Heqp3 as _ <- _;
    unfold indicators_agree; cbn; settle.
Qed.

Lemma step_keeps_indicators e fw :
  wired fw -> indicators_agree fw -> indicators_agree (step e fw).
Proof.
  intros (Hi & Hcb & Hbz & Hbs & Hb) Hind.
  destruct fw as [bl bs bzs bat a].
  destruct bl as [ini st cbs nm cc aw ad sd ap cs].
  destruct bs as [acb lv vo bst bcc ne bcs].
  destruct a as [bz verde azul].
  unfold indicators_agree in *. cbn in Hi, Hcb, Hbz, Hbs, Hb, Hind |- *.
  subst ini cbs acb.
  destruct Hind as (H1 & H2 & H3 & H4 & H5 & H6). subst bcc.
  destruct e; cbn [step].
  - unfold Ble.on_connected, BatteryService.connected_cb. cbn.
    destruct (negb (err =? 0)); cbn; [settle |].
    destruct cc; cbn; settle.
  - unfold Ble.on_disconnected, BatteryService.disconnected_cb. cbn.
    destruct cc; cbn; settle.
  - cbn. settle.
  - unfold Ble.run_adv_work, Ble.adv_work_handler. cbn.
    destruct aw; cbn; [| settle].
    destruct st; cbn; try destruct (negb (start_ret =? 0)); cbn;
      destruct verde; settle.
  - cbn. settle.
  - cbn [buzzer_svc application].
    destruct (write_buzzer_application buf offset bzs
                (mk_app bz verde azul) Hbz) as [E | [b E]];
      rewrite E; cbn; settle.
  - cbn [bas battery application]. unfold BatteryService.read_battery_level.
    destruct (Battery.hal_battery_get_info bat reads) as [[e | i] bat'];
      cbn; settle.
  - cbn [bas battery application]. unfold BatteryService.read_battery_voltage.
    destruct (Battery.hal_battery_get_info bat reads) as [[e | i] bat'];
      cbn; settle.
  - cbn [bas battery application]. unfold BatteryService.read_battery_state.
    destruct (Battery.hal_battery_get_info bat reads) as [[e | i] bat'];
      cbn; settle.
  - cbn. settle.
Qed.

Lemma reachable_indicators fw : reachable fw -> indicators_agree fw.
Proof.
  induction 1 as [env fw H | e fw Hr IH].
  - apply (main_indicators env). exact H.
  - apply step_keeps_indicators; [apply reachable_wired; exact Hr | exact IH].
Qed.

(** X26.  In the running firmware the status LEDs follow the
    manager: the green LED is lit exactly while the manager is
    Connected, the blue LED is off while it is Connected and lit while
    it is Advertising; and the manager is never Idle again. *)
Theorem status_leds_follow_manager fw (Hr : reachable fw) :
  (led_verde (application fw) = true
   <-> Ble.current_state (ble fw) = Ble.HAL_BLE_STATE_CONNECTED) /\
  (Ble.current_state (ble fw) = Ble.HAL_BLE_STATE_CONNECTED ->
   led_azul (application fw) = false) /\
  (Ble.current_state (ble fw) = Ble.HAL_BLE_STATE_ADVERTISING ->
   led_azul (application fw) = true) /\
  Ble.current_state (ble fw) <> Ble.HAL_BLE_STATE_IDLE.
Proof.
  destruct (reachable_indicators fw Hr) as (H1 & H2 & H3 & _ & _ & H6).
  repeat split; try apply H1; assumption.
Qed.

(** X27.  In the running firmware the battery service holds exactly
    the connection the manager holds, so a notification is refused
    with [-ENOTCONN], untouched, whenever the manager is not
    Connected, and while it is Connected a subscribed client gets it
    (the call answers what the host answers). *)
Theorem bridge_follows_manager fw (Hr : reachable fw)
        (percentage notify_ret : Z) :
  BatteryService.current_conn (bas fw) = Ble.current_conn (ble fw) /\
  (Ble.current_state (ble fw) <> Ble.HAL_BLE_STATE_CONNECTED ->
   BatteryService.gatt_battery_service_notify percentage notify_ret (bas fw)
   = (- ENOTCONN, bas fw)) /\
  (Ble.current_state (ble fw) = Ble.HAL_BLE_STATE_CONNECTED ->
   BatteryService.notify_enabled (bas fw) = true ->
   fst (BatteryService.gatt_battery_service_notify
          percentage notify_ret (bas fw)) = notify_ret).
Proof.
  destruct (reachable_indicators fw Hr) as (_ & _ & _ & H4 & H5 & _).
  split; [exact H5 | split].
  - intros Hst. unfold BatteryService.gatt_battery_service_notify.
    rewrite H5.
    destruct (Ble.current_conn (ble fw)) as [c |] eqn:Ec; [| reflexivity].
    exfalso. apply Hst, H4. discriminate.
  - intros Hst Hne. unfold BatteryService.gatt_battery_service_notify.
    rewrite H5, Hne.
    destruct (Ble.current_conn (ble fw)) as [c |] eqn:Ec.
    + cbn. destruct (Z.eqb_spec notify_ret 0); cbn; congruence.
    + exfalso. apply H4 in Hst. contradiction.
Qed.

(** X28.  Advertising is re-armed after a disconnect: in the running
    firmware, whatever the state, a disconnect event followed by the
    recycle event and a turn of the work queue in which the host
    accepts the start leaves the manager Advertising without a
    connection, the blue LED lit, the green one off and the buzzer
    silent. *)
Theorem advertising_rearmed_after_disconnect fw (Hr : reachable fw)
        (conn : bt_conn) (reason : Z) :
  let fw' := run [ev_disconnected conn reason; ev_recycled; ev_adv_work 0] fw in
  Ble.current_state (ble fw') = Ble.HAL_BLE_STATE_ADVERTISING /\
  Ble.current_conn (ble fw') = None /\
  Ble.adv_work (ble fw') = false /\
  led_azul (application fw') = true /\
  led_verde (application fw') = false /\
  Buzzer.pattern_intermittent_active (buzzer (application fw')) = false /\
  Buzzer.pwm_pulse_ns (buzzer (application fw')) = 0.
Proof.
  destruct (reachable_wired fw Hr) as (Hi & Hcb & _ & _ & Hb).
  destruct fw as [bl bs bzs bat a].
  destruct bl as [ini st cbs nm cc aw ad sd ap cs].
  destruct a as [bz verde azul].
  cbn in Hi, Hcb, Hb. subst ini cbs.
  cbv zeta. unfold run. cbn [fold_left step].
  unfold Ble.on_disconnected. cbn.
  pose proof (deactivate_initialized bz Hb) as Ed.
  destruct cc; cbn; rewrite Ed; cbn; repeat split.
Qed.

Lemma buzzer_init_boots dev_ready ret z bz :
  Buzzer.hal_buzzer_init dev_ready ret Buzzer.initial = (z, bz) ->
  (z =? Buzzer.HAL_BUZZER_SUCCESS) = true <-> dev_ready = true /\ 0 <= ret.
Proof.
  unfold Buzzer.hal_buzzer_init. cbn.
  destruct dev_ready; cbn.
  - destruct (Z.ltb_spec ret 0); intros E; injection E as <- _; cbn;
      split; intros; try discriminate; try lia; auto.
  - intros E. injection E as <- _. cbn. split; [discriminate | intros [? _]].
    discriminate.
Qed.

Lemma battery_init_boots dev_ready ret reads z bat :
  Battery.hal_battery_init Battery.initial dev_ready ret reads = (z, bat) ->
  (z =? Battery.HAL_BATTERY_SUCCESS) = true <-> dev_ready = true /\ 0 <= ret.
Proof.
  unfold Battery.hal_battery_init. cbn.
  destruct dev_ready; cbn.
  - destruct (Z.ltb_spec ret 0); intros E; injection E as <- _; cbn;
      split; intros; try discriminate; try lia; auto.
  - intros E. injection E as <- _. cbn. split; [discriminate | intros [? _]].
    discriminate.
Qed.

Lemma ble_init_boots name ret z (bl : Ble.t app) :
  Ble.hal_ble_init (Some name) (Some ble_callbacks) ret Ble.initial = (z, bl) ->
  ((z =? Ble.HAL_BLE_SUCCESS) = true
   <-> (String.length name <= 29)%nat /\ ret = 0) /\
  ((z =? Ble.HAL_BLE_SUCCESS) = true ->
   fst (Ble.hal_ble_start_advertising (Some adv_params) bl)
   = Ble.HAL_BLE_SUCCESS).
Proof.
  unfold Ble.hal_ble_init, Ble.MAX_DEVICE_NAME_LEN. cbn -[Nat.ltb].
  destruct (Nat.ltb_spec 29 (String.length name)).
  - intros E. injection E as <- _. cbn.
    split; [split; [discriminate | lia] | discriminate].
  - destruct (Z.eqb_spec ret 0); cbn -[Nat.ltb]; intros E;
      injection E as <- <-; cbn; split; try split; intros;
      try discriminate; try reflexivity; try lia; auto.
Qed.

(** X29.  [main] reaches its idle loop exactly when both LEDs are
    ready and configured, the PWM device is ready and accepts the
    first pulse, the ADC is ready and its channel set up, the device
    name has at most 29 bytes and the link layer can be enabled;
    otherwise it returns -1.  What the ADC samples are plays no part:
    failed battery readings do not stop the boot. *)
Theorem main_boots_iff (env : environment) :
  ((exists fw, main env = inr fw) <-> boots env) /\
  (~ boots env -> main env = inl (-1)).
Proof.
  assert (Hor : (exists fw, main env = inr fw) \/ main env = inl (-1)).
  { unfold main.
    repeat match goal with
           | |- context [if ?c then inl (-1) else _] => destruct c
           | |- context [let '(_, _) := ?e in _] => destruct e
           end; eauto. }
  assert (Hiff : (exists fw, main env = inr fw) <-> boots env).
  { unfold boots, main. split.
    - intros [fw H].
      repeat match type of H with
             | (if ?c then _ else _) = _ => destruct c eqn:?; [discriminate |]
             | (let '(_, _) := ?e in _) = _ => destruct e eqn:?
             end.
      apply negb_false_iff in Heqb, Heqb0, Heqb1, Heqb2, Heqb3, Heqb4, Heqb5.
      apply Z.eqb_eq in Heqb1, Heqb2.
      apply (buzzer_init_boots _ _ _ _ Heqp) in Heqb3.
      apply (battery_init_boots _ _ _ _ _ Heqp0) in Heqb4.
      apply (proj1 (ble_init_boots _ _ _ _ Heqp1)) in Heqb5.
      intuition.
    - intros (H1 & H2 & H3 & H4 & H5 & H6 & H7 & H8 & H9 & H10).
      rewrite H1, H2, H3, H4. cbn [negb Z.eqb].
      destruct (Buzzer.hal_buzzer_init (pwm_ready env) (pwm_ret env)
                                       Buzzer.initial) as [z bz] eqn:E1.
      rewrite (proj2 (buzzer_init_boots _ _ _ _ E1) (conj H5 H6)). cbn [negb].
      destruct (Battery.hal_battery_init Battery.initial (adc_ready env)
                  (adc_setup_ret env) (adc_first env)) as [z0 bat] eqn:E2.
      rewrite (proj2 (battery_init_boots _ _ _ _ _ E2) (conj H7 H8)).
      cbn [negb].
      destruct (Ble.hal_ble_init (Some (CONFIG_BT_DEVICE_NAME env))
                  (Some ble_callbacks) (bt_enable_ret env) Ble.initial)
        as [z1 bl] eqn:E3.
      destruct (ble_init_boots _ _ _ _ E3) as [Hb1 Hb2].
      pose proof (proj2 Hb1 (conj H9 H10)) as Hz1.
      rewrite Hz1. cbn [negb]. cbn [BuzzerService.gatt_buzzer_service_init
                                      buzzer_callbacks]. cbn [Z.eqb negb].
      destruct (BatteryService.gatt_battery_service_init
                  (Some battery_callbacks) (adc_third env)
                  BatteryService.initial
                  (snd (Battery.hal_battery_get_info bat (adc_second env))))
        as [z3 [bs bat']] eqn:E4.
      assert (z3 = 0).
      { unfold BatteryService.gatt_battery_service_init in E4.
        destruct (Battery.hal_battery_get_info _ (adc_third env))
          as [[e | i] b] in E4; injection E4 as <- _ _; reflexivity. }
      subst z3. cbn [Z.eqb negb].
      specialize (Hb2 Hz1).
      destruct (Ble.hal_ble_start_advertising (Some adv_params) bl)
        as [z4 bl'] eqn:E5.
      cbn [fst] in Hb2. subst z4. cbn. eauto. }
  split; [exact Hiff |].
  intros Hn. destruct Hor as [Hex | H]; [| exact H].
  exfalso. apply Hn, Hiff, Hex.
Qed.

End FirmwareMore.

(* ===================================================================== *)
(** * Runs of the added properties *)
(* ===================================================================== *)

Section MoreRuns.
Import Bt.

Lemma manager_runs_reachable (ops : list (@Ble.op Main.app)) : forall w,
  Ble.reachable w ->
  Ble.reachable (fold_left (fun w o => Ble.exec o w) ops w).
Proof.
  induction ops as [| o ops IH]; intros w Hw; [exact Hw |].
  cbn [fold_left]. apply IH, Ble.reach_exec, Hw.
Qed.

Lemma session_reachable : Ble.reachable (Main.manager_after Main.session).
Proof. apply manager_runs_reachable, Ble.reach_initial. Qed.

Lemma fw_connected_reachable : Main.reachable Main.fw_connected.
Proof.
  apply (Main.reach_step (Main.ev_connected 1%nat 0 None)).
  apply (Main.reach_step (Main.ev_adv_work 0)).
  apply (Main.reach_main Main.nominal). reflexivity.
Defined.

Lemma manager_state_coherent_witness :
  Ble.hal_ble_is_connected (fst (Main.manager_after Main.session)) = true.
Proof.
  apply (proj2 (proj1 (proj2 (proj2
           (manager_state_coherent (Main.manager_after Main.session)
              session_reachable))))).
  reflexivity.
Defined.

Lemma references_balanced_witness :
  refs 1%nat (Ble.calls (fst (Main.manager_after Main.session))) = 1%nat /\
  unrefs 1%nat (Ble.calls (fst (Main.manager_after Main.session))) = 1%nat /\
  refs 2%nat (Ble.calls (fst (Main.manager_after Main.session))) = 1%nat /\
  unrefs 2%nat (Ble.calls (fst (Main.manager_after Main.session))) = 0%nat.
Proof.
  pose proof (references_balanced (Main.manager_after Main.session)
                session_reachable 1%nat) as H1.
  pose proof (references_balanced (Main.manager_after Main.session)
                session_reachable 2%nat) as H2.
  repeat split.
Defined.

Lemma stop_advertising_cases_witness :
  fst (Ble.hal_ble_stop_advertising
         0 (Main.ble Main.fw_advertising, Main.application Main.fw_advertising))
  = Ble.HAL_BLE_SUCCESS /\
  fst (Ble.hal_ble_stop_advertising
         0 (Main.ble Main.fw_connected, Main.application Main.fw_connected))
  = Ble.HAL_BLE_ERROR_STATE.
Proof.
  split.
  - apply (proj2 (proj2 (proj2 (stop_advertising_cases
             (Main.ble Main.fw_advertising)
             (Main.application Main.fw_advertising) 0) eq_refl eq_refl))).
    reflexivity.
  - rewrite (proj1 (stop_advertising_cases
               (Main.ble Main.fw_connected)
               (Main.application Main.fw_connected) 0));
      [reflexivity | right; discriminate].
Defined.

Lemma disconnect_only_requests_witness :
  Ble.hal_ble_disconnect 0 (Main.ble Main.fw_advertising)
  = (Ble.HAL_BLE_ERROR_NOT_CONNECTED, Main.ble Main.fw_advertising) /\
  fst (Ble.hal_ble_disconnect 0 (Main.ble Main.fw_connected))
  = Ble.HAL_BLE_SUCCESS.
Proof.
  split.
  - apply (proj1 (proj2 (proj2 (proj2 (disconnect_only_requests
             (Main.ble Main.fw_advertising) 0)))) eq_refl eq_refl).
  - apply (proj2 (proj2 (proj2 (proj2 (proj2 (disconnect_only_requests
             (Main.ble Main.fw_connected) 0)))) 1%nat eq_refl eq_refl)).
Defined.

Lemma adv_work_outcomes_witness :
  Ble.current_state
    (fst (Ble.run_adv_work 0 (Main.ble Main.fw_ready,
                              Main.application Main.fw_ready)))
  = Ble.HAL_BLE_STATE_ADVERTISING /\
  Ble.calls
    (fst (Ble.run_adv_work 0 (Ble.k_work_submit (Main.ble Main.fw_connected),
                              Main.application Main.fw_connected)))
  = Ble.calls (Main.ble Main.fw_connected).
Proof.
  split.
  - pose proof (adv_work_outcomes (Main.ble Main.fw_ready)
                  (Main.application Main.fw_ready) 0) as H.
    cbv zeta in H. destruct H as [_ H]. specialize (H eq_refl).
    destruct H as (_ & _ & H). specialize (H ltac:(discriminate)).
    destruct H as (_ & _ & H). apply H. reflexivity.
  - pose proof (adv_work_outcomes
                  (Ble.k_work_submit (Main.ble Main.fw_connected))
                  (Main.application Main.fw_connected) 0) as H.
    cbv zeta in H. destruct H as [_ H]. specialize (H eq_refl).
    destruct H as (_ & H & _). rewrite (H eq_refl). vm_compute. reflexivity.
Defined.

Lemma connect_replaces_reference_witness :
  unrefs 1%nat
    (Ble.calls (fst (Ble.on_connected 2%nat 0 None
                       (Main.ble Main.fw_connected,
                        Main.application Main.fw_connected))))
  = 1%nat.
Proof.
  pose proof (connect_replaces_reference
                (Main.ble Main.fw_connected)
                (Main.application Main.fw_connected) 2%nat None) as H.
  cbv zeta in H. destruct H as (_ & _ & _ & H & _).
  apply (H 1%nat eq_refl). discriminate.
Defined.

Lemma conn_info_units_witness :
  Ble.interval_ms (Ble.conn_info_of (Some (mk_le_info 24 0 400))) = 30 /\
  Ble.timeout_ms (Ble.conn_info_of (Some (mk_le_info 24 0 400))) = 4000 /\
  Ble.timeout_ms (Ble.conn_info_of (Some (mk_le_info 24 0 6554))) = 4.
Proof.
  pose proof (conn_info_units (mk_le_info 24 0 400)
                ltac:(cbn; lia) ltac:(cbn; lia)) as H1.
  pose proof (conn_info_units (mk_le_info 24 0 6554)
                ltac:(cbn; lia) ltac:(cbn; lia)) as H2.
  cbv zeta in H1, H2.
  destruct H1 as (Hi & Ht & _). destruct H2 as (_ & _ & Hw & _).
  split; [| split].
  - rewrite Hi by (cbn; lia). reflexivity.
  - rewrite Ht by (cbn; lia). reflexivity.
  - rewrite (proj1 (Hw ltac:(cbn; lia))). reflexivity.
Defined.

Lemma advertising_parameters_witness :
  exists q,
    Ble.adv_param
      (snd (Ble.hal_ble_start_advertising
              (Some (Ble.mk_adv_params 100 250 true false))
              (Main.ble Main.fw_ready))) = Some q /\
    interval_min q = 160 /\ interval_max q = 400.
Proof.
  destruct (advertising_parameters
              (Main.ble Main.fw_ready) (Main.application Main.fw_ready)
              (Ble.mk_adv_params 100 250 true false) 0
              eq_refl eq_refl ltac:(cbn; lia) ltac:(cbn; lia))
    as (q & Hq & Hmin & Hmax & _).
  exists q. repeat split; assumption.
Defined.

Lemma init_payload_witness :
  Ble.ad_data
    (snd (Ble.hal_ble_init (Some "Amigo Perto"%string)
                           (Some Main.ble_callbacks) 0 Ble.initial))
  = [BT_DATA_FLAGS true true; BT_DATA_NAME_COMPLETE 11 "Amigo Perto"%string].
Proof.
  pose proof (init_payload Ble.initial "Amigo Perto"%string
                (Some Main.ble_callbacks) eq_refl ltac:(cbn; lia)) as H.
  cbv zeta in H. destruct H as (_ & H & _). exact H.
Defined.

Lemma init_retry_keeps_callbacks_witness :
  Ble.user_callbacks
    (snd (Ble.hal_ble_init (Some "B"%string) None 0
            (snd (Ble.hal_ble_init (Some "A"%string)
                                   (Some Main.ble_callbacks) (-5)
                                   Ble.initial))))
  = Main.ble_callbacks.
Proof.
  pose proof (init_retry_keeps_callbacks Ble.initial "A"%string "B"%string
                Main.ble_callbacks (-5) eq_refl ltac:(cbn; lia)
                ltac:(cbn; lia) ltac:(lia)) as H.
  cbv zeta in H. apply H.
Defined.

Lemma notify_cases_witness :
  BatteryService.gatt_battery_service_notify 80 0 (Main.bas Main.fw_ready)
  = (- ENOTCONN, Main.bas Main.fw_ready) /\
  BatteryService.gatt_battery_service_notify 80 0 (Main.bas Main.fw_connected)
  = (- EACCES, Main.bas Main.fw_connected) /\
  fst (BatteryService.gatt_battery_service_notify
         80 0 (BatteryService.battery_level_ccc_changed
                 1 (Main.bas Main.fw_connected))) = 0.
Proof.
  split; [| split].
  - apply (proj1 (notify_cases (Main.bas Main.fw_ready) 80 0)). reflexivity.
  - apply (proj1 (proj2 (notify_cases (Main.bas Main.fw_connected) 80 0)));
      [discriminate | reflexivity].
  - apply (proj2 (proj2 (notify_cases
             (BatteryService.battery_level_ccc_changed
                1 (Main.bas Main.fw_connected)) 80 0)) 1%nat eq_refl eq_refl).
Defined.

Lemma subscription_lifetime_witness :
  BatteryService.notify_enabled
    (BatteryService.battery_level_ccc_changed 1 (Main.bas Main.fw_connected))
  = true.
Proof.
  apply (proj1 (subscription_lifetime (Main.bas Main.fw_connected)
                  1 1%nat 1%nat 0 0 0)).
  reflexivity.
Defined.

Lemma status_leds_follow_manager_witness :
  Main.led_verde (Main.application Main.fw_connected) = true /\
  Main.led_azul (Main.application Main.fw_connected) = false.
Proof.
  split.
  - apply (proj1 (status_leds_follow_manager Main.fw_connected
                    fw_connected_reachable)).
    reflexivity.
  - apply (proj1 (proj2 (status_leds_follow_manager Main.fw_connected
                           fw_connected_reachable))).
    reflexivity.
Defined.

Lemma bridge_follows_manager_witness :
  BatteryService.current_conn (Main.bas Main.fw_connected) = Some 1%nat.
Proof.
  rewrite (proj1 (bridge_follows_manager Main.fw_connected
                    fw_connected_reachable 0 0)).
  reflexivity.
Defined.

Lemma advertising_rearmed_after_disconnect_witness :
  Ble.current_state
    (Main.ble (Main.run [Main.ev_disconnected 1%nat 19; Main.ev_recycled;
                         Main.ev_adv_work 0] Main.fw_connected))
  = Ble.HAL_BLE_STATE_ADVERTISING.
Proof.
  apply (advertising_rearmed_after_disconnect Main.fw_connected
           fw_connected_reachable 1%nat 19).
Defined.

Lemma main_boots_iff_witness : exists fw, Main.main Main.nominal = inr fw.
Proof.
  apply (proj2 (proj1 (main_boots_iff Main.nominal))).
  unfold Main.boots. cbn. repeat split; lia.
Defined.

End MoreRuns.
